(** * MonitoRSS: refresh scheduling, feed fetching and Discord delivery

    A shallow embedding of three services of the repository,

    - [ScheduleHandlerService] (backend-api): [handleRefreshRate],
      [syncRefreshRates], [syncMaxDailyArticles];
    - [FeedFetcherService] (feed-requests): [fetchAndSaveResponse],
      [fetchFeedResponse], [maybeDecodeResponse];
    - [DiscordMediumService] (user-feeds): [deliverArticle] and its helpers;

    followed by the properties of them that the specification states.

    The services are asynchronous TypeScript.  An [await]ed call either
    resolves with a value or rejects with an error, and whatever it did to
    the database, the cache or the queue before rejecting stays done.  The
    embedding therefore runs every method in a state-and-outcome monad
    ([Js.Async]): a computation maps a state to an outcome (resolved or
    rejected) together with the state reached.  Collaborators whose code is
    outside the repository (MongoDB, node-fetch, zlib, the REST producer, ...)
    are fields of an environment record; the theorems quantify over it. *)

From Stdlib Require Import List ZArith String Ascii Bool Lia QArith.
Import ListNotations.

Local Open Scope string_scope.
Local Open Scope list_scope.
Local Open Scope Z_scope.

(* ================================================================= *)
(** ** JavaScript values, errors and asynchronous computations *)

Module Js.

(** The errors the three services distinguish with [instanceof]. *)
Inductive JsError : Type :=
| FetchError (type : string) (message : string)   (* node-fetch *)
| FeedTooLargeException (message : string)
| Error (message : string).

Definition message (e : JsError) : string :=
  match e with
  | FetchError _ m => m
  | FeedTooLargeException m => m
  | Error m => m
  end.

Inductive Outcome (A : Type) : Type :=
| Resolved (a : A)
| Rejected (e : JsError).
Arguments Resolved {A} a.
Arguments Rejected {A} e.

(** An [async] body over a mutable state [S]. *)
Definition Async (S A : Type) : Type := S -> Outcome A * S.

Definition ret {S A} (a : A) : Async S A := fun s => (Resolved a, s).

Definition throw {S A} (e : JsError) : Async S A := fun s => (Rejected e, s).

Definition bind {S A B} (c : Async S A) (k : A -> Async S B) : Async S B :=
  fun s =>
    match c s with
    | (Resolved a, s') => k a s'
    | (Rejected e, s') => (Rejected e, s')
    end.

Definition get {S} : Async S S := fun s => (Resolved s, s).

Definition modify {S} (f : S -> S) : Async S unit := fun s => (Resolved tt, f s).

(** [try { c } catch (err) { h err }] *)
Definition tryCatch {S A} (c : Async S A) (h : JsError -> Async S A) : Async S A :=
  fun s =>
    match c s with
    | (Resolved a, s') => (Resolved a, s')
    | (Rejected e, s') => h e s'
    end.

(** [try { c } finally { f }]: [f] always runs; when it rejects, its error
    replaces the outcome of [c]. *)
Definition tryFinally {S A} (c : Async S A) (f : Async S unit) : Async S A :=
  fun s =>
    match c s with
    | (o, s') =>
        match f s' with
        | (Resolved _, s'') => (o, s'')
        | (Rejected e, s'') => (Rejected e, s'')
        end
    end.

(** [await Promise.all(xs.map(async (x) => f x))].  Every callback is
    started, in index order, before the first one settles, so every
    callback runs whatever the others do; the combined promise rejects
    with the first rejection.  The callbacks of the services run against
    one collaborator each and touch disjoint data (see
    [groups_commute] below for the database case), so they are run here
    one after the other, in index order. *)
Fixpoint promiseAll {S A B} (f : A -> Async S B) (xs : list A) : Async S (list B) :=
  match xs with
  | [] => ret []
  | x :: xs' =>
      fun s =>
        match f x s with
        | (Resolved b, s1) =>
            match promiseAll f xs' s1 with
            | (Resolved bs, s2) => (Resolved (b :: bs), s2)
            | (Rejected e, s2) => (Rejected e, s2)
            end
        | (Rejected e, s1) =>
            match promiseAll f xs' s1 with
            | (_, s2) => (Rejected e, s2)
            end
        end
  end.

(** JavaScript truthiness of a string-valued expression that may be
    [undefined] or [null] ([None]): only a non-empty string is truthy. *)
Definition truthy (v : option string) : bool :=
  match v with
  | Some (String _ _) => true
  | _ => false
  end.

(** [v || null] on such a value. *)
Definition orNull (v : option string) : option string :=
  if truthy v then v else None.

End Js.

Import Js.

Declare Scope async_scope.
Delimit Scope async_scope with async.
Notation "x <- c ;; k" := (Js.bind c (fun x => k))
  (at level 61, c at next level, right associativity) : async_scope.
Notation "c ;;; k" := (Js.bind c (fun _ => k))
  (at level 61, right associativity) : async_scope.
Local Open Scope async_scope.

Definition option_string_eqb (a b : option string) : bool :=
  match a, b with
  | Some x, Some y => String.eqb x y
  | None, None => true
  | _, _ => false
  end.

(* ================================================================= *)
(** ** ScheduleHandlerService *)

Module ScheduleHandlerService.

(** One element of [getBenefitsOfAllDiscordUsers()]. *)
Record Benefits : Type := {
  discordUserId : string;
  isSupporter : bool;
  refreshRateSeconds : Z;
  maxDailyArticles : Z;
  maxUserFeeds : Z
}.

(** A stored [UserFeed] document, with the fields the service reads or
    writes.  A field a document may lack is an [option]. *)
Record UserFeed : Type := {
  url : option string;
  user_discordUserId : string;
  feed_refreshRateSeconds : option Z;
  feed_maxDailyArticles : option Z;
  debug : bool
}.

Inductive Field : Type := RefreshRateSeconds | MaxDailyArticles.

Definition getField (f : Field) (d : UserFeed) : option Z :=
  match f with
  | RefreshRateSeconds => feed_refreshRateSeconds d
  | MaxDailyArticles => feed_maxDailyArticles d
  end.

Definition setField (f : Field) (v : Z) (d : UserFeed) : UserFeed :=
  match f with
  | RefreshRateSeconds =>
      {| url := url d; user_discordUserId := user_discordUserId d;
         feed_refreshRateSeconds := Some v;
         feed_maxDailyArticles := feed_maxDailyArticles d; debug := debug d |}
  | MaxDailyArticles =>
      {| url := url d; user_discordUserId := user_discordUserId d;
         feed_refreshRateSeconds := feed_refreshRateSeconds d;
         feed_maxDailyArticles := Some v; debug := debug d |}
  end.

(** The two shapes of filter on ["user.discordUserId"]. *)
Inductive UserCond : Type :=
| In_ (ids : list string)     (* { $in: ids } *)
| Nin (ids : list string).    (* { $nin: ids } *)

Definition hasId (ids : list string) (id : string) : bool :=
  existsb (String.eqb id) ids.

Definition userMatches (c : UserCond) (d : UserFeed) : bool :=
  match c with
  | In_ ids => hasId ids (user_discordUserId d)
  | Nin ids => negb (hasId ids (user_discordUserId d))
  end.

(** [{ field: { $ne: v } }]; a document without the field matches. *)
Definition fieldNe (f : Field) (v : Z) (d : UserFeed) : bool :=
  match getField f d with
  | Some x => negb (Z.eqb x v)
  | None => true
  end.

(** [updateMany({ "user.discordUserId": user, field: { $ne: ne } },
                { $set: { field: set } })] *)
Record UpdateQuery : Type := {
  q_user : UserCond;
  q_field : Field;
  q_ne : Z;
  q_set : Z
}.

Definition queryMatches (q : UpdateQuery) (d : UserFeed) : bool :=
  userMatches (q_user q) d && fieldNe (q_field q) (q_ne q) d.

Definition matchedCount (q : UpdateQuery) (feeds : list UserFeed) : nat :=
  List.length (filter (queryMatches q) feeds).

Definition applyUpdate (q : UpdateQuery) (feeds : list UserFeed) : list UserFeed :=
  map (fun d => if queryMatches q d then setField (q_field q) (q_set q) d else d) feeds.

(** An element of the batch handed to [urlsHandler]. *)
Record UrlEntry : Type := {
  entry_url : string;
  saveToObjectStorage : bool
}.

(** What the service does to its collaborators, in the order it does it. *)
Inductive Event : Type :=
| EvGetBenefits
| EvUpdateMany (q : UpdateQuery) (matched : option nat)  (* [None]: rejected *)
| EvFindDebug
| EvAggregate (rate : Z)                 (* the due-URL query is issued *)
| EvCursorNext (_id : option string)     (* one document pulled *)
| EvCursorEnd
| EvUrlsHandler (batch : list UrlEntry).

Record State : Type := {
  feeds : list UserFeed;      (* the [userfeeds] collection *)
  trace : list Event          (* oldest first *)
}.

Definition emit (e : Event) : Async State unit :=
  modify (fun s => {| feeds := feeds s; trace := trace s ++ [e] |}).

(** The collaborators. *)
Record Env : Type := {
  (* supportersService *)
  getBenefitsOfAllDiscordUsers : Outcome (list Benefits);
  maxDailyArticlesDefault : Z;
  (* BACKEND_API_DEFAULT_REFRESH_RATE_MINUTES * 60 *)
  defaultRefreshRateSeconds : Z;
  (* getCommonFeedAggregateStages({ refreshRateSeconds }), as the map it
     computes on the collection *)
  commonFeedAggregateStages : Z -> list UserFeed -> list UserFeed;
  (* whether the database rejects a call *)
  updateManyError : UpdateQuery -> option JsError;
  findError : option JsError;
  aggregateError : option JsError
}.

Section Service.

Variable env : Env.

Definition updateMany (q : UpdateQuery) : Async State nat :=
  fun s =>
    match updateManyError env q with
    | Some e =>
        (Rejected e, {| feeds := feeds s; trace := trace s ++ [EvUpdateMany q None] |})
    | None =>
        let n := matchedCount q (feeds s) in
        (Resolved n,
         {| feeds := applyUpdate q (feeds s);
            trace := trace s ++ [EvUpdateMany q (Some n)] |})
    end.

(** A [Map<number, string[]>] in insertion order. *)
Fixpoint mapGet (k : Z) (m : list (Z * list string)) : option (list string) :=
  match m with
  | [] => None
  | (k', v) :: m' => if Z.eqb k k' then Some v else mapGet k m'
  end.

(** [currentDiscordUserIds.push(id)] on the array stored under [k]. *)
Fixpoint mapPush (k : Z) (id : string) (m : list (Z * list string))
  : list (Z * list string) :=
  match m with
  | [] => []
  | (k', v) :: m' =>
      if Z.eqb k k' then (k', v ++ [id]) :: m' else (k', v) :: mapPush k id m'
  end.

(** The [for (const s of validSupporters)] loop of both sync methods,
    [key] selecting the value to group by. *)
Definition groupSupporters (key : Benefits -> Z) (validSupporters : list Benefits)
  : list (Z * list string) :=
  fold_left
    (fun m s =>
       match mapGet (key s) m with
       | None => m ++ [(key s, [discordUserId s])]
       | Some _ => mapPush (key s) (discordUserId s) m
       end)
    validSupporters [].

(** The body shared by [syncRefreshRates] and [syncMaxDailyArticles]: the
    two methods differ in the field, the grouping key and the default. *)
Definition syncField (f : Field) (key : Benefits -> Z) (default : Z)
           (benefits : list Benefits) : Async State unit :=
  let validSupporters := filter isSupporter benefits in
  let groups := groupSupporters key validSupporters in
  pushed <- promiseAll
              (fun g : Z * list string =>
                 let (value, discordUserIds) := g in
                 _ <- updateMany {| q_user := In_ discordUserIds; q_field := f;
                                    q_ne := value; q_set := value |} ;;
                 ret discordUserIds)
              groups ;;
  let specialDiscordUserIds := List.concat pushed in
  _ <- updateMany {| q_user := Nin specialDiscordUserIds; q_field := f;
                     q_ne := default; q_set := default |} ;;
  ret tt.

Definition syncRefreshRates (benefits : list Benefits) : Async State unit :=
  syncField RefreshRateSeconds refreshRateSeconds
            (defaultRefreshRateSeconds env) benefits.

Definition syncMaxDailyArticles (benefits : list Benefits) : Async State unit :=
  syncField MaxDailyArticles maxDailyArticles
            (maxDailyArticlesDefault env) benefits.

(** [$group: { _id: "$url" }]: one document per distinct url, here in
    order of first occurrence. *)
Fixpoint groupByUrl (docs : list UserFeed) (seen : list (option string))
  : list (option string) :=
  match docs with
  | [] => []
  | d :: docs' =>
      if existsb (option_string_eqb (url d)) seen
      then groupByUrl docs' seen
      else url d :: groupByUrl docs' (url d :: seen)
  end.

Definition getUrlsQueryMatchingRefreshRate (rate : Z) (fs : list UserFeed)
  : list (option string) :=
  groupByUrl (commonFeedAggregateStages env rate fs) [].

(** Opening the cursor runs the aggregation on the collection as it is
    then. *)
Definition openCursor (rate : Z) : Async State (list (option string)) :=
  _ <- emit (EvAggregate rate) ;;
  match aggregateError env with
  | Some e => throw e
  | None => s <- get ;; ret (getUrlsQueryMatchingRefreshRate rate (feeds s))
  end.

(** [userFeedModel.find({ debug: true }).select("_id url").lean()] *)
Definition findDebugFeeds : Async State (list UserFeed) :=
  _ <- emit EvFindDebug ;;
  match findError env with
  | Some e => throw e
  | None => s <- get ;; ret (filter debug (feeds s))
  end.

Section Handler.

(** [urlsHandler]: whether the promise it returns rejects. *)
Variable urlsHandler : list UrlEntry -> option JsError.

Definition callUrlsHandler (batch : list UrlEntry) : Async State unit :=
  _ <- emit (EvUrlsHandler batch) ;;
  match urlsHandler batch with
  | Some e => throw e
  | None => ret tt
  end.

(** [for await (const { _id: url } of urlsCursor) { ... }], returning
    the [urlBatch] left when the cursor is exhausted. *)
Fixpoint forAwait (urlsToDebug : list (option string))
         (cursor : list (option string)) (urlBatch : list UrlEntry)
  : Async State (list UrlEntry) :=
  match cursor with
  | [] => _ <- emit EvCursorEnd ;; ret urlBatch
  | _id :: cursor' =>
      _ <- emit (EvCursorNext _id) ;;
      match _id with
      | Some (String c u) =>
          let url := String c u in
          let urlBatch' :=
            urlBatch ++
            [{| entry_url := url;
                saveToObjectStorage :=
                  existsb (option_string_eqb (Some url)) urlsToDebug |}] in
          if Nat.eqb (List.length urlBatch') 25
          then _ <- callUrlsHandler urlBatch' ;;
               forAwait urlsToDebug cursor' []
          else forAwait urlsToDebug cursor' urlBatch'
      | _ => forAwait urlsToDebug cursor' urlBatch   (* continue *)
      end
  end.

Definition handleRefreshRate (refreshRateSeconds : Z) : Async State unit :=
  allBenefits <- (_ <- emit EvGetBenefits ;;
                  fun s => (getBenefitsOfAllDiscordUsers env, s)) ;;
  _ <- syncRefreshRates allBenefits ;;
  _ <- syncMaxDailyArticles allBenefits ;;
  feedsToDebug <- findDebugFeeds ;;
  let urlsToDebug := map url feedsToDebug in
  urlsCursor <- openCursor refreshRateSeconds ;;
  urlBatch <- forAwait urlsToDebug urlsCursor [] ;;
  if Nat.ltb 0 (List.length urlBatch)
  then callUrlsHandler urlBatch
  else ret tt.

End Handler.

End Service.

(** The batches handed to [urlsHandler], in call order. *)
Fixpoint dispatched (t : list Event) : list (list UrlEntry) :=
  match t with
  | [] => []
  | EvUrlsHandler b :: t' => b :: dispatched t'
  | _ :: t' => dispatched t'
  end.

(** The numbers of documents matched by the bulk updates, in call order. *)
Fixpoint matchedCounts (t : list Event) : list (option nat) :=
  match t with
  | [] => []
  | EvUpdateMany _ m :: t' => m :: matchedCounts t'
  | _ :: t' => matchedCounts t'
  end.

Definition isUpdate (e : Event) : bool :=
  match e with EvUpdateMany _ _ => true | _ => false end.

Definition isAggregate (e : Event) : bool :=
  match e with EvAggregate _ => true | _ => false end.

End ScheduleHandlerService.

(* ================================================================= *)
(** ** Strings, hashing and encoding used by the fetcher *)

Module Text.

Definition asciiZ (c : ascii) : Z := Z.of_N (N_of_ascii c).

Definition bytesOf (s : string) : list Z := map asciiZ (list_ascii_of_string s).

(** [Buffer.byteLength(s)]; a [string] here is the UTF-8 encoding of the
    JavaScript string, so its byte length is its length. *)
Fixpoint byteLength (s : string) : Z :=
  match s with
  | EmptyString => 0
  | String _ s' => 1 + byteLength s'
  end.

(** [s.split(sep)] for a one-character separator. *)
Fixpoint split (sep : ascii) (s : string) : list string :=
  match s with
  | EmptyString => [EmptyString]
  | String c s' =>
      if Ascii.eqb c sep then EmptyString :: split sep s'
      else match split sep s' with
           | [] => [String c EmptyString]
           | p :: ps => String c p :: ps
           end
  end.

(** [s.includes(sub)] *)
Fixpoint includes (sub s : string) : bool :=
  String.prefix sub s ||
  match s with
  | EmptyString => false
  | String _ s' => includes sub s'
  end.

Definition isSpace (c : ascii) : bool :=
  let n := asciiZ c in ((9 <=? n) && (n <=? 13)) || (n =? 32).

Fixpoint trimStart (s : string) : string :=
  match s with
  | String c s' => if isSpace c then trimStart s' else s
  | EmptyString => EmptyString
  end.

Fixpoint trimEnd (s : string) : string :=
  match s with
  | EmptyString => EmptyString
  | String c s' =>
      match trimEnd s' with
      | EmptyString => if isSpace c then EmptyString else String c EmptyString
      | t => String c t
      end
  end.

(** [s.trim()], for ASCII white space. *)
Definition trim (s : string) : string := trimEnd (trimStart s).

Definition lower (c : ascii) : ascii :=
  let n := asciiZ c in
  if (65 <=? n) && (n <=? 90) then ascii_of_N (Z.to_N (n + 32)) else c.

(** The tail [-*8] of the pattern, anchored at the head of [s]. *)
Fixpoint dashes8 (s : string) : bool :=
  match s with
  | String c s' =>
      if Ascii.eqb c "8" then true
      else if Ascii.eqb c "-" then dashes8 s' else false
  | EmptyString => false
  end.

Definition utf8Here (s : string) : bool :=
  match s with
  | String a (String b (String c s')) =>
      Ascii.eqb (lower a) "u" && Ascii.eqb (lower b) "t" &&
      Ascii.eqb (lower c) "f" && dashes8 s'
  | _ => false
  end.

(** [/utf-*8/i.test(s)] *)
Fixpoint testUtf8 (s : string) : bool :=
  utf8Here s ||
  match s with
  | EmptyString => false
  | String _ s' => testUtf8 s'
  end.

(** *** SHA-1 (FIPS 180-4), on 32-bit words kept in [Z] *)

Definition w32 (x : Z) : Z := x mod 4294967296.

Definition rotl (n : Z) (x : Z) : Z :=
  w32 (Z.lor (Z.shiftl x n) (Z.shiftr x (32 - n))).

Definition lnot32 (x : Z) : Z := 4294967295 - x.

Fixpoint zeros (n : nat) : list Z :=
  match n with O => [] | S n' => 0 :: zeros n' end.

(** Big-endian bytes of [x], [n] of them. *)
Fixpoint beBytes (n : nat) (x : Z) : list Z :=
  match n with
  | O => []
  | S n' => (Z.shiftr x (8 * Z.of_nat n')) mod 256 :: beBytes n' x
  end.

Definition pad (msg : list Z) : list Z :=
  let len := Z.of_nat (List.length msg) in
  let k := Z.to_nat ((55 - len) mod 64) in
  msg ++ [128] ++ zeros k ++ beBytes 8 (8 * len).

Fixpoint beWords (n : nat) (bs : list Z) : list Z :=
  match n, bs with
  | S n', b0 :: b1 :: b2 :: b3 :: bs' =>
      (b0 * 16777216 + b1 * 65536 + b2 * 256 + b3) :: beWords n' bs'
  | _, _ => []
  end.

(** The message schedule, newest word first: [w] holds W(t-1), W(t-2), ... *)
Fixpoint schedule (n : nat) (w : list Z) : list Z :=
  match n with
  | O => w
  | S n' =>
      let x := Z.lxor (Z.lxor (nth 2 w 0) (nth 7 w 0))
                      (Z.lxor (nth 13 w 0) (nth 15 w 0)) in
      schedule n' (rotl 1 x :: w)
  end.

Definition H5 : Type := (Z * Z * Z * Z * Z)%type.

Definition round (t : nat) (wt : Z) (h : H5) : H5 :=
  let '(a, b, c, d, e) := h in
  let '(f, k) :=
    if Nat.ltb t 20 then (Z.lor (Z.land b c) (Z.land (lnot32 b) d), 1518500249)
    else if Nat.ltb t 40 then (Z.lxor (Z.lxor b c) d, 1859775393)
    else if Nat.ltb t 60
         then (Z.lor (Z.lor (Z.land b c) (Z.land b d)) (Z.land c d), 2400959708)
         else (Z.lxor (Z.lxor b c) d, 3395469782) in
  (w32 (rotl 5 a + f + e + k + wt), a, rotl 30 b, c, d).

Fixpoint rounds (t : nat) (ws : list Z) (h : H5) : H5 :=
  match ws with
  | [] => h
  | wt :: ws' => rounds (S t) ws' (round t wt h)
  end.

Definition compress (h : H5) (block : list Z) : H5 :=
  let ws := rev (schedule 64 (rev (beWords 16 block))) in
  let '(a, b, c, d, e) := rounds 0 ws h in
  let '(h0, h1, h2, h3, h4) := h in
  (w32 (h0 + a), w32 (h1 + b), w32 (h2 + c), w32 (h3 + d), w32 (h4 + e)).

Fixpoint blocks (n : nat) (bs : list Z) (h : H5) : H5 :=
  match n with
  | O => h
  | S n' => blocks n' (skipn 64 bs) (compress h (firstn 64 bs))
  end.

Definition hexDigit (d : Z) : ascii :=
  ascii_of_N (Z.to_N (if d <? 10 then 48 + d else 87 + d)).

Fixpoint hex (bs : list Z) : string :=
  match bs with
  | [] => EmptyString
  | b :: bs' => String (hexDigit (b / 16)) (String (hexDigit (b mod 16)) (hex bs'))
  end.

Definition sha1Hex (data : string) : string :=
  let p := pad (bytesOf data) in
  let '(h0, h1, h2, h3, h4) :=
    blocks (Nat.div (List.length p) 64) p
           (1732584193, 4023233417, 2562383102, 271733878, 3285377520) in
  hex (beBytes 4 h0 ++ beBytes 4 h1 ++ beBytes 4 h2 ++ beBytes 4 h3 ++ beBytes 4 h4).

(** *** Base64, as [Buffer.prototype.toString('base64')] *)

Definition b64Char (n : Z) : ascii :=
  ascii_of_N (Z.to_N
    (if n <? 26 then 65 + n
     else if n <? 52 then 71 + n
     else if n <? 62 then n - 4
     else if n =? 62 then 43 else 47)).

Fixpoint base64Bytes (fuel : nat) (bs : list Z) : string :=
  match fuel, bs with
  | S fuel', b0 :: b1 :: b2 :: bs' =>
      String (b64Char (b0 / 4))
        (String (b64Char ((b0 mod 4) * 16 + b1 / 16))
           (String (b64Char ((b1 mod 16) * 4 + b2 / 64))
              (String (b64Char (b2 mod 64)) (base64Bytes fuel' bs'))))
  | _, [b0; b1] =>
      String (b64Char (b0 / 4))
        (String (b64Char ((b0 mod 4) * 16 + b1 / 16))
           (String (b64Char ((b1 mod 16) * 4)) "="))
  | _, [b0] =>
      String (b64Char (b0 / 4)) (String (b64Char ((b0 mod 4) * 16)) "==")
  | _, _ => EmptyString
  end.

Definition base64 (s : string) : string :=
  let bs := bytesOf s in base64Bytes (List.length bs) bs.

End Text.

(* ================================================================= *)
(** ** FeedFetcherService *)

Module FeedFetcherService.

Inductive RequestStatus : Type :=
| OK | BAD_STATUS_CODE | FETCH_ERROR | FETCH_TIMEOUT | PARSE_ERROR
| REFUSED_LARGE_FEED.

(** A JavaScript object used as a string-to-string record, in key order. *)
Definition Obj : Type := list (string * string).

(** [{ ...obj, [k]: v }] *)
Fixpoint objSet (k v : string) (obj : Obj) : Obj :=
  match obj with
  | [] => [(k, v)]
  | (k', v') :: obj' =>
      if String.eqb k k' then (k', v) :: obj' else (k', v') :: objSet k v obj'
  end.

Definition trimHeadersForStorage (obj : option Obj) : option Obj :=
  match obj with
  | None => None
  | Some o => Some (filter (fun kv => truthy (Some (snd kv))) o)
  end.

Record FetchOptions : Type := {
  userAgent : option string;
  headers : option Obj
}.

(** The [options] argument of [fetchAndSaveResponse]. *)
Record Options : Type := {
  flushEntities : bool;
  saveResponseToObjectStorage : bool;
  opt_headers : option Obj
}.

(** The second argument of node-fetch's [fetch]. *)
Record FetchInit : Type := {
  timeout : Z;
  follow : Z;
  init_headers : Obj
}.

(** What the service reads of a node-fetch response.  Header names are
    lower-case, as [Headers.get] compares them; reading the body can
    reject. *)
Record HttpResponse : Type := {
  status : Z;
  res_headers : Obj;
  text : Outcome string;           (* res.text() *)
  arrayBuffer : Outcome string     (* res.arrayBuffer() *)
}.

(** node-fetch: [ok] is [status >= 200 && status < 300]. *)
Definition ok (res : HttpResponse) : bool :=
  (200 <=? status res) && (status res <? 300).

Definition NOT_MODIFIED : Z := 304.

Fixpoint headersGet (name : string) (h : Obj) : option string :=
  match h with
  | [] => None
  | (k, v) :: h' => if String.eqb k name then Some v else headersGet name h'
  end.

Record ResponseHeaders : Type := {
  etag : option string;
  lastModified : option string
}.

(** The [Response] entity; a field not assigned yet is [None]. *)
Record Response : Type := {
  res_createdAt : option Z;
  statusCode : option Z;
  stored_headers : option ResponseHeaders;
  s3ObjectKey : option string;
  redisCacheKey : option string;
  textHash : option string;
  isCloudflare : option bool
}.

Definition newResponse : Response :=
  {| res_createdAt := None; statusCode := None; stored_headers := None;
     s3ObjectKey := None; redisCacheKey := None; textHash := None;
     isCloudflare := None |}.

(** The [Request] entity. *)
Record Request : Type := {
  url : string;
  createdAt : Z;
  req_status : option RequestStatus;
  errorMessage : option string;
  fetchOptions : FetchOptions;
  response : option Response
}.

Inductive Log : Type :=
| LogDebug (msg : string)
| LogError (msg : string)
| LogDatadog (msg : string) (url : string) (byteSize : Z).

(** A node [crypto] Hash object: the data fed so far, and whether
    [digest] was called on it. *)
Record Hash : Type := {
  fed : string;
  finalized : bool
}.

Definition createHash : Hash := {| fed := EmptyString; finalized := false |}.

(** [h.copy()] throws once [h] is finalized. *)
Definition hashCopy (h : Hash) : Outcome Hash :=
  if finalized h then Rejected (Error "Digest already called")
  else Resolved {| fed := fed h; finalized := false |}.

Definition hashUpdate (h : Hash) (data : string) : Hash :=
  {| fed := fed h ++ data; finalized := finalized h |}.

Definition hashDigestHex (h : Hash) : string := Text.sha1Hex (fed h).

(** Everything the service can change, and the clock. *)
Record World : Type := {
  setFeedHtmlContentCalls : list (string * string);    (* key, body *)
  uploadFeedHtmlContentCalls : list (string * string); (* key, body *)
  persistedResponses : list Response;
  persistedRequests : list Request;
  flushes : nat;
  logs : list Log;
  sha1 : Hash;                (* the module-level [const sha1] *)
  uuids : nat;                (* calls of randomUUID so far *)
  now : Z
}.

Record Env : Type := {
  feedUserAgent : option string;      (* configService.get('feedUserAgent') *)
  defaultUserAgent : string;
  fetch : string -> FetchInit -> Outcome HttpResponse;     (* node-fetch *)
  iconvDecode : string -> string -> Outcome string;        (* bytes, charset *)
  deflate : string -> Outcome string;                      (* zlib *)
  randomUUID : nat -> string;
  uploadFeedHtmlContent : string -> string -> option JsError;
  setFeedHtmlContent : string -> string -> option JsError;
  responsePersist : Response -> option JsError;
  requestPersist : Request -> option JsError;
  requestFlush : option JsError
}.

(** The state of one call: the world and the call's own objects. *)
Record Run : Type := {
  world : World;
  request : Request;
  cur_response : Response;
  cur_text : option string
}.

Definition onWorld (f : World -> World) (r : Run) : Run :=
  {| world := f (world r); request := request r;
     cur_response := cur_response r; cur_text := cur_text r |}.

Definition onRequest (f : Request -> Request) (r : Run) : Run :=
  {| world := world r; request := f (request r);
     cur_response := cur_response r; cur_text := cur_text r |}.

Definition onResponse (f : Response -> Response) (r : Run) : Run :=
  {| world := world r; request := request r;
     cur_response := f (cur_response r); cur_text := cur_text r |}.

Definition setText (t : option string) (r : Run) : Run :=
  {| world := world r; request := request r;
     cur_response := cur_response r; cur_text := t |}.

Definition setStatus (st : RequestStatus) (q : Request) : Request :=
  {| url := url q; createdAt := createdAt q; req_status := Some st;
     errorMessage := errorMessage q; fetchOptions := fetchOptions q;
     response := response q |}.

Definition setErrorMessage (m : string) (q : Request) : Request :=
  {| url := url q; createdAt := createdAt q; req_status := req_status q;
     errorMessage := Some m; fetchOptions := fetchOptions q;
     response := response q |}.

Definition setResponse (p : Response) (q : Request) : Request :=
  {| url := url q; createdAt := createdAt q; req_status := req_status q;
     errorMessage := errorMessage q; fetchOptions := fetchOptions q;
     response := Some p |}.

Definition setS3ObjectKey (k : string) (p : Response) : Response :=
  {| res_createdAt := res_createdAt p; statusCode := statusCode p;
     stored_headers := stored_headers p; s3ObjectKey := Some k;
     redisCacheKey := redisCacheKey p; textHash := textHash p;
     isCloudflare := isCloudflare p |}.

Definition setRedisCacheKey (k : string) (p : Response) : Response :=
  {| res_createdAt := res_createdAt p; statusCode := statusCode p;
     stored_headers := stored_headers p; s3ObjectKey := s3ObjectKey p;
     redisCacheKey := Some k; textHash := textHash p;
     isCloudflare := isCloudflare p |}.

Definition setTextHash (h : string) (p : Response) : Response :=
  {| res_createdAt := res_createdAt p; statusCode := statusCode p;
     stored_headers := stored_headers p; s3ObjectKey := s3ObjectKey p;
     redisCacheKey := redisCacheKey p; textHash := Some h;
     isCloudflare := isCloudflare p |}.

Definition setIsCloudflare (b : bool) (p : Response) : Response :=
  {| res_createdAt := res_createdAt p; statusCode := statusCode p;
     stored_headers := stored_headers p; s3ObjectKey := s3ObjectKey p;
     redisCacheKey := redisCacheKey p; textHash := textHash p;
     isCloudflare := Some b |}.

Definition addLog (l : Log) (w : World) : World :=
  {| setFeedHtmlContentCalls := setFeedHtmlContentCalls w;
     uploadFeedHtmlContentCalls := uploadFeedHtmlContentCalls w;
     persistedResponses := persistedResponses w;
     persistedRequests := persistedRequests w;
     flushes := flushes w; logs := logs w ++ [l]; sha1 := sha1 w;
     uuids := uuids w; now := now w |}.

Definition addSetCall (k b : string) (w : World) : World :=
  {| setFeedHtmlContentCalls := setFeedHtmlContentCalls w ++ [(k, b)];
     uploadFeedHtmlContentCalls := uploadFeedHtmlContentCalls w;
     persistedResponses := persistedResponses w;
     persistedRequests := persistedRequests w;
     flushes := flushes w; logs := logs w; sha1 := sha1 w;
     uuids := uuids w; now := now w |}.

Definition addUploadCall (k b : string) (w : World) : World :=
  {| setFeedHtmlContentCalls := setFeedHtmlContentCalls w;
     uploadFeedHtmlContentCalls := uploadFeedHtmlContentCalls w ++ [(k, b)];
     persistedResponses := persistedResponses w;
     persistedRequests := persistedRequests w;
     flushes := flushes w; logs := logs w; sha1 := sha1 w;
     uuids := uuids w; now := now w |}.

Definition addResponse (p : Response) (w : World) : World :=
  {| setFeedHtmlContentCalls := setFeedHtmlContentCalls w;
     uploadFeedHtmlContentCalls := uploadFeedHtmlContentCalls w;
     persistedResponses := persistedResponses w ++ [p];
     persistedRequests := persistedRequests w;
     flushes := flushes w; logs := logs w; sha1 := sha1 w;
     uuids := uuids w; now := now w |}.

Definition addRequest (q : Request) (w : World) : World :=
  {| setFeedHtmlContentCalls := setFeedHtmlContentCalls w;
     uploadFeedHtmlContentCalls := uploadFeedHtmlContentCalls w;
     persistedResponses := persistedResponses w;
     persistedRequests := persistedRequests w ++ [q];
     flushes := flushes w; logs := logs w; sha1 := sha1 w;
     uuids := uuids w; now := now w |}.

Definition addFlush (w : World) : World :=
  {| setFeedHtmlContentCalls := setFeedHtmlContentCalls w;
     uploadFeedHtmlContentCalls := uploadFeedHtmlContentCalls w;
     persistedResponses := persistedResponses w;
     persistedRequests := persistedRequests w;
     flushes := S (flushes w); logs := logs w; sha1 := sha1 w;
     uuids := uuids w; now := now w |}.

Definition addUuid (w : World) : World :=
  {| setFeedHtmlContentCalls := setFeedHtmlContentCalls w;
     uploadFeedHtmlContentCalls := uploadFeedHtmlContentCalls w;
     persistedResponses := persistedResponses w;
     persistedRequests := persistedRequests w;
     flushes := flushes w; logs := logs w; sha1 := sha1 w;
     uuids := S (uuids w); now := now w |}.

(** Lift the settled promise of a collaborator. *)
Definition await {S A} (o : Outcome A) : Async S A := fun s => (o, s).

Definition failing {S} (e : option JsError) : Async S unit :=
  match e with
  | Some err => throw err
  | None => ret tt
  end.

Definition logger (l : Log) : Async Run unit := modify (onWorld (addLog l)).

(** The size ceiling of the disabled check, in megabytes. *)
Definition maxSizeMb : Q := 3%Q.

Definition sizeInMb (t : string) : Q :=
  (inject_Z (Text.byteLength t) / 1024 / 1024)%Q.

(** What [fetchAndSaveResponse] resolves with: [{ request, responseText }]
    ([Some None] is [null]) or [{ request }] ([None]). *)
Record Result : Type := {
  result_request : Request;
  responseText : option (option string)
}.

Section Service.

Variable env : Env.

Definition fetchFeedResponse (url : string) (options : FetchOptions)
  : Outcome HttpResponse :=
  fetch env url
    {| timeout := 15000;
       follow := 5;
       init_headers :=
         objSet "user-agent"
           (match userAgent options with
            | Some (String c u) => String c u
            | _ => defaultUserAgent env
            end)
           (match headers options with Some h => h | None => [] end) |}.

(** The [charset] of [maybeDecodeResponse].  The optional chain stops at
    a missing header or a missing [charset] part; [split('=')[1]] of a
    part without [=] is [undefined], and [.trim()] on it throws. *)
Definition charsetOf (res : HttpResponse) : Outcome (option string) :=
  match headersGet "content-type" (res_headers res) with
  | None => Resolved None
  | Some contentType =>
      match find (Text.includes "charset") (Text.split ";" contentType) with
      | None => Resolved None
      | Some part =>
          match nth_error (Text.split "=" part) 1 with
          | None =>
              Rejected (Error "Cannot read properties of undefined (reading 'trim')")
          | Some v => Resolved (Some (Text.trim v))
          end
      end
  end.

Definition maybeDecodeResponse (res : HttpResponse) : Outcome string :=
  match charsetOf res with
  | Rejected e => Rejected e
  | Resolved charset =>
      match charset with
      | Some (String c cs) =>
          if Text.testUtf8 (String c cs) then text res
          else match arrayBuffer res with
               | Rejected e => Rejected e
               | Resolved arrBuffer => iconvDecode env arrBuffer (String c cs)
               end
      | _ => text res
      end
  end.

(** [sha1.copy().update(data).digest('hex')] on the module-level hash. *)
Definition sha1Of (data : string) : Async Run string :=
  r <- get ;;
  h <- await (hashCopy (sha1 (world r))) ;;
  ret (hashDigestHex (hashUpdate h data)).

Definition persistResponse : Async Run unit :=
  r <- get ;;
  _ <- failing (responsePersist env (cur_response r)) ;;
  modify (onWorld (addResponse (cur_response r))).

Definition persistRequest : Async Run unit :=
  r <- get ;;
  _ <- failing (requestPersist env (request r)) ;;
  modify (onWorld (addRequest (request r))).

Definition flush : Async Run unit :=
  _ <- failing (requestFlush env) ;;
  modify (onWorld addFlush).

Definition wantsObjectStorage (options : option Options) : bool :=
  match options with
  | Some o => saveResponseToObjectStorage o
  | None => false
  end.

Definition wantsFlush (options : option Options) : bool :=
  match options with
  | Some o => flushEntities o
  | None => false
  end.

(** The innermost [try] of [fetchAndSaveResponse]: compress, upload when
    asked to, hash, write to the cache. *)
Definition saveBody (url : string) (options : option Options) (text : string)
  : Async Run unit :=
  tryCatch
    (deflated <- await (deflate env text) ;;
     let compressedText := Text.base64 deflated in
     _ <- logger (LogDatadog "saving response" url (Text.byteLength compressedText)) ;;
     _ <- (if wantsObjectStorage options
           then
             r <- get ;;
             let key := randomUUID env (uuids (world r)) in
             _ <- modify (onWorld addUuid) ;;
             _ <- modify (onResponse (setS3ObjectKey key)) ;;
             tryCatch
               (_ <- modify (onWorld (addUploadCall key compressedText)) ;;
                failing (uploadFeedHtmlContent env key compressedText))
               (fun _ =>
                  logger (LogError
                    "Failed to upload feed hmtl content to object file storage"))
           else ret tt) ;;
     cacheKey <- sha1Of url ;;
     _ <- modify (onResponse (setRedisCacheKey cacheKey)) ;;
     hash <- (match text with
              | String _ _ => sha1Of text
              | EmptyString => ret EmptyString
              end) ;;
     _ <- modify (onResponse (setTextHash hash)) ;;
     _ <- modify (onWorld (addSetCall cacheKey compressedText)) ;;
     failing (setFeedHtmlContent env cacheKey compressedText))
    (fun err =>
       match err with
       | FeedTooLargeException _ => throw err
       | _ =>
           logger (LogError
             ("Failed to upload feed html content for url " ++ url ++ " to cache"))
       end).

(** [res.status === HttpStatus.NOT_MODIFIED ? '' : await
    this.maybeDecodeResponse(res)] *)
Definition decodeText (res : HttpResponse) : Outcome string :=
  if status res =? NOT_MODIFIED then Resolved EmptyString
  else maybeDecodeResponse res.

(** The [catch] of the middle [try]. *)
Definition onDecodeError (url : string) (err : JsError) : Async Run unit :=
  match err with
  | FeedTooLargeException _ =>
      modify (onRequest (setStatus REFUSED_LARGE_FEED))
  | _ =>
      _ <- modify (onRequest (setStatus PARSE_ERROR)) ;;
      logger (LogDebug ("Failed to parse response text of url " ++ url))
  end.

(** The middle [try]: decode, then [saveBody].  [sizeOfTextInMb] is
    computed and, its check being commented out, not used. *)
Definition decodeAndSave (url : string) (options : option Options)
           (res : HttpResponse) : Async Run unit :=
  tryCatch
    (t <- await (decodeText res) ;;
     _ <- modify (setText (Some t)) ;;
     let sizeOfTextInMb := sizeInMb t in
     (* if (sizeOfTextInMb > 3) { throw new FeedTooLargeException(...) } *)
     saveBody url options t)
    (onDecodeError url).

(** [err instanceof FetchError && err.type === 'request-timeout'] *)
Definition isRequestTimeout (err : JsError) : bool :=
  match err with
  | FetchError type _ => String.eqb type "request-timeout"
  | _ => false
  end.

Definition hasCloudflareServer (res : HttpResponse) : bool :=
  match headersGet "server" (res_headers res) with
  | Some v => Text.includes "cloudflare" v
  | None => false
  end.

(** [request.status] as the outer [try] first sets it. *)
Definition statusOf (res : HttpResponse) : RequestStatus :=
  if ok res || (status res =? NOT_MODIFIED) then OK else BAD_STATUS_CODE.

(** The [Response] entity as built right after the fetch. *)
Definition responseOf (res : HttpResponse) (createdAt_ : Z) : Response :=
  let etag_ := headersGet "etag" (res_headers res) in
  let lastModified_ := headersGet "last-modified" (res_headers res) in
  {| res_createdAt := Some createdAt_;
     statusCode := Some (status res);
     stored_headers :=
       Some {| etag := if truthy etag_ then etag_ else None;
               lastModified := if truthy lastModified_ then lastModified_ else None |};
     s3ObjectKey := None; redisCacheKey := None;
     textHash := None; isCloudflare := None |}.

Definition fetchOptionsFor (options : option Options) : FetchOptions :=
  {| userAgent := feedUserAgent env;
     headers := match options with Some o => opt_headers o | None => None end |}.

(** [new Request()] with its [url] and [fetchOptions] assigned. *)
Definition newRequest (url_ : string) (options : option Options) (createdAt_ : Z)
  : Request :=
  {| url := url_; createdAt := createdAt_; req_status := None;
     errorMessage := None;
     fetchOptions :=
       {| userAgent := userAgent (fetchOptionsFor options);
          headers := trimHeadersForStorage (headers (fetchOptionsFor options)) |};
     response := None |}.

(** The body of the outer [try]. *)
Definition tryBlock (url_ : string) (options : option Options) : Async Run Result :=
  res <- await (fetchFeedResponse url_ (fetchOptionsFor options)) ;;
  _ <- modify (onRequest (setStatus (statusOf res))) ;;
  r0 <- get ;;
  _ <- modify (onResponse (fun _ => responseOf res (createdAt (request r0)))) ;;
  _ <- modify (setText None) ;;
  _ <- decodeAndSave url_ options res ;;
  _ <- modify (onResponse (setIsCloudflare (hasCloudflareServer res))) ;;
  _ <- persistResponse ;;
  r1 <- get ;;
  _ <- modify (onRequest (setResponse (cur_response r1))) ;;
  _ <- persistRequest ;;
  r2 <- get ;;
  ret {| result_request := request r2; responseText := Some (cur_text r2) |}.

(** The outer [catch]. *)
Definition catchBlock (url_ : string) (err : JsError) : Async Run Result :=
  _ <- logger (LogDebug ("Failed to fetch url " ++ url_)) ;;
  _ <- (if isRequestTimeout err
        then
          _ <- modify (onRequest (setStatus FETCH_TIMEOUT)) ;;
          modify (onRequest (setErrorMessage (message err)))
        else
          _ <- modify (onRequest (setStatus FETCH_ERROR)) ;;
          modify (onRequest (setErrorMessage (message err)))) ;;
  _ <- persistRequest ;;
  r <- get ;;
  ret {| result_request := request r; responseText := None |}.

(** The [finally]. *)
Definition finallyBlock (options : option Options) : Async Run unit :=
  if wantsFlush options then flush else ret tt.

Definition startRun (url_ : string) (options : option Options) (w : World) : Run :=
  {| world := w; request := newRequest url_ options (now w);
     cur_response := newResponse; cur_text := None |}.

Definition fetchAndSaveResponse (url_ : string) (options : option Options)
  : Async World Result :=
  fun w =>
    match tryFinally (tryCatch (tryBlock url_ options) (catchBlock url_))
                     (finallyBlock options)
                     (startRun url_ options w) with
    | (o, r) => (o, world r)
    end.

End Service.

End FeedFetcherService.

(* ================================================================= *)
(** ** DiscordMediumService *)

Module DiscordMediumService.

Definition Obj : Type := list (string * string).

Record Article : Type := {
  flattened_id : string;           (* article.flattened.id *)
  flattened : Obj;                 (* article.flattened *)
  raw_date : option Z              (* article.raw.date *)
}.

Record EmbedAuthor : Type := { author_name : option string; author_iconUrl : option string }.
Record EmbedFooter : Type := { footer_text : option string; footer_iconUrl : option string }.
Record EmbedImage : Type := { image_url : option string }.
Record EmbedField : Type := {
  field_name : option string;
  field_value : option string;
  field_inline : option bool
}.

(** An element of [deliverySettings.embeds]. *)
Record Embed : Type := {
  title : option string;
  description : option string;
  author : option EmbedAuthor;
  color : option Z;
  footer : option EmbedFooter;
  image : option EmbedImage;
  thumbnail : option EmbedImage;
  embed_url : option string;
  fields : option (list EmbedField);
  timestamp : option string
}.

Record SplitOptions : Type := {
  isEnabled : option bool;
  split_rest : Obj
}.

Record Webhook : Type := {
  webhook_id : string;
  token : string;
  name : option string;
  iconUrl : option string
}.

Record Channel : Type := { channel_id : string }.

Record DeliverySettings : Type := {
  guildId : string;
  channel : option Channel;
  webhook : option Webhook;
  content : option string;
  embeds : option (list Embed);
  splitOptions : option SplitOptions
}.

Record DeliveryDetails : Type := {
  deliveryId : string;
  mediumId : string;
  deliverySettings : DeliverySettings;
  feed_id : string;                (* feedDetails.id *)
  feed_url : string                (* feedDetails.url *)
}.

(** An element of a payload's [embeds]; [None] is [undefined] or [null]. *)
Record ApiAuthor : Type := { api_name : option string; api_icon_url : option string }.
Record ApiFooter : Type := { api_text : option string; api_footer_icon_url : option string }.
Record ApiImage : Type := { api_url : option string }.
Record ApiField : Type := {
  api_field_name : option string;
  api_field_value : option string;
  api_inline : option bool
}.

Record ApiEmbed : Type := {
  p_title : option string;
  p_description : option string;
  p_author : option ApiAuthor;
  p_color : option Z;
  p_footer : option ApiFooter;
  p_image : option ApiImage;
  p_thumbnail : option ApiImage;
  p_url : option string;
  p_fields : option (list ApiField);
  p_timestamp : option string
}.

Record DiscordMessageApiPayload : Type := {
  p_content : string;
  p_embeds : option (list ApiEmbed)
}.

(** The third argument of [producer.enqueue]. *)
Record JobMeta : Type := {
  meta_id : string;
  articleID : string;
  feedURL : string;
  meta_channel : option string;
  meta_webhookId : option string;
  feedId : string;
  meta_guildId : string;
  emitDeliveryResult : bool
}.

Record Job : Type := {
  job_url : string;
  job_method : string;
  job_body : string;
  job_meta : JobMeta
}.

Inductive ArticleDeliveryStatus : Type := PendingDelivery | Failed.
Inductive ArticleDeliveryErrorCode : Type := NoChannelOrWebhook | Internal.

Record ArticleDeliveryState : Type := {
  state_id : string;
  state_mediumId : string;
  state_status : ArticleDeliveryStatus;
  errorCode : option ArticleDeliveryErrorCode;
  internalMessage : option string
}.

Record State : Type := {
  enqueueCalls : list Job;       (* calls of producer.enqueue, oldest first *)
  errorLogs : list string        (* logger.error *)
}.

Record Env : Type := {
  replaceTemplateString : Obj -> option string -> option string;
  applySplit : string -> SplitOptions -> list string;
  JSON_stringify : DiscordMessageApiPayload -> string;
  toISOString : Z -> string;
  dateNow : Z;                               (* new Date() *)
  enqueue : Job -> option JsError            (* whether the producer rejects *)
}.

Definition BASE_API_URL : string := "https://discord.com/api/v10".

Definition getChannelApiUrl (channelId : string) : string :=
  BASE_API_URL ++ "/channels/" ++ channelId ++ "/messages".

Definition getWebhookApiUrl (webhookId webhookToken : string) : string :=
  BASE_API_URL ++ "/webhooks/" ++ webhookId ++ "/" ++ webhookToken.

Section Service.

Variable env : Env.

Definition formatEmbed (article : Article) (embed : Embed) : ApiEmbed :=
  let replace := replaceTemplateString env (flattened article) in
  let timestamp_ :=
    match timestamp embed with
    | Some t =>
        if String.eqb t "now" then Some (toISOString env (dateNow env))
        else if String.eqb t "article"
             then option_map (toISOString env) (raw_date article)
             else None
    | None => None
    end in
  {| p_title := replace (title embed);
     p_description := replace (description embed);
     p_author :=
       match author embed with
       | Some a =>
           if truthy (author_name a)
           then Some {| api_name := replace (author_name a);
                        api_icon_url := orNull (replace (author_iconUrl a)) |}
           else None
       | None => None
       end;
     p_color := color embed;
     p_footer :=
       match footer embed with
       | Some f =>
           if truthy (footer_text f)
           then Some {| api_text := replace (footer_text f);
                        api_footer_icon_url := orNull (replace (footer_iconUrl f)) |}
           else None
       | None => None
       end;
     p_image :=
       match image embed with
       | Some i =>
           if truthy (image_url i)
           then Some {| api_url := orNull (replace (image_url i)) |}
           else None
       | None => None
       end;
     p_thumbnail :=
       match thumbnail embed with
       | Some i =>
           if truthy (image_url i)
           then Some {| api_url := orNull (replace (image_url i)) |}
           else None
       | None => None
       end;
     p_url := orNull (replace (embed_url embed));
     p_fields :=
       option_map
         (fun fs =>
            map (fun f => {| api_field_name := replace (field_name f);
                             api_field_value := replace (field_value f);
                             api_inline := field_inline f |})
                (filter (fun f => truthy (field_name f) && truthy (field_value f)) fs))
         (fields embed);
     p_timestamp := timestamp_ |}.

Definition generateApiPayloads (article : Article)
           (embeds_ : option (list Embed)) (content_ : option string)
           (splitOptions_ : option SplitOptions)
  : list DiscordMessageApiPayload :=
  let first :=
    match replaceTemplateString env (flattened article) content_ with
    | Some (String c r) => String c r
    | _ => EmptyString
    end in
  let payloadContent :=
    match splitOptions_ with
    | Some so =>
        applySplit env first {| isEnabled := Some true; split_rest := split_rest so |}
    | None => [first]
    end in
  map (fun contentPart =>
         {| p_content := contentPart;
            p_embeds := option_map (map (formatEmbed article)) embeds_ |})
      payloadContent.

Definition producerEnqueue (j : Job) : Async State unit :=
  _ <- modify (fun s => {| enqueueCalls := enqueueCalls s ++ [j];
                           errorLogs := errorLogs s |}) ;;
  match enqueue env j with
  | Some e => throw e
  | None => ret tt
  end.

Definition deliverArticleToChannel (article : Article) (channelId : string)
           (details : DeliveryDetails) : Async State ArticleDeliveryState :=
  let apiUrl := getChannelApiUrl channelId in
  let bodies :=
    generateApiPayloads article
      (embeds (deliverySettings details)) (content (deliverySettings details)) None in
  _ <- promiseAll
         (fun body =>
            producerEnqueue
              {| job_url := apiUrl;
                 job_method := "POST";
                 job_body := JSON_stringify env body;
                 job_meta :=
                   {| meta_id := deliveryId details;
                      articleID := flattened_id article;
                      feedURL := feed_url details;
                      meta_channel := Some channelId;
                      meta_webhookId := None;
                      feedId := feed_id details;
                      meta_guildId := guildId (deliverySettings details);
                      emitDeliveryResult := true |} |})
         bodies ;;
  ret {| state_id := deliveryId details;
         state_mediumId := mediumId details;
         state_status := PendingDelivery;
         errorCode := None;
         internalMessage := None |}.

Definition deliverArticleToWebhook (article : Article) (wh : Webhook)
           (details : DeliveryDetails) : Async State ArticleDeliveryState :=
  let webhookId := webhook_id wh in
  let apiUrl := getWebhookApiUrl webhookId (token wh) in
  let bodies :=
    generateApiPayloads article
      (embeds (deliverySettings details)) (content (deliverySettings details)) None in
  _ <- promiseAll
         (fun body =>
            producerEnqueue
              {| job_url := apiUrl;
                 job_method := "POST";
                 job_body := JSON_stringify env body;
                 job_meta :=
                   {| meta_id := deliveryId details;
                      articleID := flattened_id article;
                      feedURL := feed_url details;
                      meta_channel := None;
                      meta_webhookId := Some webhookId;
                      feedId := feed_id details;
                      meta_guildId := guildId (deliverySettings details);
                      emitDeliveryResult := true |} |})
         bodies ;;
  ret {| state_id := deliveryId details;
         state_mediumId := mediumId details;
         state_status := PendingDelivery;
         errorCode := None;
         internalMessage := None |}.

Definition deliverArticle (article : Article) (details : DeliveryDetails)
  : Async State ArticleDeliveryState :=
  let channel_ := channel (deliverySettings details) in
  let webhook_ := webhook (deliverySettings details) in
  match channel_, webhook_ with
  | None, None =>
      ret {| state_id := deliveryId details;
             state_mediumId := mediumId details;
             state_status := Failed;
             errorCode := Some NoChannelOrWebhook;
             internalMessage := Some "No channel or webhook specified" |}
  | _, _ =>
      tryCatch
        (match webhook_ with
         | Some wh =>
             deliverArticleToWebhook article
               {| webhook_id := webhook_id wh; token := token wh;
                  name := name wh; iconUrl := iconUrl wh |}
               details
         | None =>
             match channel_ with
             | Some ch => deliverArticleToChannel article (channel_id ch) details
             | None =>
                 throw (Error "No channel or webhook specified for Discord medium")
             end
         end)
        (fun err =>
           _ <- modify (fun s =>
                  {| enqueueCalls := enqueueCalls s;
                     errorLogs :=
                       errorLogs s ++
                       [("Failed to deliver article " ++ flattened_id article ++
                         " to Discord webook/channel.")%string] |}) ;;
           ret {| state_id := deliveryId details;
                  state_mediumId := mediumId details;
                  state_status := Failed;
                  errorCode := Some Internal;
                  internalMessage := Some (message err) |})
  end.

End Service.

End DiscordMediumService.

(* ================================================================= *)
(** * Properties *)

(** ** Running asynchronous code symbolically *)

Module AsyncLogic.

(** [wp c Q E s]: from [s], [c] resolves with a value and a state that
    satisfy [Q], or rejects with an error and a state that satisfy [E]. *)
Definition wp {S A} (c : Async S A) (Q : A -> S -> Prop) (E : JsError -> S -> Prop)
           (s : S) : Prop :=
  match c s with
  | (Resolved a, s') => Q a s'
  | (Rejected e, s') => E e s'
  end.

Section Rules.

Context {S : Type}.

Lemma wp_ret {A} (a : A) Q E (s : S) : Q a s -> wp (ret a) Q E s.
Proof. exact (fun H => H). Qed.

Lemma wp_throw {A} e (Q : A -> S -> Prop) E (s : S) : E e s -> wp (throw e) Q E s.
Proof. exact (fun H => H). Qed.

Lemma wp_get Q E (s : S) : Q s s -> wp get Q E s.
Proof. exact (fun H => H). Qed.

Lemma wp_modify f Q E (s : S) : Q tt (f s) -> wp (modify f) Q E s.
Proof. exact (fun H => H). Qed.

Lemma wp_bind {A B} (c : Async S A) (k : A -> Async S B) Q E s :
  wp c (fun a s' => wp (k a) Q E s') E s -> wp (bind c k) Q E s.
Proof. unfold wp, bind. destruct (c s) as [[a|e] s']; exact (fun H => H). Qed.

Lemma wp_tryCatch {A} (c : Async S A) h Q E s :
  wp c Q (fun e s' => wp (h e) Q E s') s -> wp (tryCatch c h) Q E s.
Proof. unfold wp, tryCatch. destruct (c s) as [[a|e] s']; exact (fun H => H). Qed.

Lemma wp_tryFinally {A} (c : Async S A) f Q E s :
  wp c (fun a s' => wp f (fun _ => Q a) E s')
       (fun e s' => wp f (fun _ => E e) E s') s ->
  wp (tryFinally c f) Q E s.
Proof.
  unfold wp, tryFinally.
  destruct (c s) as [[a|e] s']; destruct (f s') as [[[]|e'] s'']; exact (fun H => H).
Qed.

Lemma wp_mono {A} (c : Async S A) (Q Q' : A -> S -> Prop) (E E' : JsError -> S -> Prop) s :
  wp c Q E s ->
  (forall a s', Q a s' -> Q' a s') ->
  (forall e s', E e s' -> E' e s') ->
  wp c Q' E' s.
Proof. unfold wp. destruct (c s) as [[a|e] s']; auto. Qed.

(** A computation that cannot reject resolves. *)
Lemma wp_resolves {A} (c : Async S A) Q s :
  wp c Q (fun _ _ => False) s -> exists a s', c s = (Resolved a, s') /\ Q a s'.
Proof.
  unfold wp. destruct (c s) as [[a|e] s']; [|intros []].
  intros H. exists a, s'. auto.
Qed.

Lemma wp_run {A} (c : Async S A) Q E s :
  wp c Q E s ->
  (exists a s', c s = (Resolved a, s') /\ Q a s') \/
  (exists e s', c s = (Rejected e, s') /\ E e s').
Proof.
  unfold wp. destruct (c s) as [[a|e] s']; intros H; [left|right]; eauto.
Qed.

Lemma wp_of_run {A} (c : Async S A) (Q : A -> S -> Prop) (E : JsError -> S -> Prop) s :
  (forall a s', c s = (Resolved a, s') -> Q a s') ->
  (forall e s', c s = (Rejected e, s') -> E e s') ->
  wp c Q E s.
Proof. unfold wp. destruct (c s) as [[a|e] s']; auto. Qed.

Lemma wp_conj {A} (c : Async S A) (Q1 Q2 : A -> S -> Prop) (E1 E2 : JsError -> S -> Prop) s :
  wp c Q1 E1 s -> wp c Q2 E2 s ->
  wp c (fun a s' => Q1 a s' /\ Q2 a s') (fun e s' => E1 e s' /\ E2 e s') s.
Proof. unfold wp. destruct (c s) as [[a|e] s']; auto. Qed.

End Rules.

End AsyncLogic.


(** ** Batching of due URLs *)

Module ScheduleHandlerFacts.

Import ScheduleHandlerService.

(** The specification's batching: cut the sequence into consecutive runs of
    [cap] elements, the last one holding what is left. *)
Fixpoint batchesOf {A} (fuel cap : nat) (l : list A) : list (list A) :=
  match fuel, l with
  | S fuel', _ :: _ => firstn cap l :: batchesOf fuel' cap (skipn cap l)
  | _, _ => []
  end.

(** The URLs of a cursor: the documents the loop does not skip. *)
Fixpoint urlsOf (cursor : list (option string)) : list string :=
  match cursor with
  | [] => []
  | Some (String c u) :: cursor' => String c u :: urlsOf cursor'
  | _ :: cursor' => urlsOf cursor'
  end.

Definition entryOf (urlsToDebug : list (option string)) (u : string) : UrlEntry :=
  {| entry_url := u;
     saveToObjectStorage := existsb (option_string_eqb (Some u)) urlsToDebug |}.

Definition entriesOf (urlsToDebug cursor : list (option string)) : list UrlEntry :=
  map (entryOf urlsToDebug) (urlsOf cursor).

(** Every call of the handler in [t] comes right after the pull of the URL
    that completed its batch. *)
Definition dispatchedAtOnce (t : list Event) : Prop :=
  forall pre b post,
    t = pre ++ EvUrlsHandler b :: post ->
    exists pre' b0 e,
      pre = pre' ++ [EvCursorNext (Some (entry_url e))] /\ b = b0 ++ [e].

Definition databaseUp (env : Env) : Prop :=
  (forall q, updateManyError env q = None) /\
  findError env = None /\ aggregateError env = None.

Lemma dispatched_app t1 t2 : dispatched (t1 ++ t2) = dispatched t1 ++ dispatched t2.
Proof.
  induction t1 as [|e t1 IH]; simpl; [reflexivity|].
  destruct e; simpl; rewrite ?IH; reflexivity.
Qed.

Lemma dispatchedAtOnce_next id t :
  dispatchedAtOnce t -> dispatchedAtOnce (EvCursorNext id :: t).
Proof.
  intros H pre b post E.
  destruct pre as [|e pre]; simpl in E; [discriminate|].
  injection E as <- E.
  destruct (H _ _ _ E) as (pre' & b0 & e & -> & ->).
  exists (EvCursorNext id :: pre'), b0, e. split; reflexivity.
Qed.

Lemma dispatchedAtOnce_full b0 e t :
  dispatchedAtOnce t ->
  dispatchedAtOnce (EvCursorNext (Some (entry_url e)) :: EvUrlsHandler (b0 ++ [e]) :: t).
Proof.
  intros H pre b post E.
  destruct pre as [|e1 pre]; simpl in E; [discriminate|].
  injection E as <- E.
  destruct pre as [|e2 pre]; simpl in E.
  - injection E as <- _. exists [], b0, e. split; reflexivity.
  - injection E as <- E.
    destruct (H _ _ _ E) as (pre' & b1 & e' & -> & ->).
    exists (EvCursorNext (Some (entry_url e)) :: EvUrlsHandler (b0 ++ [e]) :: pre'), b1, e'.
    split; reflexivity.
Qed.

Definition logged (e : Event) (s : State) : State :=
  {| feeds := feeds s; trace := trace s ++ [e] |}.

Section Loop.

Variable env : Env.
Variable urlsHandler : list UrlEntry -> option JsError.
Variable urlsToDebug : list (option string).

Lemma forAwait_nil urlBatch s :
  forAwait urlsHandler urlsToDebug [] urlBatch s
  = (Resolved urlBatch, logged EvCursorEnd s).
Proof. reflexivity. Qed.

Lemma forAwait_skip _id cursor urlBatch s :
  truthy _id = false ->
  forAwait urlsHandler urlsToDebug (_id :: cursor) urlBatch s
  = forAwait urlsHandler urlsToDebug cursor urlBatch (logged (EvCursorNext _id) s).
Proof. destruct _id as [[|c u]|]; intros H; try discriminate; reflexivity. Qed.

Lemma forAwait_url c u cursor urlBatch s :
  forAwait urlsHandler urlsToDebug (Some (String c u) :: cursor) urlBatch s
  = let urlBatch' := urlBatch ++ [entryOf urlsToDebug (String c u)] in
    let s1 := logged (EvCursorNext (Some (String c u))) s in
    if Nat.eqb (List.length urlBatch') 25
    then match urlsHandler urlBatch' with
         | Some err => (Rejected err, logged (EvUrlsHandler urlBatch') s1)
         | None =>
             forAwait urlsHandler urlsToDebug cursor []
                      (logged (EvUrlsHandler urlBatch') s1)
         end
    else forAwait urlsHandler urlsToDebug cursor urlBatch' s1.
Proof.
  cbn [forAwait]. unfold bind at 1. unfold emit, modify.
  fold (logged (EvCursorNext (Some (String c u))) s).
  fold (entryOf urlsToDebug (String c u)).
  cbv zeta.
  destruct (Nat.eqb _ 25); [|reflexivity].
  unfold bind, callUrlsHandler, emit, modify.
  fold (logged (EvUrlsHandler (urlBatch ++ [entryOf urlsToDebug (String c u)]))
               (logged (EvCursorNext (Some (String c u))) s)).
  destruct (urlsHandler _); reflexivity.
Qed.

Hypothesis handler_resolves : forall batch, urlsHandler batch = None.

(** The [for await] loop: full batches go to the handler as soon as their
    25th URL is pulled; what is left is returned. *)
Lemma forAwait_spec cursor :
  forall urlBatch s,
    (List.length urlBatch < 25)%nat ->
    exists t rest,
      forAwait urlsHandler urlsToDebug cursor urlBatch s
      = (Resolved rest, {| feeds := feeds s; trace := trace s ++ t ++ [EvCursorEnd] |}) /\
      List.concat (dispatched t) ++ rest = urlBatch ++ entriesOf urlsToDebug cursor /\
      Forall (fun b => List.length b = 25%nat) (dispatched t) /\
      (List.length rest < 25)%nat /\
      dispatchedAtOnce t.
Proof.
  induction cursor as [|_id cursor IH]; intros urlBatch s Hlen.
  - exists [], urlBatch. rewrite forAwait_nil. repeat split; auto.
    + unfold entriesOf. simpl. rewrite app_nil_r. reflexivity.
    + intros pre b post E. destruct pre; discriminate.
  - destruct (truthy _id) eqn:Htr.
    + destruct _id as [[|c u]|]; try discriminate.
      rewrite forAwait_url. cbv zeta.
      set (e := entryOf urlsToDebug (String c u)).
      destruct (Nat.eqb (List.length (urlBatch ++ [e])) 25) eqn:Hfull.
      * rewrite handler_resolves.
        destruct (IH [] (logged (EvUrlsHandler (urlBatch ++ [e]))
                           (logged (EvCursorNext (Some (String c u))) s)))
          as (t & rest & E & Hc & Hf & Hr & Hi); [simpl; lia|].
        exists (EvCursorNext (Some (String c u)) :: EvUrlsHandler (urlBatch ++ [e]) :: t), rest.
        split; [|repeat split; auto].
        -- rewrite E. unfold logged. simpl. rewrite <- !app_assoc. reflexivity.
        -- simpl. rewrite <- app_assoc. rewrite Hc. simpl.
           unfold entriesOf. simpl. fold e. rewrite <- app_assoc. reflexivity.
        -- simpl. constructor; auto. apply Nat.eqb_eq. exact Hfull.
        -- change (String c u) with (entry_url e).
           apply dispatchedAtOnce_full. exact Hi.
      * apply Nat.eqb_neq in Hfull.
        destruct (IH (urlBatch ++ [e]) (logged (EvCursorNext (Some (String c u))) s))
          as (t & rest & E & Hc & Hf & Hr & Hi).
        { rewrite length_app in *. simpl in *. lia. }
        exists (EvCursorNext (Some (String c u)) :: t), rest.
        split; [|repeat split; auto using dispatchedAtOnce_next].
        -- rewrite E. unfold logged. simpl. rewrite <- app_assoc. reflexivity.
        -- simpl. rewrite Hc. unfold entriesOf. simpl. fold e.
           rewrite <- app_assoc. reflexivity.
    + rewrite (forAwait_skip _ _ _ _ Htr).
      destruct (IH urlBatch (logged (EvCursorNext _id) s) Hlen)
        as (t & rest & E & Hc & Hf & Hr & Hi).
      exists (EvCursorNext _id :: t), rest.
      split; [|repeat split; auto using dispatchedAtOnce_next].
      * rewrite E. unfold logged. simpl. rewrite <- app_assoc. reflexivity.
      * simpl. rewrite Hc. unfold entriesOf.
        destruct _id as [[|c u]|]; try discriminate; reflexivity.
Qed.

End Loop.

(** ** Bulk updates of the sync methods *)

(** The query of one group, and the closing query that resets the others. *)
Definition groupQuery (f : Field) (g : Z * list string) : UpdateQuery :=
  {| q_user := In_ (snd g); q_field := f; q_ne := fst g; q_set := fst g |}.

Definition defaultQuery (f : Field) (default : Z) (groups : list (Z * list string))
  : UpdateQuery :=
  {| q_user := Nin (List.concat (map snd groups)); q_field := f;
     q_ne := default; q_set := default |}.

Definition syncQueries (f : Field) (default : Z) (groups : list (Z * list string))
  : list UpdateQuery :=
  map (groupQuery f) groups ++ [defaultQuery f default groups].

(** Running queries one after the other on a collection: the collection
    reached and the events logged. *)
Fixpoint runQueries (qs : list UpdateQuery) (fs : list UserFeed)
  : list UserFeed * list Event :=
  match qs with
  | [] => (fs, [])
  | q :: qs' =>
      let (fs', evs) := runQueries qs' (applyUpdate q fs) in
      (fs', EvUpdateMany q (Some (matchedCount q fs)) :: evs)
  end.

Lemma runQueries_app qs1 qs2 fs :
  runQueries (qs1 ++ qs2) fs =
  let (fs1, ev1) := runQueries qs1 fs in
  let (fs2, ev2) := runQueries qs2 fs1 in
  (fs2, ev1 ++ ev2).
Proof.
  revert fs. induction qs1 as [|q qs1 IH]; intros fs; simpl.
  - destruct (runQueries qs2 fs); reflexivity.
  - rewrite IH. destruct (runQueries qs1 (applyUpdate q fs)) as [fs1 ev1].
    destruct (runQueries qs2 fs1); reflexivity.
Qed.

Lemma runQueries_updates qs : forall fs, forallb isUpdate (snd (runQueries qs fs)) = true.
Proof.
  induction qs as [|q qs IH]; intros fs; simpl; [reflexivity|].
  specialize (IH (applyUpdate q fs)).
  destruct (runQueries qs (applyUpdate q fs)); simpl in *. exact IH.
Qed.

Section Sync.

Variable env : Env.

Definition groupCallback (f : Field) (g : Z * list string) : Async State (list string) :=
  let (value, discordUserIds) := g in
  _ <- updateMany env {| q_user := In_ discordUserIds; q_field := f;
                         q_ne := value; q_set := value |} ;;
  ret discordUserIds.

Lemma syncField_unfold f key default benefits :
  syncField env f key default benefits =
  (pushed <- promiseAll (groupCallback f)
               (groupSupporters key (filter isSupporter benefits)) ;;
   _ <- updateMany env {| q_user := Nin (List.concat pushed); q_field := f;
                          q_ne := default; q_set := default |} ;;
   ret tt).
Proof. reflexivity. Qed.

Lemma updateMany_trace q s :
  exists t,
    trace (snd (updateMany env q s)) = trace s ++ t /\ forallb isUpdate t = true.
Proof.
  unfold updateMany. destruct (updateManyError env q); simpl; eexists; split; reflexivity.
Qed.

Lemma groupCallback_trace f g s :
  exists t,
    trace (snd (groupCallback f g s)) = trace s ++ t /\ forallb isUpdate t = true.
Proof.
  destruct g as [value ids]. unfold groupCallback, bind.
  destruct (updateMany_trace {| q_user := In_ ids; q_field := f; q_ne := value; q_set := value |} s)
    as (t & Ht & Hu).
  destruct (updateMany env _ s) as [[n|e] s']; simpl in *; exists t; auto.
Qed.

(** Whatever the database answers, a sync method only issues bulk updates. *)
Lemma promiseAll_trace f groups :
  forall s,
  exists t,
    trace (snd (promiseAll (groupCallback f) groups s)) = trace s ++ t /\
    forallb isUpdate t = true.
Proof.
  induction groups as [|g groups IH]; intros s.
  - exists []. simpl. rewrite app_nil_r. auto.
  - simpl. destruct (groupCallback_trace f g s) as (t1 & H1 & U1).
    destruct (groupCallback f g s) as [[b|e] s1]; simpl in H1;
      destruct (IH s1) as (t2 & H2 & U2);
      destruct (promiseAll (groupCallback f) groups s1) as [[bs|e'] s2];
      simpl in *; exists (t1 ++ t2);
      rewrite H2, H1, <- app_assoc, forallb_app, U1, U2; auto.
Qed.

Lemma syncField_trace f key default benefits s :
  exists t,
    trace (snd (syncField env f key default benefits s)) = trace s ++ t /\
    forallb isUpdate t = true.
Proof.
  rewrite syncField_unfold. unfold bind at 1.
  destruct (promiseAll_trace f (groupSupporters key (filter isSupporter benefits)) s)
    as (t1 & H1 & U1).
  destruct (promiseAll _ _ s) as [[pushed|e] s1]; simpl in H1.
  - unfold bind.
    match goal with |- context [updateMany env ?q s1] =>
      destruct (updateMany_trace q s1) as (t2 & H2 & U2);
      destruct (updateMany env q s1) as [[n|e] s2] end;
      simpl in *; exists (t1 ++ t2);
      rewrite H2, H1, <- app_assoc, forallb_app, U1, U2; auto.
  - exists t1. simpl. auto.
Qed.

Hypothesis updates_resolve : forall q, updateManyError env q = None.

Lemma promiseAll_resolves f groups :
  forall s,
    promiseAll (groupCallback f) groups s =
    (Resolved (map snd groups),
     {| feeds := fst (runQueries (map (groupQuery f) groups) (feeds s));
        trace := trace s ++ snd (runQueries (map (groupQuery f) groups) (feeds s)) |}).
Proof.
  induction groups as [|[value ids] groups IH]; intros s.
  - simpl. unfold ret. rewrite app_nil_r. destruct s; reflexivity.
  - cbn [promiseAll]. unfold groupCallback at 1. unfold bind, updateMany.
    change {| q_user := In_ ids; q_field := f; q_ne := value; q_set := value |}
      with (groupQuery f (value, ids)).
    rewrite updates_resolve. unfold ret. rewrite IH. cbn [feeds trace map runQueries].
    destruct (runQueries (map (groupQuery f) groups) _) as [fs' evs].
    cbn [fst snd]. rewrite <- app_assoc. reflexivity.
Qed.

(** With the database up, a sync method runs its queries in order. *)
Lemma syncField_resolves f key default benefits s :
  let groups := groupSupporters key (filter isSupporter benefits) in
  syncField env f key default benefits s =
  (Resolved tt,
   {| feeds := fst (runQueries (syncQueries f default groups) (feeds s));
      trace := trace s ++ snd (runQueries (syncQueries f default groups) (feeds s)) |}).
Proof.
  intros groups. rewrite syncField_unfold. fold groups.
  unfold bind at 1. rewrite promiseAll_resolves.
  unfold bind, updateMany. rewrite updates_resolve. unfold ret.
  unfold syncQueries. rewrite runQueries_app.
  destruct (runQueries (map (groupQuery f) groups) (feeds s)) as [fs1 ev1].
  cbn [feeds trace fst snd runQueries]. unfold defaultQuery.
  rewrite <- app_assoc. reflexivity.
Qed.

End Sync.

(** ** One cycle of [handleRefreshRate] *)

Lemma batchesOf_nil {A} fuel cap : @batchesOf A fuel cap [] = [].
Proof. destruct fuel; reflexivity. Qed.

Lemma batchesOf_fuel {A} cap f1 :
  forall f2 (l : list A),
    (List.length l <= f1)%nat -> (List.length l <= f2)%nat ->
    batchesOf f1 (S cap) l = batchesOf f2 (S cap) l.
Proof.
  induction f1 as [|f1 IH]; intros f2 l H1 H2.
  - destruct l; [|simpl in H1; lia]. rewrite !batchesOf_nil. reflexivity.
  - destruct l as [|x l]; [rewrite !batchesOf_nil; reflexivity|].
    destruct f2 as [|f2]; [simpl in H2; lia|].
    cbn [batchesOf]. f_equal. cbn [skipn].
    pose proof (length_skipn cap l). simpl in H1, H2.
    apply IH; lia.
Qed.

(** Full batches followed by a shorter rest are the specification's cut. *)
Lemma batches_chunk (full : list (list UrlEntry)) :
  forall rest es,
    List.concat full ++ rest = es ->
    Forall (fun b => List.length b = 25%nat) full ->
    (List.length rest < 25)%nat ->
    full ++ match rest with [] => [] | _ :: _ => [rest] end
    = batchesOf (List.length es) 25 es.
Proof.
  induction full as [|b full IH]; intros rest es Hc Hf Hr.
  - simpl in Hc. subst es. destruct rest as [|x r]; [reflexivity|].
    cbn [app List.length batchesOf].
    rewrite firstn_all2 by lia. rewrite skipn_all2 by lia.
    rewrite batchesOf_nil. reflexivity.
  - inversion Hf as [|? ? Hb Hf']; subst.
    simpl. rewrite <- app_assoc.
    destruct b as [|x b]; [discriminate|].
    cbn [app List.length batchesOf].
    change (x :: b ++ List.concat full ++ rest)
      with ((x :: b) ++ List.concat full ++ rest).
    rewrite firstn_app, firstn_all2 by lia.
    replace (25 - List.length (x :: b))%nat with 0%nat by lia.
    rewrite firstn_O, app_nil_r.
    rewrite skipn_app, skipn_all2 by lia.
    replace (25 - List.length (x :: b))%nat with 0%nat by lia.
    cbn [skipn app]. f_equal.
    rewrite (IH rest (List.concat full ++ rest) eq_refl Hf' Hr).
    apply batchesOf_fuel; rewrite ?length_app; lia.
Qed.

Definition isLoopEvent (e : Event) : bool :=
  match e with
  | EvCursorNext _ | EvCursorEnd | EvUrlsHandler _ => true
  | _ => false
  end.

Lemma callUrlsHandler_run urlsHandler batch s :
  callUrlsHandler urlsHandler batch s =
  (match urlsHandler batch with Some e => Rejected e | None => Resolved tt end,
   logged (EvUrlsHandler batch) s).
Proof.
  unfold callUrlsHandler, bind, emit, modify, throw, ret. simpl.
  destruct (urlsHandler batch); reflexivity.
Qed.

(** Whatever the handler answers, the loop only pulls documents and calls
    the handler; it leaves the collection alone. *)
Lemma forAwait_events urlsHandler urlsToDebug cursor :
  forall urlBatch s,
  exists t,
    snd (forAwait urlsHandler urlsToDebug cursor urlBatch s)
    = {| feeds := feeds s; trace := trace s ++ t |} /\
    forallb isLoopEvent t = true.
Proof.
  induction cursor as [|_id cursor IH]; intros urlBatch s.
  - rewrite forAwait_nil. exists [EvCursorEnd]. auto.
  - destruct (truthy _id) eqn:Htr.
    + destruct _id as [[|c u]|]; try discriminate.
      rewrite forAwait_url. cbv zeta.
      set (b := urlBatch ++ [entryOf urlsToDebug (String c u)]).
      set (nx := EvCursorNext (Some (String c u))).
      destruct (Nat.eqb _ 25).
      * destruct (urlsHandler b) eqn:Hh.
        -- exists [nx; EvUrlsHandler b]. unfold logged. simpl.
           rewrite <- app_assoc. split; reflexivity.
        -- destruct (IH [] (logged (EvUrlsHandler b) (logged nx s))) as (t & Ht & Hl).
           exists (nx :: EvUrlsHandler b :: t). rewrite Ht. unfold logged. simpl.
           rewrite <- !app_assoc. split; [reflexivity | exact Hl].
      * destruct (IH b (logged nx s)) as (t & Ht & Hl).
        exists (nx :: t). rewrite Ht. unfold logged. simpl.
        rewrite <- !app_assoc. split; [reflexivity | exact Hl].
    + rewrite forAwait_skip by exact Htr.
      destruct (IH urlBatch (logged (EvCursorNext _id) s)) as (t & Ht & Hl).
      exists (EvCursorNext _id :: t). rewrite Ht. unfold logged. simpl.
      rewrite <- !app_assoc. split; [reflexivity|].
      destruct _id as [[|c u]|]; try discriminate; exact Hl.
Qed.

(** [handleRefreshRate], step by step. *)
Lemma handleRefreshRate_unfold env urlsHandler rate s :
  handleRefreshRate env urlsHandler rate s =
  match getBenefitsOfAllDiscordUsers env with
  | Rejected e => (Rejected e, logged EvGetBenefits s)
  | Resolved allBenefits =>
      match syncRefreshRates env allBenefits (logged EvGetBenefits s) with
      | (Rejected e, s1) => (Rejected e, s1)
      | (Resolved _, s1) =>
          match syncMaxDailyArticles env allBenefits s1 with
          | (Rejected e, s2) => (Rejected e, s2)
          | (Resolved _, s2) =>
              match findError env with
              | Some e => (Rejected e, logged EvFindDebug s2)
              | None =>
                  let s3 := logged (EvAggregate rate) (logged EvFindDebug s2) in
                  match aggregateError env with
                  | Some e => (Rejected e, s3)
                  | None =>
                      match forAwait urlsHandler (map url (filter debug (feeds s2)))
                                     (getUrlsQueryMatchingRefreshRate env rate (feeds s2))
                                     [] s3 with
                      | (Rejected e, s4) => (Rejected e, s4)
                      | (Resolved urlBatch, s4) =>
                          if Nat.ltb 0 (List.length urlBatch)
                          then callUrlsHandler urlsHandler urlBatch s4
                          else (Resolved tt, s4)
                      end
                  end
              end
          end
      end
  end.
Proof.
  unfold handleRefreshRate, bind, emit, modify, findDebugFeeds, openCursor,
    bind, emit, modify, get, ret, throw.
  fold (logged EvGetBenefits s).
  destruct (getBenefitsOfAllDiscordUsers env) as [b|e]; [|reflexivity].
  destruct (syncRefreshRates env b (logged EvGetBenefits s)) as [[[]|e] s1]; [|reflexivity].
  destruct (syncMaxDailyArticles env b s1) as [[[]|e] s2]; [|reflexivity].
  fold (logged EvFindDebug s2).
  destruct (findError env); [reflexivity|].
  fold (logged (EvAggregate rate) (logged EvFindDebug s2)).
  destruct (aggregateError env); [reflexivity|].
  cbn [feeds logged].
  destruct (forAwait _ _ _ _ _) as [[urlBatch|e] s4]; [|reflexivity].
  destruct (Nat.ltb 0 (List.length urlBatch)); reflexivity.
Qed.

Definition noAggregate (t : list Event) : bool :=
  forallb (fun e => negb (isAggregate e)) t.

Definition noUpdate (t : list Event) : bool :=
  forallb (fun e => negb (isUpdate e)) t.

Lemma updates_noAggregate t : forallb isUpdate t = true -> noAggregate t = true.
Proof.
  induction t as [|e t IH]; simpl; [reflexivity|].
  intros H. apply andb_true_iff in H as [He Ht].
  destruct e; try discriminate. simpl. auto.
Qed.

Lemma updates_not_dispatched t : forallb isUpdate t = true -> dispatched t = [].
Proof.
  induction t as [|e t IH]; simpl; [reflexivity|].
  intros H. apply andb_true_iff in H as [He Ht].
  destruct e; try discriminate. auto.
Qed.

Lemma loop_noAggregate t : forallb isLoopEvent t = true -> noAggregate t = true.
Proof.
  induction t as [|e t IH]; simpl; [reflexivity|].
  intros H. apply andb_true_iff in H as [He Ht].
  destruct e; try discriminate; simpl; auto.
Qed.

Lemma loop_noUpdate t : forallb isLoopEvent t = true -> noUpdate t = true.
Proof.
  induction t as [|e t IH]; simpl; [reflexivity|].
  intros H. apply andb_true_iff in H as [He Ht].
  destruct e; try discriminate; simpl; auto.
Qed.

Lemma noAggregate_app t1 t2 :
  noAggregate (t1 ++ t2) = noAggregate t1 && noAggregate t2.
Proof. apply forallb_app. Qed.

Lemma noAggregate_split t pre r post :
  noAggregate t = true -> t <> pre ++ EvAggregate r :: post.
Proof.
  intros H E. subst t. rewrite noAggregate_app in H.
  apply andb_true_iff in H as [_ H]. discriminate.
Qed.

(** The position of the only aggregate of a trace. *)
Lemma aggregate_split_unique before :
  forall after rate pre r post,
    noAggregate before = true -> noAggregate after = true ->
    before ++ EvAggregate rate :: after = pre ++ EvAggregate r :: post ->
    pre = before /\ r = rate /\ post = after.
Proof.
  induction before as [|e before IH]; intros after rate pre r post Hb Ha E.
  - destruct pre as [|e' pre]; simpl in E.
    + injection E as <- <-. auto.
    + injection E as <- E. exfalso. exact (noAggregate_split _ _ _ _ Ha E).
  - simpl in Hb. apply andb_true_iff in Hb as [He Hb].
    destruct pre as [|e' pre]; simpl in E.
    + injection E as -> _. discriminate.
    + injection E as <- E.
      destruct (IH _ _ _ _ _ Hb Ha E) as (-> & -> & ->). auto.
Qed.

(** C1.  When the entitlement provider, the database and the handler answer,
    [handleRefreshRate] pulls the cursor of due URLs to its end and hands
    its URLs, in cursor order, to [urlsHandler] in batches of 25: each full
    batch right after its 25th URL is pulled ([inLoop]), and what is left
    ([rest]) once after the end of the stream, if and only if something is
    left.  The calls are the cut of the URLs into runs of 25; 30 URLs give
    two calls, with the first 25 and the last 5. *)
Theorem handleRefreshRate_batches env urlsHandler rate benefits s :
  getBenefitsOfAllDiscordUsers env = Resolved benefits ->
  databaseUp env ->
  (forall batch, urlsHandler batch = None) ->
  exists s2 inLoop rest,
    let entries :=
      entriesOf (map url (filter debug (feeds s2)))
                (getUrlsQueryMatchingRefreshRate env rate (feeds s2)) in
    let flush := match rest with [] => [] | _ :: _ => [EvUrlsHandler rest] end in
    let calls := dispatched (inLoop ++ [EvCursorEnd] ++ flush) in
    (_ <- syncRefreshRates env benefits ;; syncMaxDailyArticles env benefits)
      (logged EvGetBenefits s) = (Resolved tt, s2) /\
    handleRefreshRate env urlsHandler rate s =
      (Resolved tt,
       {| feeds := feeds s2;
          trace := trace s2 ++ [EvFindDebug; EvAggregate rate]
                            ++ inLoop ++ [EvCursorEnd] ++ flush |}) /\
    dispatched (trace s2) = dispatched (trace s) /\
    dispatchedAtOnce inLoop /\
    Forall (fun b => List.length b = 25%nat) (dispatched inLoop) /\
    (List.length rest < 25)%nat /\
    List.concat calls = entries /\
    calls = batchesOf (List.length entries) 25 entries /\
    (List.length entries = 30%nat ->
     calls = [firstn 25 entries; skipn 25 entries] /\
     map (@List.length UrlEntry) calls = [25; 5]%nat).
Proof.
  intros Hben (Hupd & Hfind & Hagg) Hhandler.
  pose proof (syncField_resolves env Hupd RefreshRateSeconds refreshRateSeconds
                (defaultRefreshRateSeconds env) benefits (logged EvGetBenefits s)) as H1.
  cbv zeta in H1. fold (syncRefreshRates env benefits) in H1.
  remember (runQueries _ (feeds (logged EvGetBenefits s))) as r1 eqn:Er1.
  set (s1 := {| feeds := fst r1; trace := trace (logged EvGetBenefits s) ++ snd r1 |}) in *.
  pose proof (syncField_resolves env Hupd MaxDailyArticles maxDailyArticles
                (maxDailyArticlesDefault env) benefits s1) as H2.
  cbv zeta in H2. fold (syncMaxDailyArticles env benefits) in H2.
  remember (runQueries _ (feeds s1)) as r2 eqn:Er2.
  set (s2 := {| feeds := fst r2; trace := trace s1 ++ snd r2 |}) in *.
  destruct (forAwait_spec urlsHandler (map url (filter debug (feeds s2))) Hhandler
              (getUrlsQueryMatchingRefreshRate env rate (feeds s2)) []
              (logged (EvAggregate rate) (logged EvFindDebug s2)))
    as (inLoop & rest & Eloop & Hc & Hf & Hr & Hi); [simpl; lia|].
  exists s2, inLoop, rest. cbv zeta.
  assert (Hcalls :
    dispatched (inLoop ++ [EvCursorEnd] ++
                match rest with [] => [] | _ :: _ => [EvUrlsHandler rest] end)
    = dispatched inLoop ++ match rest with [] => [] | _ :: _ => [rest] end).
  { rewrite dispatched_app. destruct rest; reflexivity. }
  assert (Hcut :
    dispatched inLoop ++ match rest with [] => [] | _ :: _ => [rest] end
    = batchesOf
        (List.length (entriesOf (map url (filter debug (feeds s2)))
                                (getUrlsQueryMatchingRefreshRate env rate (feeds s2))))
        25
        (entriesOf (map url (filter debug (feeds s2)))
                   (getUrlsQueryMatchingRefreshRate env rate (feeds s2)))).
  { apply batches_chunk; auto. }
  split; [|split; [|split; [|split; [|split; [|split; [|split; [|split]]]]]]].
  - unfold bind. rewrite H1, H2. reflexivity.
  - rewrite handleRefreshRate_unfold, Hben, H1, H2, Hfind. cbv zeta.
    rewrite Hagg, Eloop.
    destruct rest as [|x rest].
    + simpl. unfold logged. simpl. rewrite <- !app_assoc. reflexivity.
    + cbn [List.length Nat.ltb Nat.leb]. rewrite callUrlsHandler_run, Hhandler.
      unfold logged. simpl. rewrite <- !app_assoc. reflexivity.
  - unfold s2, s1. cbn [trace logged]. rewrite !dispatched_app.
    rewrite (updates_not_dispatched (snd r1)), (updates_not_dispatched (snd r2)).
    + simpl. rewrite !app_nil_r. reflexivity.
    + subst r2. apply runQueries_updates.
    + subst r1. apply runQueries_updates.
  - exact Hi.
  - exact Hf.
  - exact Hr.
  - rewrite Hcalls, concat_app. cbn [app] in Hc. rewrite <- Hc.
    destruct rest; simpl; rewrite ?app_nil_r; reflexivity.
  - rewrite Hcalls. exact Hcut.
  - intros H30. rewrite Hcalls, Hcut.
    remember (entriesOf _ _) as es eqn:Ees. clear - H30.
    do 31 (destruct es as [|? es]; try discriminate). split; reflexivity.
Qed.

(** The trace of one cycle: either the query is not issued, because an
    earlier step rejected, or the cycle went through both syncs and the
    debug lookup first. *)
Lemma handleRefreshRate_shape env urlsHandler rate s :
  exists t,
    trace (snd (handleRefreshRate env urlsHandler rate s)) = trace s ++ t /\
    ((noAggregate t = true /\
      forall benefits s1 s2,
        getBenefitsOfAllDiscordUsers env = Resolved benefits ->
        syncRefreshRates env benefits (logged EvGetBenefits s) = (Resolved tt, s1) ->
        syncMaxDailyArticles env benefits s1 = (Resolved tt, s2) ->
        findError env = None -> False)
     \/
     (exists benefits s1 s2 before loop,
        getBenefitsOfAllDiscordUsers env = Resolved benefits /\
        syncRefreshRates env benefits (logged EvGetBenefits s) = (Resolved tt, s1) /\
        syncMaxDailyArticles env benefits s1 = (Resolved tt, s2) /\
        t = before ++ EvAggregate rate :: loop /\
        trace s ++ before = trace s2 ++ [EvFindDebug] /\
        noAggregate before = true /\
        forallb isLoopEvent loop = true /\
        feeds (snd (handleRefreshRate env urlsHandler rate s)) = feeds s2)).
Proof.
  rewrite handleRefreshRate_unfold.
  destruct (getBenefitsOfAllDiscordUsers env) as [b|e] eqn:Hben.
  2:{ exists [EvGetBenefits]. split; [reflexivity|]. left. split; [reflexivity|].
      intros ? ? ? [=]. }
  destruct (syncField_trace env RefreshRateSeconds refreshRateSeconds
              (defaultRefreshRateSeconds env) b (logged EvGetBenefits s)) as (t1 & T1 & U1).
  fold (syncRefreshRates env b) in T1.
  destruct (syncRefreshRates env b (logged EvGetBenefits s)) as [[[]|e] s1] eqn:Hs1.
  2:{ exists (EvGetBenefits :: t1). simpl in *. rewrite T1, <- app_assoc.
      split; [reflexivity|]. left. split.
      - apply updates_noAggregate. exact U1.
      - intros ? ? ? [= <-] H. rewrite Hs1 in H. discriminate. }
  destruct (syncField_trace env MaxDailyArticles maxDailyArticles
              (maxDailyArticlesDefault env) b s1) as (t2 & T2 & U2).
  fold (syncMaxDailyArticles env b) in T2.
  destruct (syncMaxDailyArticles env b s1) as [[[]|e] s2] eqn:Hs2.
  2:{ exists (EvGetBenefits :: t1 ++ t2). simpl in *. rewrite T2, T1, <- !app_assoc.
      split; [reflexivity|]. left. split.
      - rewrite noAggregate_app, !updates_noAggregate; auto.
      - intros ? ? ? [= <-] H. rewrite Hs1 in H. injection H as <-.
        intros H. rewrite Hs2 in H. discriminate. }
  simpl in T1, T2.
  assert (Hs2t : trace s2 = trace s ++ EvGetBenefits :: t1 ++ t2).
  { rewrite T2, T1, <- !app_assoc. reflexivity. }
  assert (Hpre : noAggregate (EvGetBenefits :: t1 ++ t2) = true).
  { simpl. rewrite noAggregate_app, !updates_noAggregate; auto. }
  destruct (findError env) as [e|] eqn:Hfind.
  { exists ((EvGetBenefits :: t1 ++ t2) ++ [EvFindDebug]). simpl snd.
    unfold logged at 1. cbn [trace]. rewrite Hs2t, <- !app_assoc.
    split; [reflexivity|]. left. split.
    - replace (EvGetBenefits :: t1 ++ t2 ++ [EvFindDebug])
        with ((EvGetBenefits :: t1 ++ t2) ++ [EvFindDebug])
        by (simpl; rewrite <- app_assoc; reflexivity).
      rewrite noAggregate_app, Hpre. reflexivity.
    - intros ? ? ? _ _ _ [=]. }
  cbv zeta.
  set (s3 := logged (EvAggregate rate) (logged EvFindDebug s2)).
  assert (Hdone :
    forall s4 loop,
      s4 = {| feeds := feeds s2; trace := trace s3 ++ loop |} ->
      forallb isLoopEvent loop = true ->
      exists t,
        trace s4 = trace s ++ t /\
        exists before loop',
          t = before ++ EvAggregate rate :: loop' /\
          trace s ++ before = trace s2 ++ [EvFindDebug] /\
          noAggregate before = true /\
          forallb isLoopEvent loop' = true /\
          feeds s4 = feeds s2).
  { intros s4 loop -> Hloop.
    exists (((EvGetBenefits :: t1 ++ t2) ++ [EvFindDebug]) ++ EvAggregate rate :: loop).
    split.
    - unfold s3, logged. cbn [trace]. rewrite Hs2t, <- !app_assoc. reflexivity.
    - exists ((EvGetBenefits :: t1 ++ t2) ++ [EvFindDebug]), loop.
      repeat split; auto.
      + rewrite Hs2t, <- !app_assoc. reflexivity.
      + rewrite noAggregate_app, Hpre. reflexivity. }
  assert (Hwrap :
    forall res : Outcome unit * State,
      (exists t,
        trace (snd res) = trace s ++ t /\
        exists before loop',
          t = before ++ EvAggregate rate :: loop' /\
          trace s ++ before = trace s2 ++ [EvFindDebug] /\
          noAggregate before = true /\
          forallb isLoopEvent loop' = true /\
          feeds (snd res) = feeds s2) ->
      exists t,
        trace (snd res) = trace s ++ t /\
        ((noAggregate t = true /\
          forall benefits s1' s2',
            Resolved b = Resolved benefits ->
            syncRefreshRates env benefits (logged EvGetBenefits s) = (Resolved tt, s1') ->
            syncMaxDailyArticles env benefits s1' = (Resolved tt, s2') ->
            @None JsError = None -> False)
         \/
         (exists benefits s1' s2' before loop',
            Resolved b = Resolved benefits /\
            syncRefreshRates env benefits (logged EvGetBenefits s) = (Resolved tt, s1') /\
            syncMaxDailyArticles env benefits s1' = (Resolved tt, s2') /\
            t = before ++ EvAggregate rate :: loop' /\
            trace s ++ before = trace s2' ++ [EvFindDebug] /\
            noAggregate before = true /\
            forallb isLoopEvent loop' = true /\
            feeds (snd res) = feeds s2'))).
  { intros res (t & Ht & before & loop' & H1 & H2 & H3 & H4 & H5).
    exists t. split; [exact Ht|]. right.
    exists b, s1, s2, before, loop'. repeat split; auto. }
  destruct (aggregateError env) as [e|].
  { apply Hwrap. apply (Hdone s3 []); [|reflexivity].
    unfold s3, logged. cbn [feeds trace]. rewrite app_nil_r. reflexivity. }
  destruct (forAwait_events urlsHandler (map url (filter debug (feeds s2)))
              (getUrlsQueryMatchingRefreshRate env rate (feeds s2)) [] s3)
    as (loop & Hl & Hev).
  destruct (forAwait _ _ _ _ s3) as [[urlBatch|e] s4]; simpl in Hl.
  2:{ apply Hwrap. apply (Hdone s4 loop); auto. }
  destruct (Nat.ltb 0 (List.length urlBatch)).
  - rewrite callUrlsHandler_run. apply Hwrap.
    apply (Hdone _ (loop ++ [EvUrlsHandler urlBatch])).
    + rewrite Hl. unfold logged. cbn [feeds trace snd]. rewrite <- app_assoc. reflexivity.
    + rewrite forallb_app, Hev. reflexivity.
  - apply Hwrap. apply (Hdone s4 loop); auto.
Qed.

(** C8.  In every execution of [handleRefreshRate], whatever the
    collaborators answer: if the due-URL query is issued at all, the
    entitlement snapshot was obtained and [syncRefreshRates] and then
    [syncMaxDailyArticles] resolved on it before, the query is the next
    call after the debug lookup that follows them, it is issued once, for
    the tier of the call, on the collection as the two passes left it, and
    no bulk update follows it.  And the query is issued whenever the
    snapshot, both passes and the debug lookup succeed. *)
Theorem sync_completes_before_query env urlsHandler rate s :
  exists t,
    trace (snd (handleRefreshRate env urlsHandler rate s)) = trace s ++ t /\
    (forall pre r post,
        t = pre ++ EvAggregate r :: post ->
        exists benefits s1 s2,
          getBenefitsOfAllDiscordUsers env = Resolved benefits /\
          syncRefreshRates env benefits (logged EvGetBenefits s) = (Resolved tt, s1) /\
          syncMaxDailyArticles env benefits s1 = (Resolved tt, s2) /\
          trace s ++ pre = trace s2 ++ [EvFindDebug] /\
          r = rate /\
          noUpdate post = true /\ noAggregate post = true /\
          feeds (snd (handleRefreshRate env urlsHandler rate s)) = feeds s2) /\
    (forall benefits s1 s2,
        getBenefitsOfAllDiscordUsers env = Resolved benefits ->
        syncRefreshRates env benefits (logged EvGetBenefits s) = (Resolved tt, s1) ->
        syncMaxDailyArticles env benefits s1 = (Resolved tt, s2) ->
        findError env = None ->
        In (EvAggregate rate) t).
Proof.
  destruct (handleRefreshRate_shape env urlsHandler rate s) as (t & Ht & Hshape).
  exists t. split; [exact Ht|].
  destruct Hshape as [[Hno Hfail] | (b & s1 & s2 & before & loop & Hb & H1 & H2 & -> & Hpre & Hna & Hloop & Hfeeds)].
  - split.
    + intros pre r post E. exfalso. exact (noAggregate_split _ _ _ _ Hno E).
    + intros b s1 s2 Hb H1 H2 Hf. exfalso. exact (Hfail b s1 s2 Hb H1 H2 Hf).
  - split.
    + intros pre r post E.
      apply aggregate_split_unique in E as (-> & -> & ->);
        auto using loop_noAggregate.
      exists b, s1, s2. repeat split; auto using loop_noUpdate, loop_noAggregate.
    + intros. apply in_or_app. right. left. reflexivity.
Qed.

(** ** Convergence of the sync methods *)

Lemma hasId_In ids id : hasId ids id = true <-> In id ids.
Proof.
  unfold hasId. rewrite existsb_exists. split.
  - intros (x & Hx & E). apply String.eqb_eq in E. subst. exact Hx.
  - intros H. exists id. split; [exact H | apply String.eqb_refl].
Qed.

(** [id] is listed in the group of value [k]. *)
Definition inGroup (groups : list (Z * list string)) (k : Z) (id : string) : Prop :=
  exists ids, In (k, ids) groups /\ In id ids.

Lemma mapGet_Some_In k m v : mapGet k m = Some v -> In (k, v) m.
Proof.
  induction m as [|[k' v'] m IH]; simpl; [discriminate|].
  destruct (Z.eqb_spec k k') as [->|_].
  - intros [= ->]. left. reflexivity.
  - intros H. right. auto.
Qed.

Lemma mapPush_inGroup k id m :
  forall v, mapGet k m = Some v ->
  forall k' id',
    inGroup (mapPush k id m) k' id' <-> inGroup m k' id' \/ (k' = k /\ id' = id).
Proof.
  induction m as [|[k0 v0] m IH]; simpl; [discriminate|].
  intros v Hget k' id'.
  destruct (Z.eqb_spec k k0) as [->|Hne].
  - split.
    + intros (ids & [E|Hin] & Hid).
      * injection E as <- <-. apply in_app_or in Hid as [Hid|[<-|[]]].
        -- left. exists v0. split; [left; reflexivity | exact Hid].
        -- right. auto.
      * left. exists ids. split; [right; exact Hin | exact Hid].
    + intros [(ids & [E|Hin] & Hid) | [-> ->]].
      * injection E as <- <-. exists (v0 ++ [id]). split; [left; reflexivity|].
        apply in_or_app. left. exact Hid.
      * exists ids. split; [right; exact Hin | exact Hid].
      * exists (v0 ++ [id]). split; [left; reflexivity|].
        apply in_or_app. right. left. reflexivity.
  - specialize (IH v Hget k' id'). split.
    + intros (ids & [E|Hin] & Hid).
      * left. exists ids. split; [left; exact E | exact Hid].
      * destruct (proj1 IH (ex_intro _ ids (conj Hin Hid))) as [(ids' & H1 & H2)|H].
        -- left. exists ids'. split; [right; exact H1 | exact H2].
        -- right. exact H.
    + intros [(ids & [E|Hin] & Hid) | H].
      * exists ids. split; [left; exact E | exact Hid].
      * destruct (proj2 IH (or_introl (ex_intro _ ids (conj Hin Hid)))) as (ids' & H1 & H2).
        exists ids'. split; [right; exact H1 | exact H2].
      * destruct (proj2 IH (or_intror H)) as (ids' & H1 & H2).
        exists ids'. split; [right; exact H1 | exact H2].
Qed.

Section Groups.

Variable key : Benefits -> Z.

Definition groupStep (m : list (Z * list string)) (s : Benefits) : list (Z * list string) :=
  match mapGet (key s) m with
  | None => m ++ [(key s, [discordUserId s])]
  | Some _ => mapPush (key s) (discordUserId s) m
  end.

Lemma groupStep_inGroup m s k id :
  inGroup (groupStep m s) k id <->
  inGroup m k id \/ (k = key s /\ id = discordUserId s).
Proof.
  unfold groupStep. destruct (mapGet (key s) m) as [v|] eqn:Hget.
  - apply (mapPush_inGroup _ _ _ v Hget).
  - split.
    + intros (ids & Hin & Hid). apply in_app_or in Hin as [Hin|[E|[]]].
      * left. exists ids. auto.
      * injection E as <- <-. destruct Hid as [<-|[]]. right. auto.
    + intros [(ids & Hin & Hid) | [-> ->]].
      * exists ids. split; [apply in_or_app; left; exact Hin | exact Hid].
      * exists [discordUserId s]. split; [apply in_or_app; right; left; reflexivity|].
        left. reflexivity.
Qed.

Lemma fold_groupStep_inGroup l :
  forall m k id,
    inGroup (fold_left groupStep l m) k id <->
    inGroup m k id \/ exists s, In s l /\ key s = k /\ discordUserId s = id.
Proof.
  induction l as [|s l IH]; intros m k id; simpl.
  - split; [auto | intros [H|(s & [] & _)]; exact H].
  - rewrite IH, groupStep_inGroup. split.
    + intros [[H|[-> ->]]|(s' & Hin & Hk & Hid)].
      * left. exact H.
      * right. exists s. auto.
      * right. exists s'. auto.
    + intros [H|(s' & [<-|Hin] & Hk & Hid)].
      * left. left. exact H.
      * left. right. auto.
      * right. exists s'. auto.
Qed.

(** A group lists exactly the supporters entitled to its value. *)
Lemma groupSupporters_inGroup supporters k id :
  inGroup (groupSupporters key supporters) k id <->
  exists s, In s supporters /\ key s = k /\ discordUserId s = id.
Proof.
  unfold groupSupporters.
  change (fun (m : list (Z * list string)) (s : Benefits) =>
            match mapGet (key s) m with
            | None => m ++ [(key s, [discordUserId s])]
            | Some _ => mapPush (key s) (discordUserId s) m
            end) with groupStep.
  rewrite fold_groupStep_inGroup. split.
  - intros [(ids & [] & _)|H]. exact H.
  - intros H. right. exact H.
Qed.

End Groups.

(** What one query does to one document. *)
Definition stepDoc (q : UpdateQuery) (d : UserFeed) : UserFeed :=
  if queryMatches q d then setField (q_field q) (q_set q) d else d.

Definition settle (f : Field) (v : Z) (d : UserFeed) : UserFeed :=
  if fieldNe f v d then setField f v d else d.

Definition otherField (f : Field) : Field :=
  match f with
  | RefreshRateSeconds => MaxDailyArticles
  | MaxDailyArticles => RefreshRateSeconds
  end.

(** Everything of a document but its field [f]. *)
Definition frame (f : Field) (d : UserFeed)
  : option string * string * bool * option Z :=
  (url d, user_discordUserId d, debug d, getField (otherField f) d).

Lemma settle_field f v d : getField f (settle f v d) = Some v.
Proof.
  unfold settle, fieldNe.
  destruct (getField f d) as [x|] eqn:E.
  - destruct (Z.eqb_spec x v) as [->|_]; simpl; [exact E|].
    destruct f; reflexivity.
  - destruct f; reflexivity.
Qed.

Lemma settle_frame f v d : frame f (settle f v d) = frame f d.
Proof. unfold settle. destruct (fieldNe f v d); [|reflexivity]. destruct f; reflexivity. Qed.

Lemma settle_user f v d : user_discordUserId (settle f v d) = user_discordUserId d.
Proof. unfold settle. destruct (fieldNe f v d); [|reflexivity]. destruct f; reflexivity. Qed.

Lemma fieldNe_settled f v d : getField f d = Some v -> fieldNe f v d = false.
Proof. unfold fieldNe. intros ->. rewrite Z.eqb_refl. reflexivity. Qed.

Lemma stepDoc_group f k ids d :
  stepDoc (groupQuery f (k, ids)) d =
  if hasId ids (user_discordUserId d) then settle f k d else d.
Proof.
  unfold stepDoc, queryMatches, settle. simpl.
  destruct (hasId ids (user_discordUserId d)); reflexivity.
Qed.

Lemma stepDoc_default f default groups d :
  stepDoc (defaultQuery f default groups) d =
  if hasId (List.concat (map snd groups)) (user_discordUserId d)
  then d else settle f default d.
Proof.
  unfold stepDoc, queryMatches, settle. simpl.
  destruct (hasId _ (user_discordUserId d)); reflexivity.
Qed.

Definition stepsDoc (qs : list UpdateQuery) (d : UserFeed) : UserFeed :=
  fold_left (fun d q => stepDoc q d) qs d.

Lemma stepsDoc_cons q qs d : stepsDoc (q :: qs) d = stepsDoc qs (stepDoc q d).
Proof. reflexivity. Qed.

Lemma runQueries_feeds qs :
  forall fs, fst (runQueries qs fs) = map (stepsDoc qs) fs.
Proof.
  induction qs as [|q qs IH]; intros fs; simpl.
  - rewrite map_id. reflexivity.
  - specialize (IH (applyUpdate q fs)).
    destruct (runQueries qs (applyUpdate q fs)) as [fs' evs]. simpl in *.
    rewrite IH. unfold applyUpdate. rewrite map_map. reflexivity.
Qed.

(** No query of [qs] matches [d]. *)
Definition settled (qs : list UpdateQuery) (d : UserFeed) : bool :=
  forallb (fun q => negb (queryMatches q d)) qs.

(** On a collection of settled documents every query matches nothing and
    changes nothing. *)
Lemma runQueries_settled qs :
  forall fs,
    (forall d, In d fs -> settled qs d = true) ->
    runQueries qs fs = (fs, map (fun q => EvUpdateMany q (Some 0%nat)) qs).
Proof.
  induction qs as [|q qs IH]; intros fs H; [reflexivity|].
  assert (Hq : forall d, In d fs -> queryMatches q d = false).
  { intros d Hd. specialize (H d Hd). simpl in H.
    apply andb_true_iff in H as [H _]. apply negb_true_iff in H. exact H. }
  assert (Hsame : applyUpdate q fs = fs).
  { unfold applyUpdate. rewrite <- (map_id fs) at 2. apply map_ext_in.
    intros d Hd. rewrite (Hq d Hd). reflexivity. }
  assert (Hcount : matchedCount q fs = 0%nat).
  { unfold matchedCount. clear - Hq. induction fs as [|d fs IHfs]; [reflexivity|].
    simpl. rewrite (Hq d (or_introl eq_refl)). apply IHfs.
    intros d' Hd'. apply Hq. right. exact Hd'. }
  simpl. rewrite Hsame, Hcount, IH; [reflexivity|].
  intros d Hd. specialize (H d Hd). simpl in H.
  apply andb_true_iff in H as [_ H]. exact H.
Qed.

Section Converge.

Variable f : Field.
Variable default : Z.
Variable groups : list (Z * list string).

(** No subscriber is listed under two values. *)
Hypothesis one_value :
  forall k1 k2 id, inGroup groups k1 id -> inGroup groups k2 id -> k1 = k2.

Lemma hasId_concat id :
  hasId (List.concat (map snd groups)) id = true <-> exists k, inGroup groups k id.
Proof.
  rewrite hasId_In, in_concat. split.
  - intros (ids & Hin & Hid). apply in_map_iff in Hin as ([k ids'] & E & Hin).
    simpl in E. subst ids'. exists k, ids. auto.
  - intros (k & ids & Hin & Hid). exists ids. split; [|exact Hid].
    apply in_map_iff. exists (k, ids). auto.
Qed.

(** The group passes on one document: a listed subscriber's document gets
    the value of its group, another's stays as it is. *)
Lemma group_steps gs :
  (forall g, In g gs -> In g groups) ->
  forall d,
    let d' := stepsDoc (map (groupQuery f) gs) d in
    user_discordUserId d' = user_discordUserId d /\
    frame f d' = frame f d /\
    ((exists k, inGroup gs k (user_discordUserId d) /\ getField f d' = Some k) \/
     ((forall k, ~ inGroup gs k (user_discordUserId d)) /\ d' = d)).
Proof.
  induction gs as [|[k ids] gs IH]; intros Hsub d.
  - simpl. repeat split. right. split; [|reflexivity].
    intros k (ids & [] & _).
  - cbv zeta. rewrite map_cons, stepsDoc_cons, stepDoc_group.
    assert (Hsub' : forall g, In g gs -> In g groups) by (intros; apply Hsub; right; auto).
    destruct (hasId ids (user_discordUserId d)) eqn:Hhas.
    + apply hasId_In in Hhas.
      destruct (IH Hsub' (settle f k d)) as (Hu & Hfr & Hcase).
      rewrite settle_user in Hu. rewrite settle_frame in Hfr.
      cbv zeta. repeat split; auto.
      left. exists k. split.
      * exists ids. split; [left; reflexivity | exact Hhas].
      * destruct Hcase as [(k' & (ids' & Hin' & Hid') & Hget) | [_ ->]].
        -- rewrite settle_user in Hid'.
           assert (E : k' = k).
           { apply (one_value k' k (user_discordUserId d)).
             - exists ids'. split; [apply Hsub'; exact Hin' | exact Hid'].
             - exists ids. split; [apply Hsub; left; reflexivity | exact Hhas]. }
           subst k'. exact Hget.
        -- apply settle_field.
    + destruct (IH Hsub' d) as (Hu & Hfr & Hcase).
      cbv zeta. repeat split; auto.
      destruct Hcase as [(k' & (ids' & Hin' & Hid') & Hget) | [Hno ->]].
      * left. exists k'. split; [|exact Hget].
        exists ids'. split; [right; exact Hin' | exact Hid'].
      * right. split; [|reflexivity].
        intros k' (ids' & [E|Hin'] & Hid').
        -- injection E as <- <-. apply hasId_In in Hid'. congruence.
        -- apply (Hno k'). exists ids'. auto.
Qed.

(** One run of the queries of a sync on one document. *)
Lemma sync_steps d :
  let d' := stepsDoc (syncQueries f default groups) d in
  user_discordUserId d' = user_discordUserId d /\
  frame f d' = frame f d /\
  ((exists k, inGroup groups k (user_discordUserId d) /\ getField f d' = Some k) \/
   ((forall k, ~ inGroup groups k (user_discordUserId d)) /\
    getField f d' = Some default)).
Proof.
  unfold syncQueries, stepsDoc. rewrite fold_left_app. cbn [fold_left].
  fold (stepsDoc (map (groupQuery f) groups) d).
  destruct (group_steps groups (fun g H => H) d) as (Hu & Hfr & Hcase).
  cbv zeta in Hu, Hfr, Hcase.
  set (d1 := stepsDoc (map (groupQuery f) groups) d) in *.
  rewrite stepDoc_default, Hu.
  destruct (hasId _ (user_discordUserId d)) eqn:Hhas.
  - apply hasId_concat in Hhas as (k0 & Hk0).
    cbv zeta. repeat split; auto.
    destruct Hcase as [H | [Hno _]]; [left; exact H|].
    exfalso. exact (Hno k0 Hk0).
  - cbv zeta. rewrite settle_user, settle_frame. repeat split; auto.
    right. split; [|apply settle_field].
    intros k Hk.
    assert (hasId (List.concat (map snd groups)) (user_discordUserId d) = true)
      by (apply hasId_concat; exists k; exact Hk).
    congruence.
Qed.

(** After one run no query of the sync matches the document any more. *)
Lemma sync_settles d :
  settled (syncQueries f default groups) (stepsDoc (syncQueries f default groups) d) = true.
Proof.
  destruct (sync_steps d) as (Hu & _ & Hcase). cbv zeta in Hu, Hcase.
  set (d' := stepsDoc (syncQueries f default groups) d) in *.
  unfold settled, syncQueries. rewrite forallb_app. apply andb_true_iff. split.
  - apply forallb_forall. intros q Hq.
    apply in_map_iff in Hq as ([k ids] & <- & Hin).
    unfold queryMatches. simpl. rewrite Hu.
    destruct (hasId ids (user_discordUserId d)) eqn:Hhas; [|reflexivity].
    apply hasId_In in Hhas. simpl.
    destruct Hcase as [(k' & Hk' & Hget) | [Hno _]].
    + assert (E : k' = k).
      { apply (one_value k' k (user_discordUserId d)); [exact Hk'|].
        exists ids. auto. }
      subst k'. rewrite (fieldNe_settled _ _ _ Hget). reflexivity.
    + exfalso. apply (Hno k). exists ids. auto.
  - simpl. rewrite andb_true_r. unfold queryMatches. simpl. rewrite Hu.
    destruct (hasId _ (user_discordUserId d)) eqn:Hhas; [reflexivity|]. simpl.
    destruct Hcase as [(k' & Hk' & _) | [_ Hget]].
    + assert (hasId (List.concat (map snd groups)) (user_discordUserId d) = true)
        by (apply hasId_concat; exists k'; exact Hk').
      congruence.
    + rewrite (fieldNe_settled _ _ _ Hget). reflexivity.
Qed.

End Converge.

(** Two group updates of a sync commute when no subscriber is listed under
    two values: the order in which the database serves the concurrent
    updates of [Promise.all] does not matter then. *)
Lemma groups_commute f groups g1 g2 fs :
  (forall k1 k2 id, inGroup groups k1 id -> inGroup groups k2 id -> k1 = k2) ->
  In g1 groups -> In g2 groups ->
  applyUpdate (groupQuery f g1) (applyUpdate (groupQuery f g2) fs) =
  applyUpdate (groupQuery f g2) (applyUpdate (groupQuery f g1) fs).
Proof.
  intros Hone H1 H2. unfold applyUpdate. rewrite !map_map. apply map_ext.
  intros d. fold (stepDoc (groupQuery f g2) d). fold (stepDoc (groupQuery f g1) d).
  fold (stepDoc (groupQuery f g1) (stepDoc (groupQuery f g2) d)).
  fold (stepDoc (groupQuery f g2) (stepDoc (groupQuery f g1) d)).
  destruct g1 as [k1 ids1], g2 as [k2 ids2]. rewrite !stepDoc_group.
  destruct (hasId ids1 (user_discordUserId d)) eqn:E1;
    destruct (hasId ids2 (user_discordUserId d)) eqn:E2;
    rewrite ?settle_user, ?E1, ?E2; try reflexivity.
  assert (k1 = k2) as ->; [|reflexivity].
  apply (Hone k1 k2 (user_discordUserId d)).
  - exists ids1. split; [exact H1 | apply hasId_In; exact E1].
  - exists ids2. split; [exact H2 | apply hasId_In; exact E2].
Qed.

(** A sync of field [f]: what one run reaches, and that a second run on the
    same snapshot matches nothing. *)
Lemma syncField_converges env f key default benefits s :
  (forall q, updateManyError env q = None) ->
  (forall a b,
      In a benefits -> In b benefits ->
      isSupporter a = true -> isSupporter b = true ->
      discordUserId a = discordUserId b -> key a = key b) ->
  exists s1 t1 t2,
    syncField env f key default benefits s = (Resolved tt, s1) /\
    trace s1 = trace s ++ t1 /\
    map (frame f) (feeds s1) = map (frame f) (feeds s) /\
    (forall d, In d (feeds s1) ->
       (forall b, In b benefits -> isSupporter b = true ->
                  discordUserId b = user_discordUserId d ->
                  getField f d = Some (key b)) /\
       ((forall b, In b benefits -> isSupporter b = true ->
                   discordUserId b <> user_discordUserId d) ->
        getField f d = Some default)) /\
    syncField env f key default benefits s1 =
      (Resolved tt, {| feeds := feeds s1; trace := trace s1 ++ t2 |}) /\
    t2 <> [] /\
    forallb isUpdate t2 = true /\
    Forall (fun m => m = Some 0%nat) (matchedCounts t2).
Proof.
  intros Hup Hcons.
  set (groups := groupSupporters key (filter isSupporter benefits)).
  assert (Hone : forall k1 k2 id, inGroup groups k1 id -> inGroup groups k2 id -> k1 = k2).
  { intros k1 k2 id H1 H2.
    apply groupSupporters_inGroup in H1 as (a & Ha & <- & Hida).
    apply groupSupporters_inGroup in H2 as (b & Hb & <- & Hidb).
    apply filter_In in Ha as [Ha Hsa]. apply filter_In in Hb as [Hb Hsb].
    apply Hcons; congruence. }
  set (qs := syncQueries f default groups).
  pose proof (syncField_resolves env Hup f key default benefits s) as H1.
  cbv zeta in H1. fold groups qs in H1.
  set (s1 := {| feeds := fst (runQueries qs (feeds s));
                trace := trace s ++ snd (runQueries qs (feeds s)) |}) in *.
  assert (Hfeeds : feeds s1 = map (stepsDoc qs) (feeds s)) by apply runQueries_feeds.
  assert (Hsettled : forall d, In d (feeds s1) -> settled qs d = true).
  { intros d Hd. rewrite Hfeeds in Hd. apply in_map_iff in Hd as (d0 & <- & _).
    apply sync_settles. exact Hone. }
  pose proof (syncField_resolves env Hup f key default benefits s1) as H2.
  cbv zeta in H2. fold groups qs in H2.
  rewrite (runQueries_settled qs (feeds s1) Hsettled) in H2. cbn [fst snd] in H2.
  exists s1, (snd (runQueries qs (feeds s))), (map (fun q => EvUpdateMany q (Some 0%nat)) qs).
  repeat split.
  - exact H1.
  - rewrite Hfeeds, map_map. apply map_ext. intros d.
    apply (sync_steps f default groups Hone d).
  - intros b Hb Hsb Hid.
    rewrite Hfeeds in H. apply in_map_iff in H as (d0 & <- & _).
    destruct (sync_steps f default groups Hone d0) as (Hu & _ & Hcase).
    cbv zeta in Hu, Hcase. fold qs in Hu, Hcase. rewrite Hu in Hid.
    assert (Hin : inGroup groups (key b) (user_discordUserId d0)).
    { apply groupSupporters_inGroup. exists b. split; [|auto].
      apply filter_In. auto. }
    destruct Hcase as [(k & Hk & Hget) | [Hno _]].
    + rewrite Hget. f_equal. exact (Hone _ _ _ Hk Hin).
    + exfalso. exact (Hno _ Hin).
  - intros Hnone.
    rewrite Hfeeds in H. apply in_map_iff in H as (d0 & <- & _).
    destruct (sync_steps f default groups Hone d0) as (Hu & _ & Hcase).
    cbv zeta in Hu, Hcase. fold qs in Hu, Hcase. rewrite Hu in Hnone.
    destruct Hcase as [(k & Hk & _) | [_ Hget]]; [|exact Hget].
    exfalso. apply groupSupporters_inGroup in Hk as (b & Hb & _ & Hid).
    apply filter_In in Hb as [Hb Hsb]. exact (Hnone b Hb Hsb Hid).
  - exact H2.
  - unfold qs, syncQueries. intros E. apply map_eq_nil in E.
    destruct (map (groupQuery f) groups); discriminate.
  - clear. induction qs; simpl; auto.
  - clear. induction qs; simpl; auto.
Qed.


(** ** A concrete cycle *)

Definition exampleBenefits : list Benefits :=
  [ {| discordUserId := "u1"; isSupporter := true; refreshRateSeconds := 120;
       maxDailyArticles := 500; maxUserFeeds := 100 |};
    {| discordUserId := "u2"; isSupporter := false; refreshRateSeconds := 600;
       maxDailyArticles := 50; maxUserFeeds := 5 |} ].

Definition exampleEnv (benefits : list Benefits) : Env :=
  {| getBenefitsOfAllDiscordUsers := Resolved benefits;
     maxDailyArticlesDefault := 50;
     defaultRefreshRateSeconds := 600;
     commonFeedAggregateStages :=
       fun rate fs =>
         filter (fun d => match feed_refreshRateSeconds d with
                          | Some r => Z.eqb r rate
                          | None => false
                          end) fs;
     updateManyError := fun _ => None;
     findError := None;
     aggregateError := None |}.

Definition digit (n : nat) : ascii := ascii_of_nat (48 + n).

Definition exampleUrl (n : nat) : string :=
  "https://example.com/feed/" ++
  String (digit (Nat.div n 10)) (String (digit (Nat.modulo n 10)) ".xml").

Definition exampleFeed (user : string) (rate : option Z) (n : nat) : UserFeed :=
  {| url := Some (exampleUrl n); user_discordUserId := user;
     feed_refreshRateSeconds := rate; feed_maxDailyArticles := None;
     debug := Nat.eqb n 7 |}.

(** Thirty feeds of the supporter [u1], still at the default rate, and one
    of [u2], still at a supporter's rate. *)
Definition exampleState : State :=
  {| feeds := map (exampleFeed "u1" (Some 600)) (seq 0 30)
              ++ [exampleFeed "u2" (Some 120) 99];
     trace := [] |}.

Definition exampleCycle : Outcome unit * State :=
  handleRefreshRate (exampleEnv exampleBenefits) (fun _ => None) 120 exampleState.

Example exampleCycle_sizes :
  map (@List.length UrlEntry) (dispatched (trace (snd exampleCycle))) = [25; 5]%nat.
Proof. vm_compute. reflexivity. Qed.

Example exampleCycle_order :
  map entry_url (List.concat (dispatched (trace (snd exampleCycle))))
  = map exampleUrl (seq 0 30).
Proof. vm_compute. reflexivity. Qed.

Example exampleCycle_debug :
  map entry_url
      (filter saveToObjectStorage (List.concat (dispatched (trace (snd exampleCycle)))))
  = [exampleUrl 7].
Proof. vm_compute. reflexivity. Qed.

Example exampleCycle_updates :
  matchedCounts (trace (snd exampleCycle))
  = [Some 30; Some 1; Some 30; Some 1]%nat.
Proof. vm_compute. reflexivity. Qed.

(** The hypotheses of C1 hold of the concrete cycle. *)
Lemma handleRefreshRate_batches_witness :
  exists s2 inLoop rest,
    let entries :=
      entriesOf (map url (filter debug (feeds s2)))
                (getUrlsQueryMatchingRefreshRate (exampleEnv exampleBenefits) 120 (feeds s2)) in
    let flush := match rest with [] => [] | _ :: _ => [EvUrlsHandler rest] end in
    let calls := dispatched (inLoop ++ [EvCursorEnd] ++ flush) in
    (_ <- syncRefreshRates (exampleEnv exampleBenefits) exampleBenefits ;;
     syncMaxDailyArticles (exampleEnv exampleBenefits) exampleBenefits)
      (logged EvGetBenefits exampleState) = (Resolved tt, s2) /\
    handleRefreshRate (exampleEnv exampleBenefits) (fun _ => None) 120 exampleState =
      (Resolved tt,
       {| feeds := feeds s2;
          trace := trace s2 ++ [EvFindDebug; EvAggregate 120]
                            ++ inLoop ++ [EvCursorEnd] ++ flush |}) /\
    dispatched (trace s2) = dispatched (trace exampleState) /\
    dispatchedAtOnce inLoop /\
    Forall (fun b => List.length b = 25%nat) (dispatched inLoop) /\
    (List.length rest < 25)%nat /\
    List.concat calls = entries /\
    calls = batchesOf (List.length entries) 25 entries /\
    (List.length entries = 30%nat ->
     calls = [firstn 25 entries; skipn 25 entries] /\
     map (@List.length UrlEntry) calls = [25; 5]%nat).
Proof.
  apply (handleRefreshRate_batches (exampleEnv exampleBenefits) (fun _ => None) 120
           exampleBenefits exampleState).
  - reflexivity.
  - repeat split; reflexivity.
  - reflexivity.
Defined.

(** C8 on the concrete cycle. *)
Lemma sync_completes_before_query_witness :
  exists t,
    trace (snd exampleCycle) = trace exampleState ++ t /\
    In (EvAggregate 120) t.
Proof.
  destruct (sync_completes_before_query (exampleEnv exampleBenefits) (fun _ => None)
              120 exampleState) as (t & Ht & _ & Hin).
  exists t. split; [exact Ht|].
  apply (Hin exampleBenefits
             (snd (syncRefreshRates (exampleEnv exampleBenefits) exampleBenefits
                     (logged EvGetBenefits exampleState)))
             (snd (syncMaxDailyArticles (exampleEnv exampleBenefits) exampleBenefits
                     (snd (syncRefreshRates (exampleEnv exampleBenefits) exampleBenefits
                             (logged EvGetBenefits exampleState))))));
    reflexivity.
Defined.






(** Whichever of the two concurrent group updates the database serves
    first, and whichever value the first run left, the second run rewrites
    the feed at least once. *)
Example second_run_writes_in_either_order :
  let q60 := groupQuery RefreshRateSeconds (60, ["u1"]) in
  let q120 := groupQuery RefreshRateSeconds (120, ["u1"]) in
  let left60 := [exampleFeed "u1" (Some 60) 0] in
  let left120 := [exampleFeed "u1" (Some 120) 0] in
  matchedCounts (snd (runQueries [q60; q120] left120)) = [Some 1; Some 1]%nat /\
  matchedCounts (snd (runQueries [q120; q60] left120)) = [Some 0; Some 1]%nat /\
  matchedCounts (snd (runQueries [q60; q120] left60)) = [Some 0; Some 1]%nat /\
  matchedCounts (snd (runQueries [q120; q60] left60)) = [Some 1; Some 1]%nat.
Proof. vm_compute. repeat split; reflexivity. Qed.


End ScheduleHandlerFacts.

(** ** Strings, hashing and encoding *)

Module TextFacts.

Example sha1_abc : Text.sha1Hex "abc" = "a9993e364706816aba3e25717850c26c9cd0d89d".
Proof. vm_compute. reflexivity. Qed.
Example sha1_empty : Text.sha1Hex "" = "da39a3ee5e6b4b0d3255bfef95601890afd80709".
Proof. vm_compute. reflexivity. Qed.
Example sha1_long : Text.sha1Hex "abcdbcdecdefdefgefghfghighijhijkijkljklmklmnlmnomnopnopq" = "84983e441c3bd26ebaae4aa1f95129e5e54670f1".
Proof. vm_compute. reflexivity. Qed.
Example b64_1 : Text.base64 "Man" = "TWFu". Proof. reflexivity. Qed.
Example b64_2 : Text.base64 "Ma" = "TWE=". Proof. reflexivity. Qed.
Example b64_3 : Text.base64 "M" = "TQ==". Proof. reflexivity. Qed.
Example b64_4 : Text.base64 "Many hands" = "TWFueSBoYW5kcw==". Proof. reflexivity. Qed.
Example split_1 : Text.split ";" "text/xml; charset=ISO-8859-1" = ["text/xml"; " charset=ISO-8859-1"]. Proof. reflexivity. Qed.
Example split_2 : Text.split ";" "" = [""]. Proof. reflexivity. Qed.
Example split_3 : Text.split ";" "a;" = ["a"; ""]. Proof. reflexivity. Qed.
Example trim_1 : Text.trim "  a b  " = "a b". Proof. reflexivity. Qed.
Example utf_1 : Text.testUtf8 "UTF-8" = true. Proof. reflexivity. Qed.
Example utf_2 : Text.testUtf8 "utf8" = true. Proof. reflexivity. Qed.
Example utf_3 : Text.testUtf8 "ISO-8859-1" = false. Proof. reflexivity. Qed.
Example utf_4 : Text.testUtf8 "xutf---8y" = true. Proof. reflexivity. Qed.

Example charset_latin1 :
  FeedFetcherService.charsetOf
    {| FeedFetcherService.status := 200;
       FeedFetcherService.res_headers := [("content-type", "text/xml; charset=ISO-8859-1")];
       FeedFetcherService.text := Resolved "";
       FeedFetcherService.arrayBuffer := Resolved "" |}
  = Resolved (Some "ISO-8859-1").
Proof. reflexivity. Qed.

Example charset_without_value :
  FeedFetcherService.charsetOf
    {| FeedFetcherService.status := 200;
       FeedFetcherService.res_headers := [("content-type", "text/xml; charset")];
       FeedFetcherService.text := Resolved "";
       FeedFetcherService.arrayBuffer := Resolved "" |}
  = Rejected (Error "Cannot read properties of undefined (reading 'trim')").
Proof. reflexivity. Qed.

End TextFacts.

(* ================================================================= *)
(** ** The fetcher *)

Module FeedFetcherFacts.

Import FeedFetcherService AsyncLogic.

Lemma wp_await {S A} (o : Outcome A) Q E (s : S) :
  match o with Resolved a => Q a s | Rejected e => E e s end ->
  wp (await o) Q E s.
Proof. unfold wp, await. destruct o; exact (fun H => H). Qed.

Lemma wp_failing {S} (o : option JsError) Q E (s : S) :
  match o with Some e => E e s | None => Q tt s end ->
  wp (failing o) Q E s.
Proof. unfold wp, failing. destruct o; exact (fun H => H). Qed.

Lemma wp_logger l Q E r :
  Q tt (onWorld (addLog l) r) -> wp (logger l) Q E r.
Proof. exact (fun H => H). Qed.

(** One step of symbolic execution. *)
Ltac wp_step :=
  lazymatch goal with
  | |- wp (bind _ _) _ _ _ => apply wp_bind
  | |- wp (ret _) _ _ _ => apply wp_ret
  | |- wp (throw _) _ _ _ => apply wp_throw
  | |- wp get _ _ _ => apply wp_get
  | |- wp (modify _) _ _ _ => apply wp_modify
  | |- wp (tryCatch _ _) _ _ _ => apply wp_tryCatch
  | |- wp (tryFinally _ _) _ _ _ => apply wp_tryFinally
  | |- wp (await _) _ _ _ => apply wp_await
  | |- wp (failing _) _ _ _ => apply wp_failing
  | |- wp (logger _) _ _ _ => apply wp_logger
  | |- wp (persistResponse _) _ _ _ => unfold persistResponse
  | |- wp (persistRequest _) _ _ _ => unfold persistRequest
  | |- wp (flush _) _ _ _ => unfold flush
  | |- wp (onDecodeError _ _) _ _ _ => unfold onDecodeError
  end; cbv beta.

(** Case analysis on what the goal, or the program at its head, inspects. *)
Ltac wp_case :=
  lazymatch goal with
  | |- wp (match ?x with _ => _ end) _ _ _ => destruct x eqn:?
  | |- match ?x with _ => _ end => destruct x eqn:?
  end.

Ltac wp_go := repeat (wp_step || (progress unfold sha1Of) || wp_case).

Definition isFeedTooLarge (e : JsError) : bool :=
  match e with FeedTooLargeException _ => true | _ => false end.

(** [response.textHash] for the decoded text [t]. *)
Definition textHashOf (t : string) : string :=
  match t with
  | EmptyString => EmptyString
  | String _ _ => Text.sha1Hex t
  end.

(** The line logged when compressing or caching fails. *)
Definition cacheFailureLog (url_ : string) : Log :=
  LogError ("Failed to upload feed html content for url " ++ url_ ++ " to cache").

(** Persisting and flushing do not fail. *)
Definition storesUp (env : Env) (options : option Options) : Prop :=
  (forall p, responsePersist env p = None) /\
  (forall q, requestPersist env q = None) /\
  (wantsFlush options = true -> requestFlush env = None).

#[local] Arguments Text.sha1Hex : simpl never.
#[local] Arguments Text.base64 : simpl never.
#[local] Arguments Text.byteLength : simpl never.
#[local] Arguments String.append : simpl never.

(** A property of a run that the steps between the fetch and the
    persistence leave alone. *)
Record quiet (I : Run -> Prop) : Prop := {
  quiet_log : forall l r, I r -> I (onWorld (addLog l) r);
  quiet_uuid : forall r, I r -> I (onWorld addUuid r);
  quiet_upload : forall k b r, I r -> I (onWorld (addUploadCall k b) r);
  quiet_set : forall k b r, I r -> I (onWorld (addSetCall k b) r);
  quiet_response : forall f r, I r -> I (onResponse f r);
  quiet_text : forall t r, I r -> I (setText t r);
  quiet_status : forall st r, I r -> I (onRequest (setStatus st) r)
}.

Section Blocks.

Variable env : Env.

(** [saveBody] keeps quiet properties and rejects with nothing but a
    [FeedTooLargeException]. *)
Lemma saveBody_quiet I url options t r :
  quiet I -> I r ->
  wp (saveBody env url options t) (fun _ r' => I r')
     (fun e r' => I r' /\ isFeedTooLarge e = true) r.
Proof.
  intros [Hl Hu Hup Hs Hr Ht Hst] HI. unfold saveBody.
  wp_go; auto 10.
Qed.

(** [decodeAndSave] keeps quiet properties and never rejects. *)
Lemma decodeAndSave_quiet I url options res r :
  quiet I -> I r ->
  wp (decodeAndSave env url options res) (fun _ r' => I r') (fun _ _ => False) r.
Proof.
  intros HQ HI. unfold decodeAndSave.
  apply wp_tryCatch, wp_bind, wp_await.
  destruct (decodeText env res) as [t|e].
  - apply wp_bind, wp_modify. cbv beta zeta.
    eapply wp_mono.
    + apply (saveBody_quiet I); [exact HQ|]. apply (quiet_text I HQ). exact HI.
    + auto.
    + cbv beta. intros e r' [HI' Hbig]. destruct e; try discriminate.
      wp_go. apply (quiet_status I HQ). exact HI'.
  - destruct HQ as [Hl Hu Hup Hs Hr Ht Hst]. destruct e; wp_go; auto.
Qed.

(** What the outer [try], [catch] and [finally] do to the list of persisted
    requests, when persisting the request and flushing do not fail. *)
Lemma run_persists_once url_ options r old :
  (forall q, requestPersist env q = None) ->
  (wantsFlush options = true -> requestFlush env = None) ->
  persistedRequests (world r) = old ->
  url (request r) = url_ ->
  wp (tryFinally (tryCatch (tryBlock env url_ options) (catchBlock env url_))
                 (finallyBlock env options))
     (fun result r' =>
        persistedRequests (world r') = old ++ [result_request result] /\
        url (result_request result) = url_)
     (fun _ _ => False) r.
Proof.
  intros Hpersist Hflush Hold Hurl.
  set (I := fun r' : Run => persistedRequests (world r') = old /\ url (request r') = url_).
  assert (HQ : quiet I).
  { unfold I. split; intros; simpl; tauto. }
  assert (Hfin : forall result r',
             persistedRequests (world r') = old ++ [result_request result] /\
             url (result_request result) = url_ ->
             wp (finallyBlock env options)
                (fun _ r'' =>
                   persistedRequests (world r'') = old ++ [result_request result] /\
                   url (result_request result) = url_)
                (fun _ _ => False) r').
  { intros result r' H. unfold finallyBlock.
    destruct (wantsFlush options); [|wp_go; exact H].
    unfold flush. rewrite (Hflush eq_refl). wp_go. exact H. }
  assert (Hcatch : forall e r', I r' ->
             wp (catchBlock env url_ e)
                (fun result r'' =>
                   wp (finallyBlock env options)
                      (fun _ r3 =>
                         persistedRequests (world r3) = old ++ [result_request result] /\
                         url (result_request result) = url_)
                      (fun _ _ => False) r'')
                (fun _ _ => False) r').
  { intros e r' [H1 H2]. unfold catchBlock.
    destruct (isRequestTimeout e);
      wp_go; rewrite ?Hpersist in *; try discriminate;
      apply Hfin; simpl; rewrite H1; auto. }
  apply wp_tryFinally, wp_tryCatch. unfold tryBlock.
  apply wp_bind, wp_await.
  destruct (fetchFeedResponse env url_ (fetchOptionsFor env options)) as [res|e].
  2:{ eapply wp_mono; [apply Hcatch; split; assumption | auto | intros ? ? []]. }
  repeat wp_step.
  eapply wp_mono.
  - apply (decodeAndSave_quiet I); [exact HQ|]. unfold I. simpl. auto.
  - cbv beta. intros _ r' [H1 H2].
    wp_go; rewrite ?Hpersist in *; try discriminate.
    + eapply wp_mono; [apply Hcatch; split; simpl; auto | auto | intros ? ? []].
    + apply Hfin. simpl. rewrite H1. auto.
  - intros e r' [].
Qed.

Lemma wp_sha1Of_fresh data Q E r :
  sha1 (world r) = createHash ->
  Q (Text.sha1Hex data) r ->
  wp (sha1Of data) Q E r.
Proof.
  intros Hfresh HQ. unfold sha1Of. repeat wp_step. rewrite Hfresh. exact HQ.
Qed.

(** The run in which the body is decoded and compressed: what is recorded,
    cached, uploaded and persisted. *)
Lemma body_saved_run url_ options w res t d :
  fetchFeedResponse env url_ (fetchOptionsFor env options) = Resolved res ->
  decodeText env res = Resolved t ->
  deflate env t = Resolved d ->
  sha1 w = createHash ->
  (forall e, setFeedHtmlContent env (Text.sha1Hex url_) (Text.base64 d) = Some e ->
             isFeedTooLarge e = false) ->
  storesUp env options ->
  wp (tryFinally (tryCatch (tryBlock env url_ options) (catchBlock env url_))
                 (finallyBlock env options))
     (fun result r =>
        exists p,
          req_status (result_request result) = Some (statusOf res) /\
          errorMessage (result_request result) = None /\
          response (result_request result) = Some p /\
          responseText result = Some (Some t) /\
          statusCode p = Some (status res) /\
          redisCacheKey p = Some (Text.sha1Hex url_) /\
          textHash p = Some (textHashOf t) /\
          s3ObjectKey p = (if wantsObjectStorage options
                           then Some (randomUUID env (uuids w)) else None) /\
          setFeedHtmlContentCalls (world r)
            = setFeedHtmlContentCalls w ++ [(Text.sha1Hex url_, Text.base64 d)] /\
          uploadFeedHtmlContentCalls (world r)
            = uploadFeedHtmlContentCalls w ++
              (if wantsObjectStorage options
               then [(randomUUID env (uuids w), Text.base64 d)] else []) /\
          persistedResponses (world r) = persistedResponses w ++ [p] /\
          persistedRequests (world r) = persistedRequests w ++ [result_request result] /\
          (forall e, setFeedHtmlContent env (Text.sha1Hex url_) (Text.base64 d) = Some e ->
                     In (cacheFailureLog url_) (logs (world r))))
     (fun _ _ => False)
     (startRun env url_ options w).
Proof.
  intros Hfetch Hdec Hdef Hfresh Hcache (Hrp & Hqp & Hflush).
  assert (Hfin : finallyBlock env options = ret tt \/
                 (finallyBlock env options = flush env /\ requestFlush env = None)).
  { unfold finallyBlock. destruct (wantsFlush options); auto. }
  assert (Hlog : forall e,
             setFeedHtmlContent env (Text.sha1Hex url_) (Text.base64 d) = Some e ->
             exists l, (match e with
                        | FeedTooLargeException _ => throw e
                        | _ => logger (cacheFailureLog url_)
                        end) = logger l /\ l = cacheFailureLog url_).
  { intros e He. pose proof (Hcache e He) as Hnot.
    destruct e; try discriminate Hnot; eexists; split; reflexivity. }
  unfold cacheFailureLog in Hlog.
  destruct (setFeedHtmlContent env (Text.sha1Hex url_) (Text.base64 d)) as [e|] eqn:Hset;
    [destruct (Hlog e eq_refl) as (l & Hl & El) | clear Hlog].
  all: destruct (wantsObjectStorage options) eqn:Hwants.
  all: destruct t as [|c t].
  all: apply wp_tryFinally, wp_tryCatch; unfold tryBlock;
    apply wp_bind, wp_await; rewrite Hfetch; repeat wp_step;
    unfold decodeAndSave; apply wp_tryCatch, wp_bind, wp_await; rewrite Hdec;
    repeat wp_step; cbv zeta; unfold saveBody; rewrite Hwants;
    apply wp_tryCatch, wp_bind, wp_await; rewrite Hdef;
    repeat wp_step.
  all: try (match goal with
            | |- match uploadFeedHtmlContent env ?k ?b with _ => _ end =>
                destruct (uploadFeedHtmlContent env k b)
            end; repeat wp_step).
  all: apply wp_sha1Of_fresh; [exact Hfresh|]; repeat wp_step.
  all: try (apply wp_sha1Of_fresh; [exact Hfresh|]; repeat wp_step).
  all: rewrite Hset; try rewrite Hl;
    repeat wp_step; rewrite Hrp; repeat wp_step; rewrite Hqp; repeat wp_step.
  all: destruct Hfin as [-> | [-> Hfl]];
    [|unfold flush; rewrite Hfl]; repeat wp_step.
  all: eexists; cbn; repeat split; try reflexivity.
  all: try (intros e0 [=]).
  all: rewrite ?app_nil_r; try reflexivity.
  all: subst l; unfold cacheFailureLog; rewrite ?in_app_iff; cbn; auto 10.
Qed.

(** The run in which the body is decoded and compressing it fails. *)
Lemma compress_failed_run url_ options w res t e :
  fetchFeedResponse env url_ (fetchOptionsFor env options) = Resolved res ->
  decodeText env res = Resolved t ->
  deflate env t = Rejected e ->
  isFeedTooLarge e = false ->
  storesUp env options ->
  wp (tryFinally (tryCatch (tryBlock env url_ options) (catchBlock env url_))
                 (finallyBlock env options))
     (fun result r =>
        exists p,
          req_status (result_request result) = Some (statusOf res) /\
          errorMessage (result_request result) = None /\
          response (result_request result) = Some p /\
          responseText result = Some (Some t) /\
          statusCode p = Some (status res) /\
          redisCacheKey p = None /\
          setFeedHtmlContentCalls (world r) = setFeedHtmlContentCalls w /\
          uploadFeedHtmlContentCalls (world r) = uploadFeedHtmlContentCalls w /\
          persistedResponses (world r) = persistedResponses w ++ [p] /\
          persistedRequests (world r) = persistedRequests w ++ [result_request result] /\
          In (cacheFailureLog url_) (logs (world r)))
     (fun _ _ => False)
     (startRun env url_ options w).
Proof.
  intros Hfetch Hdec Hdef Hnot (Hrp & Hqp & Hflush).
  apply wp_tryFinally, wp_tryCatch. unfold tryBlock.
  apply wp_bind, wp_await. rewrite Hfetch. repeat wp_step.
  unfold decodeAndSave. apply wp_tryCatch, wp_bind, wp_await. rewrite Hdec.
  repeat wp_step. cbv zeta. unfold saveBody.
  apply wp_tryCatch, wp_bind, wp_await. rewrite Hdef.
  destruct e; try discriminate Hnot.
  all: repeat wp_step; rewrite Hrp; repeat wp_step; rewrite Hqp; repeat wp_step.
  all: unfold finallyBlock;
    (destruct (wantsFlush options);
     [unfold flush; rewrite (Hflush eq_refl); repeat wp_step | repeat wp_step]).
  all: eexists; simpl; repeat split; try reflexivity.
  all: unfold cacheFailureLog; rewrite ?in_app_iff; simpl; auto 10.
Qed.

(** *** Hashes recorded on a response *)









(** From the blocks to the method. *)
Lemma fetchAndSaveResponse_wp url_ options w (Q : Result -> World -> Prop) :
  wp (tryFinally (tryCatch (tryBlock env url_ options) (catchBlock env url_))
                 (finallyBlock env options))
     (fun result r => Q result (world r)) (fun _ _ => False)
     (startRun env url_ options w) ->
  exists result w',
    fetchAndSaveResponse env url_ options w = (Resolved result, w') /\ Q result w'.
Proof.
  intros H. apply wp_resolves in H as (result & r & E & HQ).
  exists result, (world r). unfold fetchAndSaveResponse. rewrite E. auto.
Qed.

(** The outer [catch] on an error of the transport. *)
Lemma transport_error_run url_ options w err :
  fetchFeedResponse env url_ (fetchOptionsFor env options) = Rejected err ->
  (forall q, requestPersist env q = None) ->
  (wantsFlush options = true -> requestFlush env = None) ->
  wp (tryFinally (tryCatch (tryBlock env url_ options) (catchBlock env url_))
                 (finallyBlock env options))
     (fun result r =>
        req_status (result_request result)
          = Some (if isRequestTimeout err then FETCH_TIMEOUT else FETCH_ERROR) /\
        errorMessage (result_request result) = Some (message err) /\
        response (result_request result) = None /\
        responseText result = None)
     (fun _ _ => False)
     (startRun env url_ options w).
Proof.
  intros Hfetch Hpersist Hflush.
  apply wp_tryFinally, wp_tryCatch. unfold tryBlock.
  apply wp_bind, wp_await. rewrite Hfetch. unfold catchBlock, finallyBlock.
  destruct (isRequestTimeout err); repeat wp_step; rewrite Hpersist;
    repeat wp_step;
    (destruct (wantsFlush options);
     [unfold flush; rewrite (Hflush eq_refl); repeat wp_step | repeat wp_step]);
    simpl; auto.
Qed.

(** No update of the world touches the module-level hash object, so it
    stays as it was at every point of every fetch, however the steps of
    concurrent fetches interleave. *)
Lemma updates_keep_sha1 w :
  (forall l, sha1 (addLog l w) = sha1 w) /\
  (forall k b, sha1 (addSetCall k b w) = sha1 w) /\
  (forall k b, sha1 (addUploadCall k b w) = sha1 w) /\
  (forall p, sha1 (addResponse p w) = sha1 w) /\
  (forall q, sha1 (addRequest q w) = sha1 w) /\
  sha1 (addFlush w) = sha1 w /\
  sha1 (addUuid w) = sha1 w.
Proof. repeat split. Qed.



End Blocks.

(** C5 (as amended).  When persisting the request does not fail, and
    flushing does not fail if it was asked for, [fetchAndSaveResponse]
    resolves, for every URL and options and whatever the other
    collaborators do, with a request of that URL that it has persisted,
    once.  An error of the transport is recorded on it: [FETCH_TIMEOUT]
    for a [FetchError] of type [request-timeout], [FETCH_ERROR] for any
    other error, with the message of the error. *)
Theorem fetchAndSaveResponse_resolves env url_ options w :
  (forall q, requestPersist env q = None) ->
  (wantsFlush options = true -> requestFlush env = None) ->
  exists result w',
    fetchAndSaveResponse env url_ options w = (Resolved result, w') /\
    persistedRequests w' = persistedRequests w ++ [result_request result] /\
    url (result_request result) = url_ /\
    forall err,
      fetchFeedResponse env url_ (fetchOptionsFor env options) = Rejected err ->
      req_status (result_request result)
        = Some (if isRequestTimeout err then FETCH_TIMEOUT else FETCH_ERROR) /\
      errorMessage (result_request result) = Some (message err) /\
      response (result_request result) = None /\
      responseText result = None.
Proof.
  intros Hpersist Hflush.
  pose proof (run_persists_once env url_ options (startRun env url_ options w)
                (persistedRequests w) Hpersist Hflush eq_refl eq_refl) as H1.
  destruct (fetchFeedResponse env url_ (fetchOptionsFor env options)) as [res|err] eqn:Hfetch.
  - destruct (fetchAndSaveResponse_wp env url_ options w
                (fun result w' =>
                   persistedRequests w' = persistedRequests w ++ [result_request result] /\
                   url (result_request result) = url_) H1)
      as (result & w' & E & Hp & Hu).
    exists result, w'. split; [exact E|]. split; [exact Hp|]. split; [exact Hu|].
    intros err' [=].
  - pose proof (transport_error_run env url_ options w err Hfetch Hpersist Hflush) as H2.
    pose proof (wp_conj _ _ _ _ _ _ H1 H2) as H.
    eapply wp_mono in H; [|intros a s' HQ; exact HQ|intros e s' [[] _]].
    destruct (fetchAndSaveResponse_wp env url_ options w
                (fun result w' =>
                   (persistedRequests w' = persistedRequests w ++ [result_request result] /\
                    url (result_request result) = url_) /\
                   req_status (result_request result)
                     = Some (if isRequestTimeout err then FETCH_TIMEOUT else FETCH_ERROR) /\
                   errorMessage (result_request result) = Some (message err) /\
                   response (result_request result) = None /\
                   responseText result = None) H)
      as (result & w' & E & [Hp Hu] & Hrest).
    exists result, w'. split; [exact E|]. split; [exact Hp|]. split; [exact Hu|].
    intros err' [= <-]. exact Hrest.
Qed.


(** C4 (as amended).  The size of the decoded body plays no part: a fetch
    whose decoded body is larger than 3 MB, compressed and persisted
    without failure, gives a request with the status decided by the HTTP
    status, [OK] or [BAD_STATUS_CODE] and not [REFUSED_LARGE_FEED], and
    its compressed body is written to the cache under the cache key of the
    URL, and to object storage when the caller asked for it. *)
Theorem oversize_body_is_cached env url_ options w res t d :
  fetchFeedResponse env url_ (fetchOptionsFor env options) = Resolved res ->
  decodeText env res = Resolved t ->
  (maxSizeMb < sizeInMb t)%Q ->
  deflate env t = Resolved d ->
  sha1 w = createHash ->
  (forall e, setFeedHtmlContent env (Text.sha1Hex url_) (Text.base64 d) = Some e ->
             isFeedTooLarge e = false) ->
  storesUp env options ->
  exists result w' p,
    fetchAndSaveResponse env url_ options w = (Resolved result, w') /\
    req_status (result_request result) = Some (statusOf res) /\
    (statusOf res = OK \/ statusOf res = BAD_STATUS_CODE) /\
    response (result_request result) = Some p /\
    responseText result = Some (Some t) /\
    persistedResponses w' = persistedResponses w ++ [p] /\
    persistedRequests w' = persistedRequests w ++ [result_request result] /\
    setFeedHtmlContentCalls w'
      = setFeedHtmlContentCalls w ++ [(Text.sha1Hex url_, Text.base64 d)] /\
    uploadFeedHtmlContentCalls w'
      = uploadFeedHtmlContentCalls w ++
        (if wantsObjectStorage options
         then [(randomUUID env (uuids w), Text.base64 d)] else []).
Proof.
  intros Hfetch Hdec _ Hdef Hfresh Hcache Hup.
  pose proof (body_saved_run env url_ options w res t d Hfetch Hdec Hdef Hfresh Hcache Hup) as H.
  apply wp_resolves in H as (result & r & E & p & H1 & H2 & H3 & H4 & H5 & H6 & H7 & H8 & H9 & H10 & H11 & H12 & _).
  exists result, (world r), p. unfold fetchAndSaveResponse. rewrite E.
  repeat split; try assumption.
  unfold statusOf. destruct (ok res || (status res =? NOT_MODIFIED)); auto.
Qed.

(** C10.  When the fetch got an HTTP response whose body was decoded, and
    compressing the body or writing it to the cache then throws an error
    other than [FeedTooLargeException], the error is caught and logged,
    the status stays what the HTTP status made it ([OK] or
    [BAD_STATUS_CODE]), and the response and the request are persisted
    and returned: the call resolves. *)
Theorem cache_failure_not_fatal env url_ options w res t e :
  fetchFeedResponse env url_ (fetchOptionsFor env options) = Resolved res ->
  decodeText env res = Resolved t ->
  sha1 w = createHash ->
  isFeedTooLarge e = false ->
  (deflate env t = Rejected e \/
   exists d, deflate env t = Resolved d /\
             setFeedHtmlContent env (Text.sha1Hex url_) (Text.base64 d) = Some e) ->
  storesUp env options ->
  exists result w' p,
    fetchAndSaveResponse env url_ options w = (Resolved result, w') /\
    req_status (result_request result) = Some (statusOf res) /\
    (statusOf res = OK \/ statusOf res = BAD_STATUS_CODE) /\
    errorMessage (result_request result) = None /\
    response (result_request result) = Some p /\
    statusCode p = Some (status res) /\
    responseText result = Some (Some t) /\
    persistedResponses w' = persistedResponses w ++ [p] /\
    persistedRequests w' = persistedRequests w ++ [result_request result] /\
    In (cacheFailureLog url_) (logs w').
Proof.
  intros Hfetch Hdec Hfresh Hnot Hfail Hup.
  assert (Hst : statusOf res = OK \/ statusOf res = BAD_STATUS_CODE).
  { unfold statusOf. destruct (ok res || (status res =? NOT_MODIFIED)); auto. }
  destruct Hfail as [Hdef | (d & Hdef & Hset)].
  - pose proof (compress_failed_run env url_ options w res t e Hfetch Hdec Hdef Hnot Hup) as H.
    apply wp_resolves in H
      as (result & r & E & p & H1 & H2 & H3 & H4 & H5 & H6 & H7 & H8 & H9 & H10 & H11).
    exists result, (world r), p. unfold fetchAndSaveResponse. rewrite E.
    repeat split; assumption.
  - assert (Hcache : forall e0,
               setFeedHtmlContent env (Text.sha1Hex url_) (Text.base64 d) = Some e0 ->
               isFeedTooLarge e0 = false).
    { intros e0 He0. rewrite Hset in He0. injection He0 as <-. exact Hnot. }
    pose proof (body_saved_run env url_ options w res t d Hfetch Hdec Hdef Hfresh Hcache Hup) as H.
    apply wp_resolves in H
      as (result & r & E & p & H1 & H2 & H3 & H4 & H5 & H6 & H7 & H8 & H9 & H10 & H11 & H12 & H13).
    exists result, (world r), p. unfold fetchAndSaveResponse. rewrite E.
    repeat split; try assumption. exact (H13 e Hset).
Qed.


(** ** Concrete fetches *)

(** A stand-in for zlib: it marks the text instead of compressing it. *)
Definition markedDeflate (t : string) : Outcome string :=
  Resolved ("deflated:" ++ t)%string.

Definition exampleEnv (answer : Outcome HttpResponse)
           (cacheError flushError : option JsError) : Env :=
  {| feedUserAgent := Some "MonitoRSS/1.0";
     defaultUserAgent := "Mozilla/5.0";
     fetch := fun _ _ => answer;
     iconvDecode := fun bytes _ => Resolved bytes;
     deflate := markedDeflate;
     randomUUID := fun n => ("uuid-" ++ String (ascii_of_nat (48 + n)) "")%string;
     uploadFeedHtmlContent := fun _ _ => None;
     setFeedHtmlContent := fun _ _ => cacheError;
     responsePersist := fun _ => None;
     requestPersist := fun _ => None;
     requestFlush := flushError |}.

Definition emptyWorld : World :=
  {| setFeedHtmlContentCalls := []; uploadFeedHtmlContentCalls := [];
     persistedResponses := []; persistedRequests := [];
     flushes := 0; logs := []; sha1 := createHash; uuids := 0;
     now := 1700000000000 |}.

Definition laterWorld : World :=
  {| setFeedHtmlContentCalls := [("k", "v")]; uploadFeedHtmlContentCalls := [];
     persistedResponses := []; persistedRequests := [];
     flushes := 3; logs := [LogDebug "earlier"]; sha1 := createHash; uuids := 4;
     now := 1700000600000 |}.

Definition feedUrl : string := "https://example.com/feed.xml".

Definition feedAnswer (body : string) : HttpResponse :=
  {| status := 200;
     res_headers := [("content-type", "application/rss+xml; charset=utf-8");
                     ("etag", "W/abc"); ("server", "cloudflare")];
     text := Resolved body;
     arrayBuffer := Resolved body |}.

Definition notModifiedAnswer : HttpResponse :=
  {| status := 304;
     res_headers := [("etag", "W/abc")];
     text := Resolved "";
     arrayBuffer := Resolved "" |}.

Definition withStorage : option Options :=
  Some {| flushEntities := false; saveResponseToObjectStorage := true;
          opt_headers := None |}.

Definition withFlush : option Options :=
  Some {| flushEntities := true; saveResponseToObjectStorage := false;
          opt_headers := None |}.

Definition statusIn (run : Outcome Result * World) : option RequestStatus :=
  match fst run with
  | Resolved result => req_status (result_request result)
  | Rejected _ => None
  end.

Definition responseIn (run : Outcome Result * World) : option Response :=
  match fst run with
  | Resolved result => response (result_request result)
  | Rejected _ => None
  end.

Definition textIn (run : Outcome Result * World) : option (option string) :=
  match fst run with
  | Resolved result => responseText result
  | Rejected _ => None
  end.

Definition firstFetch : Outcome Result * World :=
  fetchAndSaveResponse (exampleEnv (Resolved (feedAnswer "<rss/>")) None None)
                       feedUrl None emptyWorld.

Definition secondFetch : Outcome Result * World :=
  fetchAndSaveResponse (exampleEnv (Resolved (feedAnswer "<rss/>")) None None)
                       feedUrl withStorage laterWorld.

Example two_fetches_same_hashes :
  statusIn firstFetch = Some OK /\
  option_map redisCacheKey (responseIn firstFetch)
    = Some (Some "6904f1c4283b1a2c822ade42a644da65a694eb62") /\
  option_map redisCacheKey (responseIn secondFetch)
    = option_map redisCacheKey (responseIn firstFetch) /\
  option_map textHash (responseIn secondFetch)
    = option_map textHash (responseIn firstFetch) /\
  option_map textHash (responseIn firstFetch)
    = Some (Some "cbd21ef88911853b04cdcb6e9b2c729e5400744d").
Proof. vm_compute. repeat split; reflexivity. Qed.

(** *** 304 Not Modified *)




(** *** A body larger than the ceiling *)

Fixpoint repeatChar (c : ascii) (n : positive) : string -> string :=
  match n with
  | xH => String c
  | xO n' => fun s => repeatChar c n' (repeatChar c n' s)
  | xI n' => fun s => String c (repeatChar c n' (repeatChar c n' s))
  end.

(** 3 MB and one byte. *)
Definition oversizeBody : string := repeatChar "a" 3145729 EmptyString.

Lemma byteLength_repeatChar c n :
  forall s, Text.byteLength (repeatChar c n s) = Z.pos n + Text.byteLength s.
Proof.
  assert (Hs : forall a s, Text.byteLength (String a s) = 1 + Text.byteLength s)
    by reflexivity.
  induction n as [n IH|n IH|]; intros s; cbn [repeatChar]; rewrite ?Hs, ?IH; lia.
Qed.

Lemma oversizeBody_size : (maxSizeMb < sizeInMb oversizeBody)%Q.
Proof.
  unfold sizeInMb, oversizeBody. rewrite byteLength_repeatChar.
  change (Text.byteLength "") with 0. reflexivity.
Qed.

Definition oversizeEnv : Env :=
  exampleEnv (Resolved (feedAnswer oversizeBody)) None None.

(** C4 as stated fails: the body of 3 MB and one byte is accepted with
    status [OK] and written to the cache. *)
Lemma oversize_body_not_refused :
  (maxSizeMb < sizeInMb oversizeBody)%Q /\
  exists result w',
    fetchAndSaveResponse oversizeEnv feedUrl None emptyWorld = (Resolved result, w') /\
    req_status (result_request result) = Some OK /\
    responseText result = Some (Some oversizeBody) /\
    setFeedHtmlContentCalls w'
      = [(Text.sha1Hex feedUrl, Text.base64 ("deflated:" ++ oversizeBody))].
Proof.
  split; [exact oversizeBody_size|].
  assert (H : wp (tryFinally (tryCatch (tryBlock oversizeEnv feedUrl None)
                                       (catchBlock oversizeEnv feedUrl))
                             (finallyBlock oversizeEnv None))
                 (fun result r =>
                    req_status (result_request result) = Some OK /\
                    responseText result = Some (Some oversizeBody) /\
                    setFeedHtmlContentCalls (world r)
                      = [(Text.sha1Hex feedUrl,
                          Text.base64 ("deflated:" ++ oversizeBody))])
                 (fun _ _ => False)
                 (startRun oversizeEnv feedUrl None emptyWorld)).
  { eapply wp_mono.
    - apply (body_saved_run oversizeEnv feedUrl None emptyWorld
               (feedAnswer oversizeBody) oversizeBody ("deflated:" ++ oversizeBody)).
      + reflexivity.
      + reflexivity.
      + reflexivity.
      + reflexivity.
      + intros e [=].
      + repeat split; intros; reflexivity.
    - cbv beta. intros result r (p & H1 & _ & _ & H4 & _ & _ & _ & _ & H9 & _).
      split; [exact H1|]. split; [exact H4 | exact H9].
    - intros e r []. }
  apply wp_resolves in H as (result & r & E & H1 & H2 & H3).
  exists result, (world r). unfold fetchAndSaveResponse. rewrite E. auto.
Qed.

(** The hypotheses of C4 hold of that fetch. *)
Lemma oversize_body_is_cached_witness :
  exists result w' p,
    fetchAndSaveResponse oversizeEnv feedUrl None emptyWorld = (Resolved result, w') /\
    req_status (result_request result) = Some (statusOf (feedAnswer oversizeBody)) /\
    (statusOf (feedAnswer oversizeBody) = OK \/
     statusOf (feedAnswer oversizeBody) = BAD_STATUS_CODE) /\
    response (result_request result) = Some p /\
    responseText result = Some (Some oversizeBody) /\
    persistedResponses w' = persistedResponses emptyWorld ++ [p] /\
    persistedRequests w' = persistedRequests emptyWorld ++ [result_request result] /\
    setFeedHtmlContentCalls w'
      = setFeedHtmlContentCalls emptyWorld
        ++ [(Text.sha1Hex feedUrl, Text.base64 ("deflated:" ++ oversizeBody))] /\
    uploadFeedHtmlContentCalls w'
      = uploadFeedHtmlContentCalls emptyWorld ++
        (if wantsObjectStorage None
         then [(randomUUID oversizeEnv (uuids emptyWorld),
                Text.base64 ("deflated:" ++ oversizeBody))]
         else []).
Proof.
  apply (oversize_body_is_cached oversizeEnv feedUrl None emptyWorld
           (feedAnswer oversizeBody) oversizeBody ("deflated:" ++ oversizeBody)).
  - reflexivity.
  - reflexivity.
  - exact oversizeBody_size.
  - reflexivity.
  - reflexivity.
  - intros e [=].
  - repeat split; intros; reflexivity.
Defined.

(** *** Failures *)

Definition flushFails : Env :=
  exampleEnv (Resolved (feedAnswer "<rss/>")) None (Some (Error "connection terminated")).

(** C5 as stated fails: a flush that throws in the [finally] rejects the
    call, after the request was persisted with status [OK]. *)
Lemma flush_failure_rejects :
  fst (fetchAndSaveResponse flushFails feedUrl withFlush emptyWorld)
    = Rejected (Error "connection terminated") /\
  map req_status
      (persistedRequests (snd (fetchAndSaveResponse flushFails feedUrl withFlush emptyWorld)))
    = [Some OK].
Proof. vm_compute. split; reflexivity. Qed.

Definition timeoutEnv : Env :=
  exampleEnv (Rejected (FetchError "request-timeout"
                                   "network timeout at: https://example.com/feed.xml"))
             None None.

Example timeout_is_recorded :
  statusIn (fetchAndSaveResponse timeoutEnv feedUrl withFlush emptyWorld)
    = Some FETCH_TIMEOUT /\
  flushes (snd (fetchAndSaveResponse timeoutEnv feedUrl withFlush emptyWorld)) = 1%nat.
Proof. vm_compute. split; reflexivity. Qed.

(** The hypotheses of C5 hold of a fetch that times out. *)
Lemma fetchAndSaveResponse_resolves_witness :
  exists result w',
    fetchAndSaveResponse timeoutEnv feedUrl withFlush emptyWorld = (Resolved result, w') /\
    persistedRequests w' = persistedRequests emptyWorld ++ [result_request result] /\
    url (result_request result) = feedUrl /\
    forall err,
      fetchFeedResponse timeoutEnv feedUrl (fetchOptionsFor timeoutEnv withFlush)
        = Rejected err ->
      req_status (result_request result)
        = Some (if isRequestTimeout err then FETCH_TIMEOUT else FETCH_ERROR) /\
      errorMessage (result_request result) = Some (message err) /\
      response (result_request result) = None /\
      responseText result = None.
Proof.
  apply (fetchAndSaveResponse_resolves timeoutEnv feedUrl withFlush emptyWorld).
  - intros q. reflexivity.
  - intros _. reflexivity.
Defined.

Definition cacheDown : Env :=
  exampleEnv (Resolved (feedAnswer "<rss/>")) (Some (Error "redis is down")) None.

(** The hypotheses of C10 hold of a fetch whose cache write fails. *)
Lemma cache_failure_not_fatal_witness :
  exists result w' p,
    fetchAndSaveResponse cacheDown feedUrl None emptyWorld = (Resolved result, w') /\
    req_status (result_request result) = Some (statusOf (feedAnswer "<rss/>")) /\
    (statusOf (feedAnswer "<rss/>") = OK \/
     statusOf (feedAnswer "<rss/>") = BAD_STATUS_CODE) /\
    errorMessage (result_request result) = None /\
    response (result_request result) = Some p /\
    statusCode p = Some (status (feedAnswer "<rss/>")) /\
    responseText result = Some (Some "<rss/>") /\
    persistedResponses w' = persistedResponses emptyWorld ++ [p] /\
    persistedRequests w' = persistedRequests emptyWorld ++ [result_request result] /\
    In (cacheFailureLog feedUrl) (logs w').
Proof.
  apply (cache_failure_not_fatal cacheDown feedUrl None emptyWorld
           (feedAnswer "<rss/>") "<rss/>" (Error "redis is down")).
  - reflexivity.
  - reflexivity.
  - reflexivity.
  - reflexivity.
  - right. exists "deflated:<rss/>". split; reflexivity.
  - repeat split; intros; reflexivity.
Defined.

Example cache_failure_run :
  statusIn (fetchAndSaveResponse cacheDown feedUrl None emptyWorld) = Some OK /\
  logs (snd (fetchAndSaveResponse cacheDown feedUrl None emptyWorld))
    = [LogDatadog "saving response" feedUrl 20; cacheFailureLog feedUrl].
Proof. vm_compute. split; reflexivity. Qed.


End FeedFetcherFacts.

(* ================================================================= *)
(** ** Delivery to Discord *)

Module DiscordMediumFacts.

Import DiscordMediumService.

(** The job [deliverArticleToWebhook] enqueues for one payload. *)
Definition webhookJob (env : Env) (article : Article) (wh : Webhook)
           (details : DeliveryDetails) (body : DiscordMessageApiPayload) : Job :=
  {| job_url := getWebhookApiUrl (webhook_id wh) (token wh);
     job_method := "POST";
     job_body := JSON_stringify env body;
     job_meta :=
       {| meta_id := deliveryId details;
          articleID := flattened_id article;
          feedURL := feed_url details;
          meta_channel := None;
          meta_webhookId := Some (webhook_id wh);
          feedId := feed_id details;
          meta_guildId := guildId (deliverySettings details);
          emitDeliveryResult := true |} |}.

(** All the jobs are handed to the producer, whichever of them it rejects. *)
Lemma promiseAll_enqueue env (job : DiscordMessageApiPayload -> Job) bodies :
  forall s,
    enqueueCalls (snd (promiseAll (fun b => producerEnqueue env (job b)) bodies s))
      = enqueueCalls s ++ map job bodies /\
    errorLogs (snd (promiseAll (fun b => producerEnqueue env (job b)) bodies s))
      = errorLogs s /\
    ((forall b, In b bodies -> enqueue env (job b) = None) ->
     exists us, fst (promiseAll (fun b => producerEnqueue env (job b)) bodies s)
                = Resolved us).
Proof.
  induction bodies as [|b bodies IH]; intros s.
  - simpl. rewrite app_nil_r. repeat split. intros _. exists []. reflexivity.
  - cbn [promiseAll map]. unfold producerEnqueue at 1 4 7. unfold bind, modify, throw, ret.
    set (s1 := {| enqueueCalls := enqueueCalls s ++ [job b]; errorLogs := errorLogs s |}).
    destruct (IH s1) as (Hc & Hl & Hr).
    destruct (enqueue env (job b)) as [e|] eqn:He.
    + destruct (promiseAll _ bodies s1) as [o s2]. simpl in *.
      rewrite Hc, Hl, <- app_assoc. repeat split.
      intros Hall. rewrite (Hall b (or_introl eq_refl)) in He. discriminate.
    + destruct (promiseAll _ bodies s1) as [[us|e] s2] eqn:Hrun; simpl in *;
        rewrite Hc, Hl, <- app_assoc; repeat split.
      * intros _. exists (tt :: us). reflexivity.
      * intros Hall. destruct Hr as (us & Hus); [|discriminate].
        intros b' Hb'. apply Hall. right. exact Hb'.
Qed.

Lemma payloads_without_split env article embeds_ content_ :
  List.length (generateApiPayloads env article embeds_ content_ None) = 1%nat.
Proof. reflexivity. Qed.

Lemma webhook_url_is_no_channel_url webhookId webhookToken channelId :
  getWebhookApiUrl webhookId webhookToken <> getChannelApiUrl channelId.
Proof.
  unfold getWebhookApiUrl, getChannelApiUrl, BASE_API_URL. simpl. discriminate.
Qed.

(** C2.  With neither a channel nor a webhook in the delivery settings,
    [deliverArticle] resolves with a [Failed] state of error code
    [NoChannelOrWebhook] that carries the delivery id and the medium id,
    and leaves the state as it was: the producer's [enqueue] is not called
    and nothing is logged. *)
Theorem deliverArticle_without_target env article details s :
  channel (deliverySettings details) = None ->
  webhook (deliverySettings details) = None ->
  deliverArticle env article details s =
  (Resolved {| state_id := deliveryId details;
               state_mediumId := mediumId details;
               state_status := Failed;
               errorCode := Some NoChannelOrWebhook;
               internalMessage := Some "No channel or webhook specified" |},
   s).
Proof.
  intros Hc Hw. unfold deliverArticle. rewrite Hc, Hw. reflexivity.
Qed.

(** C9.  With a webhook in the delivery settings, whether or not a channel
    is there too, [deliverArticle] hands the producer one job per payload,
    each of them for the webhook: posted to the webhook's URL, which is
    not the URL of the channel, tagged with the webhook's id and with no
    channel.  When the producer accepts them the delivery is pending. *)
Theorem deliverArticle_prefers_webhook env article details s wh :
  webhook (deliverySettings details) = Some wh ->
  let run := deliverArticle env article details s in
  let bodies :=
    generateApiPayloads env article (embeds (deliverySettings details))
                        (content (deliverySettings details)) None in
  let jobs := map (webhookJob env article wh details) bodies in
  enqueueCalls (snd run) = enqueueCalls s ++ jobs /\
  jobs <> [] /\
  Forall (fun j =>
            job_url j = getWebhookApiUrl (webhook_id wh) (token wh) /\
            meta_webhookId (job_meta j) = Some (webhook_id wh) /\
            meta_channel (job_meta j) = None /\
            forall ch, channel (deliverySettings details) = Some ch ->
                       job_url j <> getChannelApiUrl (channel_id ch)) jobs /\
  ((forall j, In j jobs -> enqueue env j = None) ->
   run = (Resolved {| state_id := deliveryId details;
                      state_mediumId := mediumId details;
                      state_status := PendingDelivery;
                      errorCode := None;
                      internalMessage := None |},
          {| enqueueCalls := enqueueCalls s ++ jobs; errorLogs := errorLogs s |})).
Proof.
  intros Hw run bodies jobs.
  assert (Hrun :
    run = tryCatch
            (deliverArticleToWebhook env article wh details)
            (fun err =>
               _ <- modify (fun s0 =>
                      {| enqueueCalls := enqueueCalls s0;
                         errorLogs :=
                           errorLogs s0 ++
                           [("Failed to deliver article " ++ flattened_id article ++
                             " to Discord webook/channel.")%string] |}) ;;
               ret {| state_id := deliveryId details;
                      state_mediumId := mediumId details;
                      state_status := Failed;
                      errorCode := Some Internal;
                      internalMessage := Some (message err) |}) s).
  { unfold run, deliverArticle. rewrite Hw.
    destruct wh; destruct (channel (deliverySettings details)); reflexivity. }
  destruct (promiseAll_enqueue env (webhookJob env article wh details) bodies s)
    as (Hcalls & Hlogs & Hres).
  fold jobs in Hcalls.
  assert (Hto :
    deliverArticleToWebhook env article wh details s =
    match promiseAll (fun b => producerEnqueue env (webhookJob env article wh details b))
                     bodies s with
    | (Resolved _, s') =>
        (Resolved {| state_id := deliveryId details;
                     state_mediumId := mediumId details;
                     state_status := PendingDelivery;
                     errorCode := None;
                     internalMessage := None |}, s')
    | (Rejected e, s') => (Rejected e, s')
    end) by reflexivity.
  split; [|split; [|split]].
  - rewrite Hrun. unfold tryCatch. rewrite Hto.
    destruct (promiseAll _ bodies s) as [[us|e] s']; simpl in *; exact Hcalls.
  - unfold jobs, bodies. discriminate.
  - apply Forall_forall. intros j Hj.
    apply in_map_iff in Hj as (b & <- & _). simpl.
    repeat split; auto. intros ch _. apply webhook_url_is_no_channel_url.
  - intros Hall. rewrite Hrun. unfold tryCatch. rewrite Hto.
    destruct Hres as (us & Hus).
    { intros b Hb. apply Hall. apply in_map. exact Hb. }
    destruct (promiseAll _ bodies s) as [o s']. simpl in *. subst o.
    f_equal. destruct s'. simpl in *. congruence.
Qed.

(** ** Concrete deliveries *)

Definition exampleEnv (rejects : option JsError) : Env :=
  {| replaceTemplateString := fun _ template => template;
     applySplit := fun text _ => [text];
     JSON_stringify := fun payload => p_content payload;
     toISOString := fun _ => "2023-11-14T22:13:20.000Z";
     dateNow := 1700000000000;
     enqueue := fun _ => rejects |}.

Definition exampleArticle : Article :=
  {| flattened_id := "article-1";
     flattened := [("id", "article-1"); ("title", "Hello")];
     raw_date := Some 1700000000000 |}.

Definition exampleDetails (ch : option Channel) (wh : option Webhook) : DeliveryDetails :=
  {| deliveryId := "delivery-1";
     mediumId := "medium-1";
     deliverySettings :=
       {| guildId := "guild-1"; channel := ch; webhook := wh;
          content := Some "{{title}}"; embeds := None; splitOptions := None |};
     feed_id := "feed-1";
     feed_url := "https://example.com/feed.xml" |}.

Definition exampleWebhook : Webhook :=
  {| webhook_id := "wh-1"; token := "secret"; name := Some "MonitoRSS";
     iconUrl := None |}.

Definition exampleChannel : Channel := {| channel_id := "ch-1" |}.

Definition idle : State := {| enqueueCalls := []; errorLogs := [] |}.

Example both_targets_run :
  let run := deliverArticle (exampleEnv None) exampleArticle
               (exampleDetails (Some exampleChannel) (Some exampleWebhook)) idle in
  option_map state_status
    (match fst run with Resolved st => Some st | Rejected _ => None end)
    = Some PendingDelivery /\
  map job_url (enqueueCalls (snd run))
    = ["https://discord.com/api/v10/webhooks/wh-1/secret"].
Proof. vm_compute. split; reflexivity. Qed.

Example channel_only_run :
  let run := deliverArticle (exampleEnv None) exampleArticle
               (exampleDetails (Some exampleChannel) None) idle in
  map job_url (enqueueCalls (snd run))
    = ["https://discord.com/api/v10/channels/ch-1/messages"].
Proof. vm_compute. reflexivity. Qed.

Example producer_rejects_run :
  let run := deliverArticle (exampleEnv (Some (Error "queue closed"))) exampleArticle
               (exampleDetails None (Some exampleWebhook)) idle in
  match fst run with
  | Resolved st => (state_status st, errorCode st, internalMessage st)
                   = (Failed, Some Internal, Some "queue closed")
  | Rejected _ => False
  end.
Proof. vm_compute. reflexivity. Qed.

(** The hypotheses of C2 hold of a delivery without target. *)
Lemma deliverArticle_without_target_witness :
  deliverArticle (exampleEnv None) exampleArticle (exampleDetails None None) idle =
  (Resolved {| state_id := "delivery-1";
               state_mediumId := "medium-1";
               state_status := Failed;
               errorCode := Some NoChannelOrWebhook;
               internalMessage := Some "No channel or webhook specified" |},
   idle).
Proof.
  apply (deliverArticle_without_target (exampleEnv None) exampleArticle
           (exampleDetails None None) idle); reflexivity.
Defined.

(** The hypothesis of C9 holds of a delivery with both targets. *)
Lemma deliverArticle_prefers_webhook_witness :
  enqueueCalls
    (snd (deliverArticle (exampleEnv None) exampleArticle
            (exampleDetails (Some exampleChannel) (Some exampleWebhook)) idle))
  = enqueueCalls idle ++
    map (webhookJob (exampleEnv None) exampleArticle exampleWebhook
           (exampleDetails (Some exampleChannel) (Some exampleWebhook)))
        (generateApiPayloads (exampleEnv None) exampleArticle None (Some "{{title}}") None).
Proof.
  apply (deliverArticle_prefers_webhook (exampleEnv None) exampleArticle
           (exampleDetails (Some exampleChannel) (Some exampleWebhook)) idle
           exampleWebhook).
  reflexivity.
Defined.

End DiscordMediumFacts.

(* ================================================================= *)
(** * Further properties

    What follows covers more of the three services than the specification
    states: how the refresh cycle, the fetcher and the delivery behave
    when a collaborator fails, the invariants they keep, and the methods
    that read back what a fetch recorded ([countRequests],
    [getLatestRequestHeaders], [getLatestRequest]) or deliver a test
    article ([deliverTestArticle]). *)

(* ================================================================= *)
(** ** More on the refresh cycle *)

Module ScheduleHandlerMore.

Import ScheduleHandlerService ScheduleHandlerFacts.

(** The handler calls made on a sequence of batches by a caller that stops
    at the first rejection, and that rejection. *)
Fixpoint callsUntilRejection (urlsHandler : list UrlEntry -> option JsError)
         (batches : list (list UrlEntry)) : list (list UrlEntry) * option JsError :=
  match batches with
  | [] => ([], None)
  | b :: batches' =>
      match urlsHandler b with
      | Some e => ([b], Some e)
      | None =>
          let (calls, r) := callsUntilRejection urlsHandler batches' in
          (b :: calls, r)
      end
  end.

Lemma callsUntilRejection_app h bs1 bs2 :
  callsUntilRejection h (bs1 ++ bs2) =
  match snd (callsUntilRejection h bs1) with
  | Some e => callsUntilRejection h bs1
  | None => (fst (callsUntilRejection h bs1) ++ fst (callsUntilRejection h bs2),
             snd (callsUntilRejection h bs2))
  end.
Proof.
  induction bs1 as [|b bs1 IH]; simpl.
  - destruct (callsUntilRejection h bs2); reflexivity.
  - destruct (h b); [reflexivity|]. rewrite IH.
    destruct (callsUntilRejection h bs1) as [c [e|]]; simpl; [reflexivity|].
    destruct (callsUntilRejection h bs2); reflexivity.
Qed.

Lemma callsUntilRejection_prefix h bs :
  exists later, bs = fst (callsUntilRejection h bs) ++ later.
Proof.
  induction bs as [|b bs [later IH]]; simpl.
  - exists []. reflexivity.
  - destruct (h b).
    + exists bs. reflexivity.
    + destruct (callsUntilRejection h bs) as [c r]. simpl in *.
      exists later. rewrite IH at 1. reflexivity.
Qed.

(** Every sequence of entries is some full batches and a shorter rest. *)
Lemma entries_decompose urlsToDebug cursor urlBatch :
  (List.length urlBatch < 25)%nat ->
  exists full rest,
    List.concat full ++ rest = urlBatch ++ entriesOf urlsToDebug cursor /\
    Forall (fun b => List.length b = 25%nat) full /\
    (List.length rest < 25)%nat.
Proof.
  intros Hlen.
  destruct (forAwait_spec (fun _ => None) urlsToDebug (fun _ => eq_refl) cursor urlBatch
              {| feeds := []; trace := [] |} Hlen)
    as (t & rest & _ & Hc & Hf & Hr & _).
  exists (dispatched t), rest. auto.
Qed.

(** The [for await] loop under any handler: it stops at the first batch
    the handler rejects. *)
Lemma forAwait_any urlsHandler urlsToDebug cursor :
  forall urlBatch s,
    (List.length urlBatch < 25)%nat ->
    exists t full rest,
      List.concat full ++ rest = urlBatch ++ entriesOf urlsToDebug cursor /\
      Forall (fun b => List.length b = 25%nat) full /\
      (List.length rest < 25)%nat /\
      snd (forAwait urlsHandler urlsToDebug cursor urlBatch s)
        = {| feeds := feeds s; trace := trace s ++ t |} /\
      dispatched t = fst (callsUntilRejection urlsHandler full) /\
      fst (forAwait urlsHandler urlsToDebug cursor urlBatch s)
        = match snd (callsUntilRejection urlsHandler full) with
          | Some e => Rejected e
          | None => Resolved rest
          end.
Proof.
  induction cursor as [|_id cursor IH]; intros urlBatch s Hlen.
  - exists [EvCursorEnd], [], urlBatch. rewrite forAwait_nil.
    unfold entriesOf. simpl. rewrite app_nil_r. repeat split; auto.
  - destruct (truthy _id) eqn:Htr.
    + destruct _id as [[|c u]|]; try discriminate.
      rewrite forAwait_url. cbv zeta.
      set (e := entryOf urlsToDebug (String c u)).
      set (nx := EvCursorNext (Some (String c u))).
      assert (Hent : entriesOf urlsToDebug (Some (String c u) :: cursor)
                     = e :: entriesOf urlsToDebug cursor) by reflexivity.
      destruct (Nat.eqb (List.length (urlBatch ++ [e])) 25) eqn:Hfull.
      * apply Nat.eqb_eq in Hfull.
        destruct (urlsHandler (urlBatch ++ [e])) as [err|] eqn:Hh.
        -- destruct (entries_decompose urlsToDebug cursor [])
             as (full & rest & Hc & Hf & Hr); [simpl; lia|].
           exists [nx; EvUrlsHandler (urlBatch ++ [e])], ((urlBatch ++ [e]) :: full), rest.
           simpl. rewrite Hh. simpl. rewrite Hent. simpl in Hc.
           repeat split; auto.
           ++ rewrite <- !app_assoc. simpl. rewrite Hc. reflexivity.
           ++ unfold logged. simpl. rewrite <- app_assoc. reflexivity.
        -- destruct (IH [] (logged (EvUrlsHandler (urlBatch ++ [e])) (logged nx s)))
             as (t & full & rest & Hc & Hf & Hr & Hs & Hd & Ho); [simpl; lia|].
           exists (nx :: EvUrlsHandler (urlBatch ++ [e]) :: t), ((urlBatch ++ [e]) :: full), rest.
           simpl. rewrite Hh. rewrite Hent. simpl in Hc.
           destruct (callsUntilRejection urlsHandler full) as [calls r] eqn:Hcalls.
           simpl in *. repeat split; auto.
           ++ rewrite <- !app_assoc. simpl. rewrite Hc. reflexivity.
           ++ rewrite Hs. unfold logged. simpl. rewrite <- !app_assoc. reflexivity.
           ++ rewrite Hd. reflexivity.
      * apply Nat.eqb_neq in Hfull.
        destruct (IH (urlBatch ++ [e]) (logged nx s))
          as (t & full & rest & Hc & Hf & Hr & Hs & Hd & Ho).
        { rewrite length_app in *. simpl in *. lia. }
        exists (nx :: t), full, rest. rewrite Hent.
        repeat split; auto.
        -- rewrite Hc, <- app_assoc. reflexivity.
        -- rewrite Hs. unfold logged. simpl. rewrite <- app_assoc. reflexivity.
    + rewrite forAwait_skip by exact Htr.
      destruct (IH urlBatch (logged (EvCursorNext _id) s) Hlen)
        as (t & full & rest & Hc & Hf & Hr & Hs & Hd & Ho).
      exists (EvCursorNext _id :: t), full, rest.
      assert (Hent : entriesOf urlsToDebug (_id :: cursor) = entriesOf urlsToDebug cursor).
      { unfold entriesOf. destruct _id as [[|c u]|]; try discriminate; reflexivity. }
      rewrite Hent. repeat split; auto.
      rewrite Hs. unfold logged. simpl. rewrite <- app_assoc. reflexivity.
Qed.

End ScheduleHandlerMore.


(* ================================================================= *)
(** ** The refresh cycle under failing collaborators *)

Module ScheduleHandlerCycle.

Import ScheduleHandlerService ScheduleHandlerFacts ScheduleHandlerMore.

(** The queries of the bulk updates issued, in call order. *)
Fixpoint issued (t : list Event) : list UpdateQuery :=
  match t with
  | [] => []
  | EvUpdateMany q _ :: t' => q :: issued t'
  | _ :: t' => issued t'
  end.






(** The two syncs of a cycle under a working database. *)
Lemma syncs_resolve env benefits s :
  (forall q, updateManyError env q = None) ->
  exists s2,
    (_ <- syncRefreshRates env benefits ;; syncMaxDailyArticles env benefits) s
      = (Resolved tt, s2) /\
    dispatched (trace s2) = dispatched (trace s).
Proof.
  intros Hupd.
  pose proof (syncField_resolves env Hupd RefreshRateSeconds refreshRateSeconds
                (defaultRefreshRateSeconds env) benefits s) as H1.
  cbv zeta in H1. fold (syncRefreshRates env benefits) in H1.
  remember (runQueries _ (feeds s)) as r1 eqn:Er1.
  set (s1 := {| feeds := fst r1; trace := trace s ++ snd r1 |}) in *.
  pose proof (syncField_resolves env Hupd MaxDailyArticles maxDailyArticles
                (maxDailyArticlesDefault env) benefits s1) as H2.
  cbv zeta in H2. fold (syncMaxDailyArticles env benefits) in H2.
  remember (runQueries _ (feeds s1)) as r2 eqn:Er2.
  exists {| feeds := fst r2; trace := trace s1 ++ snd r2 |}. split.
  - unfold bind. rewrite H1, H2. reflexivity.
  - unfold s1. cbn [trace]. rewrite !dispatched_app.
    rewrite (updates_not_dispatched (snd r1)), (updates_not_dispatched (snd r2)).
    + rewrite !app_nil_r. reflexivity.
    + subst r2. apply runQueries_updates.
    + subst r1. apply runQueries_updates.
Qed.

(** One cycle under any handler: the handler is called on the batches in
    order until it rejects one. *)
Lemma cycle_calls env urlsHandler rate benefits s :
  getBenefitsOfAllDiscordUsers env = Resolved benefits ->
  databaseUp env ->
  exists s2 t,
    let entries :=
      entriesOf (map url (filter debug (feeds s2)))
                (getUrlsQueryMatchingRefreshRate env rate (feeds s2)) in
    let batches := batchesOf (List.length entries) 25 entries in
    (_ <- syncRefreshRates env benefits ;; syncMaxDailyArticles env benefits)
      (logged EvGetBenefits s) = (Resolved tt, s2) /\
    snd (handleRefreshRate env urlsHandler rate s)
      = {| feeds := feeds s2; trace := trace s2 ++ t |} /\
    dispatched (trace s2) = dispatched (trace s) /\
    dispatched t = fst (callsUntilRejection urlsHandler batches) /\
    fst (handleRefreshRate env urlsHandler rate s)
      = match snd (callsUntilRejection urlsHandler batches) with
        | Some e => Rejected e
        | None => Resolved tt
        end.
Proof.
  intros Hben (Hupd & Hfind & Hagg).
  destruct (syncs_resolve env benefits (logged EvGetBenefits s) Hupd) as (s2 & Hsync & Hd2).
  assert (Hd2' : dispatched (trace s2) = dispatched (trace s)).
  { rewrite Hd2. unfold logged. cbn [trace]. rewrite dispatched_app. simpl.
    apply app_nil_r. }
  clear Hd2. rename Hd2' into Hd2.
  exists s2.
  destruct (forAwait_any urlsHandler (map url (filter debug (feeds s2)))
              (getUrlsQueryMatchingRefreshRate env rate (feeds s2)) []
              (logged (EvAggregate rate) (logged EvFindDebug s2)))
    as (t & full & rest & Hc & Hf & Hr & Hs & Hd & Ho); [simpl; lia|].
  cbn [app] in Hc.
  pose proof (batches_chunk full rest _ Hc Hf Hr) as Hcut.
  assert (Hrun : handleRefreshRate env urlsHandler rate s =
    match forAwait urlsHandler (map url (filter debug (feeds s2)))
            (getUrlsQueryMatchingRefreshRate env rate (feeds s2)) []
            (logged (EvAggregate rate) (logged EvFindDebug s2)) with
    | (Rejected e, s4) => (Rejected e, s4)
    | (Resolved urlBatch, s4) =>
        if Nat.ltb 0 (List.length urlBatch)
        then callUrlsHandler urlsHandler urlBatch s4
        else (Resolved tt, s4)
    end).
  { rewrite handleRefreshRate_unfold, Hben.
    unfold bind in Hsync.
    destruct (syncRefreshRates env benefits _) as [[[]|e] s1]; [|discriminate].
    rewrite Hsync, Hfind. cbv zeta. rewrite Hagg. reflexivity. }
  rewrite Hrun. cbv zeta. rewrite <- Hcut. rewrite callsUntilRejection_app.
  destruct (forAwait _ _ _ _ _) as [o s4]. simpl in Hs, Ho. subst s4 o.
  destruct (callsUntilRejection urlsHandler full) as [calls [e|]] eqn:Hcalls; cbn [fst snd] in *.
  - exists ([EvFindDebug; EvAggregate rate] ++ t).
    split; [exact Hsync|]. split.
    { unfold logged. simpl. rewrite <- !app_assoc. reflexivity. }
    split; [exact Hd2|]. split; [exact Hd|reflexivity].
  - destruct rest as [|x rest].
    + exists ([EvFindDebug; EvAggregate rate] ++ t).
      split; [exact Hsync|]. split.
      { unfold logged. simpl. rewrite <- !app_assoc. reflexivity. }
      split; [exact Hd2|]. simpl. rewrite app_nil_r. split; [exact Hd|reflexivity].
    + cbn [List.length Nat.ltb Nat.leb]. rewrite callUrlsHandler_run.
      exists ([EvFindDebug; EvAggregate rate] ++ t ++ [EvUrlsHandler (x :: rest)]).
      split; [exact Hsync|].
      cbn [callsUntilRejection].
      destruct (urlsHandler (x :: rest)) as [e|]; cbn [fst snd].
      * split. { unfold logged. simpl. rewrite <- !app_assoc. reflexivity. }
        split; [exact Hd2|]. split; [|reflexivity].
        cbn [app dispatched]. rewrite dispatched_app, Hd. reflexivity.
      * split. { unfold logged. simpl. rewrite <- !app_assoc. reflexivity. }
        split; [exact Hd2|]. split; [|reflexivity].
        cbn [app dispatched]. rewrite dispatched_app, Hd. reflexivity.
Qed.

(** X2.  A rejecting handler.  In a cycle whose benefits lookup and database
    calls succeed, the handler is called on the batches of 25 in cursor
    order up to and including the first batch it rejects; the cycle then
    rejects with that error and no later batch is handed over.  When the
    handler accepts every batch the cycle resolves. *)
Theorem handleRefreshRate_stops_at_rejection env urlsHandler rate benefits s :
  getBenefitsOfAllDiscordUsers env = Resolved benefits ->
  databaseUp env ->
  exists s2 t,
    let entries :=
      entriesOf (map url (filter debug (feeds s2)))
                (getUrlsQueryMatchingRefreshRate env rate (feeds s2)) in
    let batches := batchesOf (List.length entries) 25 entries in
    (_ <- syncRefreshRates env benefits ;; syncMaxDailyArticles env benefits)
      (logged EvGetBenefits s) = (Resolved tt, s2) /\
    snd (handleRefreshRate env urlsHandler rate s)
      = {| feeds := feeds s2; trace := trace s2 ++ t |} /\
    (forall accepted b e later,
        batches = accepted ++ b :: later ->
        (forall a, In a accepted -> urlsHandler a = None) ->
        urlsHandler b = Some e ->
        fst (handleRefreshRate env urlsHandler rate s) = Rejected e /\
        dispatched t = accepted ++ [b]) /\
    ((forall b, In b batches -> urlsHandler b = None) ->
     fst (handleRefreshRate env urlsHandler rate s) = Resolved tt /\
     dispatched t = batches).
Proof.
  intros Hben Hdb.
  destruct (cycle_calls env urlsHandler rate benefits s Hben Hdb)
    as (s2 & t & Hsync & Hs & _ & Hd & Ho).
  exists s2, t. cbv zeta in *.
  set (batches := batchesOf _ _ _) in *.
  split; [exact Hsync|]. split; [exact Hs|]. split.
  - intros accepted b e later Hsplit Hacc Hb.
    assert (Hcalls : callsUntilRejection urlsHandler batches = (accepted ++ [b], Some e)).
    { rewrite Hsplit. clear - Hacc Hb.
      induction accepted as [|a accepted IH]; simpl.
      - rewrite Hb. reflexivity.
      - rewrite (Hacc a) by (left; reflexivity).
        rewrite IH; [reflexivity|]. intros a' Ha'. apply Hacc. right. exact Ha'. }
    rewrite Hcalls in Hd, Ho. auto.
  - intros Hall.
    assert (Hcalls : callsUntilRejection urlsHandler batches = (batches, None)).
    { clear - Hall. induction batches as [|a batches IH]; simpl; [reflexivity|].
      rewrite (Hall a) by (left; reflexivity).
      rewrite IH; [reflexivity|]. intros a' Ha'. apply Hall. right. exact Ha'. }
    rewrite Hcalls in Hd, Ho. auto.
Qed.

Lemma option_string_eqb_eq a b : option_string_eqb a b = true <-> a = b.
Proof.
  destruct a as [x|], b as [y|]; simpl; try (split; [discriminate | congruence]).
  - rewrite String.eqb_eq. split; congruence.
  - split; reflexivity.
Qed.

Lemma seen_In x seen : existsb (option_string_eqb x) seen = true <-> In x seen.
Proof.
  rewrite existsb_exists. split.
  - intros (y & Hy & E). apply option_string_eqb_eq in E. subst y. exact Hy.
  - intros H. exists x. split; [exact H | apply option_string_eqb_eq; reflexivity].
Qed.

(** [$group] by url: one document per url not seen before. *)
Lemma groupByUrl_spec docs :
  forall seen,
    NoDup (groupByUrl docs seen) /\
    (forall x, In x (groupByUrl docs seen) <-> In x (map url docs) /\ ~ In x seen).
Proof.
  induction docs as [|d docs IH]; intros seen; simpl.
  - split; [constructor|]. intros x. tauto.
  - destruct (existsb (option_string_eqb (url d)) seen) eqn:E.
    + apply seen_In in E. destruct (IH seen) as [Hn Hi]. split; [exact Hn|].
      intros x. rewrite Hi. split; [tauto|].
      intros [[<-|H] Hs]; [contradiction | tauto].
    + assert (Hd : ~ In (url d) seen).
      { intros H. apply seen_In in H. congruence. }
      destruct (IH (url d :: seen)) as [Hn Hi]. split.
      * constructor; [|exact Hn]. rewrite Hi. simpl. tauto.
      * intros x. simpl. rewrite Hi. simpl.
        destruct (option_string_eqb (url d) x) eqn:Ex.
        -- apply option_string_eqb_eq in Ex. subst x. tauto.
        -- assert (url d <> x).
           { intros H. apply option_string_eqb_eq in H. congruence. }
           tauto.
Qed.

Lemma urlsOf_In u cursor : In u (urlsOf cursor) <-> In (Some u) cursor /\ u <> "".
Proof.
  induction cursor as [|[[|c v]|] cursor IH]; simpl.
  - tauto.
  - rewrite IH. split; [tauto|]. intros [[E|H] Hu]; [congruence | tauto].
  - rewrite IH. split.
    + intros [<-|H]; [split; [left; reflexivity | discriminate] | tauto].
    + intros [[E|H] Hu]; [left; congruence | tauto].
  - rewrite IH. split; [tauto|]. intros [[E|H] Hu]; [discriminate | tauto].
Qed.

Lemma urlsOf_NoDup cursor : NoDup cursor -> NoDup (urlsOf cursor).
Proof.
  induction 1 as [|x cursor Hx Hn IH]; simpl; [constructor|].
  destruct x as [[|c v]|]; try exact IH.
  constructor; [|exact IH]. rewrite urlsOf_In. tauto.
Qed.

Lemma entry_urls urlsToDebug cursor :
  map entry_url (entriesOf urlsToDebug cursor) = urlsOf cursor.
Proof.
  unfold entriesOf. rewrite map_map. simpl. apply map_id.
Qed.

(** The batches of a cycle are its entries, cut. *)
Lemma concat_batches urlsToDebug cursor :
  let entries := entriesOf urlsToDebug cursor in
  List.concat (batchesOf (List.length entries) 25 entries) = entries.
Proof.
  cbv zeta.
  destruct (entries_decompose urlsToDebug cursor []) as (full & rest & Hc & Hf & Hr);
    [simpl; lia|].
  cbn [app] in Hc. rewrite <- (batches_chunk full rest _ Hc Hf Hr), <- Hc.
  rewrite concat_app. destruct rest; simpl; rewrite ?app_nil_r; reflexivity.
Qed.

(** X3.  What is handed to the handler.  In a cycle whose benefits lookup
    and database calls succeed, whatever the handler answers: no URL is
    handed over twice, every URL handed over is the non-empty url of a feed
    that the due-feed stages selected from the collection as the two syncs
    left it, and an entry is marked for object storage exactly when some
    feed in debug mode has that url.  When the handler accepts every batch,
    every non-empty url selected is handed over. *)
Theorem handleRefreshRate_urls_once env urlsHandler rate benefits s :
  getBenefitsOfAllDiscordUsers env = Resolved benefits ->
  databaseUp env ->
  exists s2 t,
    let sent := List.concat (dispatched t) in
    (_ <- syncRefreshRates env benefits ;; syncMaxDailyArticles env benefits)
      (logged EvGetBenefits s) = (Resolved tt, s2) /\
    snd (handleRefreshRate env urlsHandler rate s)
      = {| feeds := feeds s2; trace := trace s2 ++ t |} /\
    NoDup (map entry_url sent) /\
    (forall e, In e sent ->
       entry_url e <> "" /\
       (exists d, In d (commonFeedAggregateStages env rate (feeds s2)) /\
                  url d = Some (entry_url e)) /\
       (saveToObjectStorage e = true <->
        exists d, In d (feeds s2) /\ debug d = true /\ url d = Some (entry_url e))) /\
    ((forall batch, urlsHandler batch = None) ->
     forall d u, In d (commonFeedAggregateStages env rate (feeds s2)) ->
                 url d = Some u -> u <> "" ->
                 In u (map entry_url sent)).
Proof.
  intros Hben Hdb.
  destruct (cycle_calls env urlsHandler rate benefits s Hben Hdb)
    as (s2 & t & Hsync & Hs & _ & Hd & _).
  exists s2, t. cbv zeta in *.
  set (dbg := map url (filter debug (feeds s2))) in *.
  set (cursor := getUrlsQueryMatchingRefreshRate env rate (feeds s2)) in *.
  set (entries := entriesOf dbg cursor) in *.
  destruct (callsUntilRejection_prefix urlsHandler
              (batchesOf (List.length entries) 25 entries)) as [later Hpre].
  rewrite <- Hd in Hpre.
  assert (Hent : entries = List.concat (dispatched t) ++ List.concat later).
  { rewrite <- concat_app, <- Hpre. symmetry. apply concat_batches. }
  destruct (groupByUrl_spec (commonFeedAggregateStages env rate (feeds s2)) [])
    as [Hnd Hin]. fold (getUrlsQueryMatchingRefreshRate env rate (feeds s2)) in Hnd, Hin.
  fold cursor in Hnd, Hin.
  assert (Hurls : NoDup (map entry_url entries)).
  { unfold entries. rewrite entry_urls. apply urlsOf_NoDup. exact Hnd. }
  split; [exact Hsync|]. split; [exact Hs|]. split; [|split].
  - rewrite Hent, map_app in Hurls. apply NoDup_app_remove_r in Hurls. exact Hurls.
  - intros e He.
    assert (He' : In e entries) by (rewrite Hent; apply in_or_app; left; exact He).
    unfold entries, entriesOf in He'. apply in_map_iff in He' as (u & <- & Hu).
    apply urlsOf_In in Hu as [Hu Hne]. apply Hin in Hu as [Hu _].
    apply in_map_iff in Hu as (d & Hd1 & Hd2).
    simpl. split; [exact Hne|]. split; [exists d; auto|].
    rewrite seen_In. unfold dbg. rewrite in_map_iff. split.
    + intros (d' & E & Hd'). apply filter_In in Hd' as [? ?]. exists d'. auto.
    + intros (d' & ? & ? & ?). exists d'. split; [assumption|].
      apply filter_In. auto.
  - intros Hall d u Hd1 Hd2 Hne.
    assert (Hcalls : forall bs, fst (callsUntilRejection urlsHandler bs) = bs).
    { induction bs as [|b bs IH]; simpl; [reflexivity|]. rewrite Hall.
      destruct (callsUntilRejection urlsHandler bs). simpl in *. congruence. }
    rewrite Hcalls in Hd. rewrite Hd.
    unfold entries at 1 2. rewrite concat_batches. fold entries.
    unfold entries. rewrite entry_urls. apply urlsOf_In. split; [|exact Hne].
    apply Hin. split; [|intros []]. apply in_map_iff. exists d. auto.
Qed.

(** X4.  [syncMaxDailyArticles].  For every entitlement snapshot that lists
    no supporter under two different daily limits, when the bulk updates
    succeed, one run changes nothing but [maxDailyArticles], brings every
    feed of a supporter to the supporter's limit and every other feed to
    the default limit, and a second run on the same snapshot matches no
    document and leaves the collection as it is. *)
Theorem syncMaxDailyArticles_converges env benefits s :
  (forall q, updateManyError env q = None) ->
  (forall a b,
      In a benefits -> In b benefits ->
      isSupporter a = true -> isSupporter b = true ->
      discordUserId a = discordUserId b -> maxDailyArticles a = maxDailyArticles b) ->
  exists s1 t1 t2,
    syncMaxDailyArticles env benefits s = (Resolved tt, s1) /\
    trace s1 = trace s ++ t1 /\
    map url (feeds s1) = map url (feeds s) /\
    map user_discordUserId (feeds s1) = map user_discordUserId (feeds s) /\
    map feed_refreshRateSeconds (feeds s1) = map feed_refreshRateSeconds (feeds s) /\
    map debug (feeds s1) = map debug (feeds s) /\
    (forall d, In d (feeds s1) ->
       (forall b, In b benefits -> isSupporter b = true ->
                  discordUserId b = user_discordUserId d ->
                  feed_maxDailyArticles d = Some (maxDailyArticles b)) /\
       ((forall b, In b benefits -> isSupporter b = true ->
                   discordUserId b <> user_discordUserId d) ->
        feed_maxDailyArticles d = Some (maxDailyArticlesDefault env))) /\
    syncMaxDailyArticles env benefits s1 =
      (Resolved tt, {| feeds := feeds s1; trace := trace s1 ++ t2 |}) /\
    Forall (fun m => m = Some 0%nat) (matchedCounts t2).
Proof.
  intros Hup Hcons.
  destruct (syncField_converges env MaxDailyArticles maxDailyArticles
              (maxDailyArticlesDefault env) benefits s Hup Hcons)
    as (s1 & t1 & t2 & H1 & Ht & Hframe & Hset & H2 & _ & _ & Hzero).
  exists s1, t1, t2.
  assert (Hproj : forall (A : Type) (p : UserFeed -> A)
                         (p' : option string * string * bool * option Z -> A),
            (forall d, p d = p' (frame MaxDailyArticles d)) ->
            map p (feeds s1) = map p (feeds s)).
  { intros A p p' Hp.
    rewrite !(map_ext p (fun d => p' (frame MaxDailyArticles d)) Hp).
    rewrite <- !(map_map (frame MaxDailyArticles) p'), Hframe. reflexivity. }
  split; [exact H1|]. split; [exact Ht|].
  split; [apply (Hproj _ _ (fun x => fst (fst (fst x)))); reflexivity|].
  split; [apply (Hproj _ _ (fun x => snd (fst (fst x)))); reflexivity|].
  split; [apply (Hproj _ _ (fun x => snd x)); reflexivity|].
  split; [apply (Hproj _ _ (fun x => snd (fst x))); reflexivity|].
  split; [exact Hset|]. split; [exact H2 | exact Hzero].
Qed.

(** A handler that refuses a full batch. *)
Definition refusingFull (batch : list UrlEntry) : option JsError :=
  if Nat.eqb (List.length batch) 25 then Some (Error "broker unreachable") else None.

(** Of the thirty due URLs of the example only the first 25 are handed
    over when the handler refuses the first batch. *)
Example refused_batch_run :
  let run := handleRefreshRate (exampleEnv exampleBenefits) refusingFull 120 exampleState in
  fst run = Rejected (Error "broker unreachable") /\
  map (map entry_url) (dispatched (trace (snd run))) = [map exampleUrl (seq 0 25)].
Proof. vm_compute. split; reflexivity. Qed.

Lemma handleRefreshRate_stops_at_rejection_witness :
  exists s2 t,
    let env := exampleEnv exampleBenefits in
    let entries :=
      entriesOf (map url (filter debug (feeds s2)))
                (getUrlsQueryMatchingRefreshRate env 120 (feeds s2)) in
    let batches := batchesOf (List.length entries) 25 entries in
    (_ <- syncRefreshRates env exampleBenefits ;; syncMaxDailyArticles env exampleBenefits)
      (logged EvGetBenefits exampleState) = (Resolved tt, s2) /\
    snd (handleRefreshRate env refusingFull 120 exampleState)
      = {| feeds := feeds s2; trace := trace s2 ++ t |} /\
    (forall accepted b e later,
        batches = accepted ++ b :: later ->
        (forall a, In a accepted -> refusingFull a = None) ->
        refusingFull b = Some e ->
        fst (handleRefreshRate env refusingFull 120 exampleState) = Rejected e /\
        dispatched t = accepted ++ [b]) /\
    ((forall b, In b batches -> refusingFull b = None) ->
     fst (handleRefreshRate env refusingFull 120 exampleState) = Resolved tt /\
     dispatched t = batches).
Proof.
  apply (handleRefreshRate_stops_at_rejection (exampleEnv exampleBenefits) refusingFull 120
           exampleBenefits exampleState).
  - reflexivity.
  - repeat split; reflexivity.
Defined.

Lemma handleRefreshRate_urls_once_witness :
  exists s2 t,
    let env := exampleEnv exampleBenefits in
    let sent := List.concat (dispatched t) in
    (_ <- syncRefreshRates env exampleBenefits ;; syncMaxDailyArticles env exampleBenefits)
      (logged EvGetBenefits exampleState) = (Resolved tt, s2) /\
    snd (handleRefreshRate env refusingFull 120 exampleState)
      = {| feeds := feeds s2; trace := trace s2 ++ t |} /\
    NoDup (map entry_url sent) /\
    (forall e, In e sent ->
       entry_url e <> "" /\
       (exists d, In d (commonFeedAggregateStages env 120 (feeds s2)) /\
                  url d = Some (entry_url e)) /\
       (saveToObjectStorage e = true <->
        exists d, In d (feeds s2) /\ debug d = true /\ url d = Some (entry_url e))) /\
    ((forall batch, refusingFull batch = None) ->
     forall d u, In d (commonFeedAggregateStages env 120 (feeds s2)) ->
                 url d = Some u -> u <> "" ->
                 In u (map entry_url sent)).
Proof.
  apply (handleRefreshRate_urls_once (exampleEnv exampleBenefits) refusingFull 120
           exampleBenefits exampleState).
  - reflexivity.
  - repeat split; reflexivity.
Defined.

Lemma syncMaxDailyArticles_converges_witness :
  exists s1 t1 t2,
    let env := exampleEnv exampleBenefits in
    syncMaxDailyArticles env exampleBenefits exampleState = (Resolved tt, s1) /\
    trace s1 = trace exampleState ++ t1 /\
    map url (feeds s1) = map url (feeds exampleState) /\
    map user_discordUserId (feeds s1) = map user_discordUserId (feeds exampleState) /\
    map feed_refreshRateSeconds (feeds s1)
      = map feed_refreshRateSeconds (feeds exampleState) /\
    map debug (feeds s1) = map debug (feeds exampleState) /\
    (forall d, In d (feeds s1) ->
       (forall b, In b exampleBenefits -> isSupporter b = true ->
                  discordUserId b = user_discordUserId d ->
                  feed_maxDailyArticles d = Some (maxDailyArticles b)) /\
       ((forall b, In b exampleBenefits -> isSupporter b = true ->
                   discordUserId b <> user_discordUserId d) ->
        feed_maxDailyArticles d = Some (maxDailyArticlesDefault env))) /\
    syncMaxDailyArticles env exampleBenefits s1 =
      (Resolved tt, {| feeds := feeds s1; trace := trace s1 ++ t2 |}) /\
    Forall (fun m => m = Some 0%nat) (matchedCounts t2).
Proof.
  apply (syncMaxDailyArticles_converges (exampleEnv exampleBenefits) exampleBenefits
           exampleState).
  - reflexivity.
  - intros a b [<-|[<-|[]]] [<-|[<-|[]]]; simpl; intros; congruence.
Defined.

(** A database that rejects every update that sets the value 120. *)
Definition rejecting120 : Env :=
  {| getBenefitsOfAllDiscordUsers := Resolved exampleBenefits;
     maxDailyArticlesDefault := 50;
     defaultRefreshRateSeconds := 600;
     commonFeedAggregateStages := commonFeedAggregateStages (exampleEnv exampleBenefits);
     updateManyError :=
       fun q => if Z.eqb (q_set q) 120 then Some (Error "write conflict") else None;
     findError := None;
     aggregateError := None |}.

(** With the update of the one supporter group rejected, the cycle stops
    in [syncRefreshRates]: one update was issued, the reset to the default
    was not, and the feed still at a supporter's rate keeps it. *)
Example rejected_update_run :
  let run := handleRefreshRate rejecting120 (fun _ => None) 120 exampleState in
  fst run = Rejected (Error "write conflict") /\
  matchedCounts (trace (snd run)) = [None] /\
  map q_set (issued (trace (snd run))) = [120] /\
  dispatched (trace (snd run)) = [] /\
  feeds (snd run) = feeds exampleState.
Proof. vm_compute. repeat split; reflexivity. Qed.

End ScheduleHandlerCycle.


(* ================================================================= *)
(** ** The fetcher under failing collaborators *)

Module FeedFetcherRuns.

Import FeedFetcherService AsyncLogic FeedFetcherFacts.

#[local] Arguments Text.sha1Hex : simpl never.
#[local] Arguments Text.base64 : simpl never.
#[local] Arguments Text.byteLength : simpl never.
#[local] Arguments String.append : simpl never.

Lemma wp_either {S A} (c : Async S A) (P : S -> Prop) s :
  wp c (fun _ => P) (fun _ => P) s -> P (snd (c s)).
Proof. unfold wp. destruct (c s) as [[a|e] s']; exact (fun H => H). Qed.

(** *** Properties of the stores that a fetch keeps *)

Section Steady.

Variable env : Env.
Variable url_ : string.
Variable options : option Options.
Variable w : World.

(** A property of the world that holds when the call starts, that logging
    and persisting keep, and that the innermost [try] establishes from the
    world of the start. *)
Variable JW : World -> Prop.
Hypothesis J_start : JW w.
Hypothesis J_log : forall l w', JW w' -> JW (addLog l w').
Hypothesis J_response : forall p w', JW w' -> JW (addResponse p w').
Hypothesis J_request : forall q w', JW w' -> JW (addRequest q w').
Hypothesis J_save :
  forall res t r,
    fetchFeedResponse env url_ (fetchOptionsFor env options) = Resolved res ->
    decodeText env res = Resolved t ->
    world r = w ->
    wp (saveBody env url_ options t)
       (fun _ r' => JW (world r')) (fun _ r' => JW (world r')) r.

Lemma catch_steady e r :
  JW (world r) ->
  wp (catchBlock env url_ e)
     (fun _ r' => JW (world r')) (fun _ r' => JW (world r')) r.
Proof. intros H. unfold catchBlock. wp_go; simpl; auto. Qed.

Lemma decodeAndSave_steady res r :
  fetchFeedResponse env url_ (fetchOptionsFor env options) = Resolved res ->
  world r = w ->
  wp (decodeAndSave env url_ options res)
     (fun _ r' => JW (world r')) (fun _ _ => False) r.
Proof.
  intros Hfetch Hw. unfold decodeAndSave.
  apply wp_tryCatch, wp_bind, wp_await.
  case_eq (decodeText env res); [intros t Hdec | intros e Hdec].
  - apply wp_bind, wp_modify. cbv beta zeta.
    eapply wp_mono.
    + apply (J_save res t); [exact Hfetch | exact Hdec | exact Hw].
    + auto.
    + cbv beta. intros e r' HJ. destruct e; wp_go; simpl; auto.
  - destruct e; wp_go; simpl; rewrite Hw; auto.
Qed.

(** The outer [try] and [catch] keep the property, whether they resolve or
    reject. *)
Lemma body_steady :
  wp (tryCatch (tryBlock env url_ options) (catchBlock env url_))
     (fun _ r => JW (world r)) (fun _ r => JW (world r))
     (startRun env url_ options w).
Proof.
  apply wp_tryCatch. unfold tryBlock. apply wp_bind, wp_await.
  case_eq (fetchFeedResponse env url_ (fetchOptionsFor env options));
    [intros res Hfetch | intros e Hfetch].
  2:{ apply catch_steady. exact J_start. }
  repeat wp_step.
  eapply wp_mono.
  - apply (decodeAndSave_steady res); [exact Hfetch | reflexivity].
  - cbv beta. intros _ r' HJ.
    repeat wp_step. destruct (responsePersist env _); repeat wp_step.
    + apply catch_steady. exact HJ.
    + destruct (requestPersist env _); repeat wp_step.
      * apply catch_steady. simpl. auto.
      * simpl. auto.
  - intros e r' [].
Qed.

(** So does the whole method, for a property that flushing keeps. *)
Lemma fetch_steady :
  (forall w', JW w' -> JW (addFlush w')) ->
  JW (snd (fetchAndSaveResponse env url_ options w)).
Proof.
  intros J_flush.
  assert (H : wp (tryFinally (tryCatch (tryBlock env url_ options) (catchBlock env url_))
                             (finallyBlock env options))
                 (fun _ r => JW (world r)) (fun _ r => JW (world r))
                 (startRun env url_ options w)).
  { apply wp_tryFinally. eapply wp_mono; [exact body_steady | |];
      cbv beta; intros ? r HJ; unfold finallyBlock; wp_go; simpl; auto. }
  apply wp_either in H. unfold fetchAndSaveResponse.
  destruct (tryFinally _ _ _) as [o r]. exact H.
Qed.

End Steady.

(** The compressed body of the fetch of [url_]: what a store may be sent. *)
Definition compressedBodyOf (env : Env) (url_ : string) (options : option Options)
           (body : string) : Prop :=
  exists res t d,
    fetchFeedResponse env url_ (fetchOptionsFor env options) = Resolved res /\
    decodeText env res = Resolved t /\
    deflate env t = Resolved d /\
    body = Text.base64 d.

(** X6.  Writes to the stores.  Whatever the collaborators do, one call of
    [fetchAndSaveResponse] writes to the cache at most once and to object
    storage at most once, to object storage only when the caller asked for
    it, and what it writes is the base64 text of the compressed, decoded
    body of the response it fetched. *)
Theorem stores_written_at_most_once env url_ options w :
  exists cached uploaded,
    setFeedHtmlContentCalls (snd (fetchAndSaveResponse env url_ options w))
      = setFeedHtmlContentCalls w ++ cached /\
    uploadFeedHtmlContentCalls (snd (fetchAndSaveResponse env url_ options w))
      = uploadFeedHtmlContentCalls w ++ uploaded /\
    (List.length cached <= 1)%nat /\
    (List.length uploaded <= 1)%nat /\
    (wantsObjectStorage options = false -> uploaded = []) /\
    (forall k body, In (k, body) (cached ++ uploaded) ->
                    compressedBodyOf env url_ options body).
Proof.
  apply (fetch_steady env url_ options w
    (fun w' => exists cached uploaded,
       setFeedHtmlContentCalls w' = setFeedHtmlContentCalls w ++ cached /\
       uploadFeedHtmlContentCalls w' = uploadFeedHtmlContentCalls w ++ uploaded /\
       (List.length cached <= 1)%nat /\
       (List.length uploaded <= 1)%nat /\
       (wantsObjectStorage options = false -> uploaded = []) /\
       (forall k body, In (k, body) (cached ++ uploaded) ->
                       compressedBodyOf env url_ options body))).
  - exists [], []. rewrite !app_nil_r. simpl. repeat split; auto. intros k b [].
  - intros l w' H. exact H.
  - intros p w' H. exact H.
  - intros q w' H. exact H.
  - intros res t r Hfetch Hdec Hw. unfold saveBody.
    assert (Hbody : forall d, deflate env t = Resolved d ->
                              compressedBodyOf env url_ options (Text.base64 d)).
    { intros d Hd. exists res, t, d. auto. }
    destruct (wantsObjectStorage options) eqn:Hwants; wp_go; simpl; rewrite Hw.
    all: first
      [ exists [], []; rewrite !app_nil_r; simpl;
        repeat split; auto; intros k b []
      | eexists [_], []; rewrite !app_nil_r; simpl;
        (split; [reflexivity|]); (split; [reflexivity|]);
        repeat split; auto; intros k b [[= <- <-]|[]]; auto
      | eexists [], [_]; simpl;
        (split; [symmetry; apply app_nil_r|]); (split; [reflexivity|]);
        repeat split; auto; try discriminate; intros k b [[= <- <-]|[]]; auto
      | eexists [_], [_]; simpl;
        (split; [reflexivity|]); (split; [reflexivity|]);
        repeat split; auto; try discriminate;
        intros k b [[= <- <-]|[[= <- <-]|[]]]; auto ].
  - intros w' H. exact H.
Qed.

(** X7.  The [finally] block.  Whatever the collaborators do and however the
    call ends, [requestRepo.flush()] is awaited exactly once when
    [flushEntities] is set and never otherwise; when it throws, the call
    rejects with its error, whatever the outcome would have been. *)
Theorem flush_runs_exactly_when_asked env url_ options w :
  match wantsFlush options, requestFlush env with
  | false, _ =>
      flushes (snd (fetchAndSaveResponse env url_ options w)) = flushes w
  | true, None =>
      flushes (snd (fetchAndSaveResponse env url_ options w)) = S (flushes w)
  | true, Some e =>
      fst (fetchAndSaveResponse env url_ options w) = Rejected e /\
      flushes (snd (fetchAndSaveResponse env url_ options w)) = flushes w
  end.
Proof.
  assert (H : wp (tryCatch (tryBlock env url_ options) (catchBlock env url_))
                 (fun _ r => flushes (world r) = flushes w)
                 (fun _ r => flushes (world r) = flushes w)
                 (startRun env url_ options w)).
  { apply (body_steady env url_ options w (fun w' => flushes w' = flushes w));
      try (intros; assumption); [reflexivity|].
    intros res t r _ _ Hw. unfold saveBody. wp_go; simpl; exact (f_equal flushes Hw). }
  apply wp_either in H.
  unfold fetchAndSaveResponse, tryFinally, finallyBlock.
  destruct (tryCatch _ _ _) as [o r]. simpl in H.
  destruct (wantsFlush options).
  - unfold flush, bind, failing, modify, throw, ret.
    destruct (requestFlush env); simpl; [split; [reflexivity | exact H] | congruence].
  - simpl. exact H.
Qed.

(** *** The paths through the inner [try] blocks *)

(** The line logged when the upload to object storage fails. *)
Definition uploadFailureLog : Log :=
  LogError "Failed to upload feed hmtl content to object file storage".

Section Paths.

Variable env : Env.

(** The run in which the body cannot be decoded. *)
Lemma decode_failed_run url_ options w res e :
  fetchFeedResponse env url_ (fetchOptionsFor env options) = Resolved res ->
  decodeText env res = Rejected e ->
  storesUp env options ->
  wp (tryFinally (tryCatch (tryBlock env url_ options) (catchBlock env url_))
                 (finallyBlock env options))
     (fun result r =>
        exists p,
          req_status (result_request result)
            = Some (if isFeedTooLarge e then REFUSED_LARGE_FEED else PARSE_ERROR) /\
          errorMessage (result_request result) = None /\
          response (result_request result) = Some p /\
          responseText result = Some None /\
          statusCode p = Some (status res) /\
          redisCacheKey p = None /\ textHash p = None /\ s3ObjectKey p = None /\
          isCloudflare p = Some (hasCloudflareServer res) /\
          setFeedHtmlContentCalls (world r) = setFeedHtmlContentCalls w /\
          uploadFeedHtmlContentCalls (world r) = uploadFeedHtmlContentCalls w /\
          persistedResponses (world r) = persistedResponses w ++ [p] /\
          persistedRequests (world r) = persistedRequests w ++ [result_request result])
     (fun _ _ => False)
     (startRun env url_ options w).
Proof.
  intros Hfetch Hdec (Hrp & Hqp & Hflush).
  apply wp_tryFinally, wp_tryCatch. unfold tryBlock.
  apply wp_bind, wp_await. rewrite Hfetch. repeat wp_step.
  unfold decodeAndSave. apply wp_tryCatch, wp_bind, wp_await. rewrite Hdec.
  destruct e.
  all: repeat wp_step; rewrite Hrp; repeat wp_step; rewrite Hqp; repeat wp_step.
  all: unfold finallyBlock;
    (destruct (wantsFlush options);
     [unfold flush; rewrite (Hflush eq_refl); repeat wp_step | repeat wp_step]).
  all: eexists; simpl; repeat split; reflexivity.
Qed.

(** The run in which compressing the body throws a
    [FeedTooLargeException]. *)
Lemma compress_refused_run url_ options w res t m :
  fetchFeedResponse env url_ (fetchOptionsFor env options) = Resolved res ->
  decodeText env res = Resolved t ->
  deflate env t = Rejected (FeedTooLargeException m) ->
  storesUp env options ->
  wp (tryFinally (tryCatch (tryBlock env url_ options) (catchBlock env url_))
                 (finallyBlock env options))
     (fun result r =>
        exists p,
          req_status (result_request result) = Some REFUSED_LARGE_FEED /\
          errorMessage (result_request result) = None /\
          response (result_request result) = Some p /\
          responseText result = Some (Some t) /\
          redisCacheKey p = None /\
          setFeedHtmlContentCalls (world r) = setFeedHtmlContentCalls w /\
          persistedResponses (world r) = persistedResponses w ++ [p] /\
          persistedRequests (world r) = persistedRequests w ++ [result_request result])
     (fun _ _ => False)
     (startRun env url_ options w).
Proof.
  intros Hfetch Hdec Hdef (Hrp & Hqp & Hflush).
  apply wp_tryFinally, wp_tryCatch. unfold tryBlock.
  apply wp_bind, wp_await. rewrite Hfetch. repeat wp_step.
  unfold decodeAndSave. apply wp_tryCatch, wp_bind, wp_await. rewrite Hdec.
  repeat wp_step. cbv zeta. unfold saveBody.
  apply wp_tryCatch, wp_bind, wp_await. rewrite Hdef.
  repeat wp_step; rewrite Hrp; repeat wp_step; rewrite Hqp; repeat wp_step.
  unfold finallyBlock;
    (destruct (wantsFlush options);
     [unfold flush; rewrite (Hflush eq_refl); repeat wp_step | repeat wp_step]).
  all: eexists; simpl; repeat split; reflexivity.
Qed.

(** The run in which the cache store throws a [FeedTooLargeException]. *)
Lemma cache_refused_run url_ options w res t d m :
  fetchFeedResponse env url_ (fetchOptionsFor env options) = Resolved res ->
  decodeText env res = Resolved t ->
  deflate env t = Resolved d ->
  sha1 w = createHash ->
  setFeedHtmlContent env (Text.sha1Hex url_) (Text.base64 d)
    = Some (FeedTooLargeException m) ->
  storesUp env options ->
  wp (tryFinally (tryCatch (tryBlock env url_ options) (catchBlock env url_))
                 (finallyBlock env options))
     (fun result r =>
        exists p,
          req_status (result_request result) = Some REFUSED_LARGE_FEED /\
          errorMessage (result_request result) = None /\
          response (result_request result) = Some p /\
          responseText result = Some (Some t) /\
          redisCacheKey p = Some (Text.sha1Hex url_) /\
          setFeedHtmlContentCalls (world r)
            = setFeedHtmlContentCalls w ++ [(Text.sha1Hex url_, Text.base64 d)] /\
          persistedResponses (world r) = persistedResponses w ++ [p] /\
          persistedRequests (world r) = persistedRequests w ++ [result_request result])
     (fun _ _ => False)
     (startRun env url_ options w).
Proof.
  intros Hfetch Hdec Hdef Hfresh Hset (Hrp & Hqp & Hflush).
  assert (Hfin : finallyBlock env options = ret tt \/
                 (finallyBlock env options = flush env /\ requestFlush env = None)).
  { unfold finallyBlock. destruct (wantsFlush options); auto. }
  destruct (wantsObjectStorage options) eqn:Hwants.
  all: destruct t as [|c t].
  all: apply wp_tryFinally, wp_tryCatch; unfold tryBlock;
    apply wp_bind, wp_await; rewrite Hfetch; repeat wp_step;
    unfold decodeAndSave; apply wp_tryCatch, wp_bind, wp_await; rewrite Hdec;
    repeat wp_step; cbv zeta; unfold saveBody; rewrite Hwants;
    apply wp_tryCatch, wp_bind, wp_await; rewrite Hdef;
    repeat wp_step.
  all: try (match goal with
            | |- match uploadFeedHtmlContent env ?k ?b with _ => _ end =>
                destruct (uploadFeedHtmlContent env k b)
            end; repeat wp_step).
  all: apply wp_sha1Of_fresh; [exact Hfresh|]; repeat wp_step.
  all: try (apply wp_sha1Of_fresh; [exact Hfresh|]; repeat wp_step).
  all: rewrite Hset;
    repeat wp_step; rewrite Hrp; repeat wp_step; rewrite Hqp; repeat wp_step.
  all: destruct Hfin as [-> | [-> Hfl]];
    [|unfold flush; rewrite Hfl]; repeat wp_step.
  all: eexists; cbn; repeat split; reflexivity.
Qed.

End Paths.

(** *** What a fetch records *)

(** X8.  A body that cannot be decoded.  When the fetch got an HTTP response
    and decoding its body throws (reading the body fails, the declared
    charset is unknown to iconv, the [charset] part of the content type
    has no value), the request is recorded with status [PARSE_ERROR], or
    [REFUSED_LARGE_FEED] if what was thrown is a [FeedTooLargeException];
    the call resolves with a [null] response text, the response is
    persisted without cache key, text hash or storage key, and neither the
    cache nor object storage is written. *)
Theorem undecodable_body_is_recorded env url_ options w res e :
  fetchFeedResponse env url_ (fetchOptionsFor env options) = Resolved res ->
  decodeText env res = Rejected e ->
  storesUp env options ->
  exists result w' p,
    fetchAndSaveResponse env url_ options w = (Resolved result, w') /\
    req_status (result_request result)
      = Some (if isFeedTooLarge e then REFUSED_LARGE_FEED else PARSE_ERROR) /\
    errorMessage (result_request result) = None /\
    response (result_request result) = Some p /\
    responseText result = Some None /\
    statusCode p = Some (status res) /\
    redisCacheKey p = None /\ textHash p = None /\ s3ObjectKey p = None /\
    isCloudflare p = Some (hasCloudflareServer res) /\
    setFeedHtmlContentCalls w' = setFeedHtmlContentCalls w /\
    uploadFeedHtmlContentCalls w' = uploadFeedHtmlContentCalls w /\
    persistedResponses w' = persistedResponses w ++ [p] /\
    persistedRequests w' = persistedRequests w ++ [result_request result].
Proof.
  intros Hfetch Hdec Hup.
  pose proof (decode_failed_run env url_ options w res e Hfetch Hdec Hup) as H.
  apply wp_resolves in H as (result & r & E & p & H).
  exists result, (world r), p. unfold fetchAndSaveResponse. rewrite E.
  split; [reflexivity | exact H].
Qed.

(** X9.  [REFUSED_LARGE_FEED].  The size check being disabled, the status is
    reached through a collaborator: when compressing the decoded body or
    writing it to the cache throws a [FeedTooLargeException], the request
    is recorded with status [REFUSED_LARGE_FEED], and the call still
    resolves, with the decoded text, and persists response and request.
    The cache key is on the response only in the second case, where the
    cache store was called. *)
Theorem too_large_exception_is_refused env url_ options w res t m :
  fetchFeedResponse env url_ (fetchOptionsFor env options) = Resolved res ->
  decodeText env res = Resolved t ->
  sha1 w = createHash ->
  (deflate env t = Rejected (FeedTooLargeException m) \/
   exists d, deflate env t = Resolved d /\
             setFeedHtmlContent env (Text.sha1Hex url_) (Text.base64 d)
               = Some (FeedTooLargeException m)) ->
  storesUp env options ->
  exists result w' p,
    fetchAndSaveResponse env url_ options w = (Resolved result, w') /\
    req_status (result_request result) = Some REFUSED_LARGE_FEED /\
    errorMessage (result_request result) = None /\
    response (result_request result) = Some p /\
    responseText result = Some (Some t) /\
    (redisCacheKey p = None <-> deflate env t = Rejected (FeedTooLargeException m)) /\
    persistedResponses w' = persistedResponses w ++ [p] /\
    persistedRequests w' = persistedRequests w ++ [result_request result].
Proof.
  intros Hfetch Hdec Hfresh [Hdef | (d & Hdef & Hset)] Hup.
  - pose proof (compress_refused_run env url_ options w res t m Hfetch Hdec Hdef Hup) as H.
    apply wp_resolves in H as (result & r & E & p & H1 & H2 & H3 & H4 & H5 & H6 & H7 & H8).
    exists result, (world r), p. unfold fetchAndSaveResponse. rewrite E.
    repeat split; auto.
  - pose proof (cache_refused_run env url_ options w res t d m
                  Hfetch Hdec Hdef Hfresh Hset Hup) as H.
    apply wp_resolves in H as (result & r & E & p & H1 & H2 & H3 & H4 & H5 & H6 & H7 & H8).
    exists result, (world r), p. unfold fetchAndSaveResponse. rewrite E.
    repeat split; auto; congruence.
Qed.

(** X10.  Error pages.  The body of a response whose status is neither 2xx
    nor 304 is handled like any other: the request is recorded with status
    [BAD_STATUS_CODE], and the compressed body is written to the cache
    under the cache key of the URL, where it replaces what an earlier
    fetch of the URL stored. *)
Theorem error_page_is_cached env url_ options w res t d :
  fetchFeedResponse env url_ (fetchOptionsFor env options) = Resolved res ->
  (status res < 200 \/ 300 <= status res) ->
  status res <> NOT_MODIFIED ->
  maybeDecodeResponse env res = Resolved t ->
  deflate env t = Resolved d ->
  sha1 w = createHash ->
  (forall e, setFeedHtmlContent env (Text.sha1Hex url_) (Text.base64 d) = Some e ->
             isFeedTooLarge e = false) ->
  storesUp env options ->
  exists result w' p,
    fetchAndSaveResponse env url_ options w = (Resolved result, w') /\
    req_status (result_request result) = Some BAD_STATUS_CODE /\
    response (result_request result) = Some p /\
    statusCode p = Some (status res) /\
    responseText result = Some (Some t) /\
    redisCacheKey p = Some (Text.sha1Hex url_) /\
    setFeedHtmlContentCalls w'
      = setFeedHtmlContentCalls w ++ [(Text.sha1Hex url_, Text.base64 d)] /\
    persistedRequests w' = persistedRequests w ++ [result_request result].
Proof.
  intros Hfetch Hrange H304 Hdec Hdef Hfresh Hcache Hup.
  assert (Hne : (status res =? NOT_MODIFIED) = false) by (apply Z.eqb_neq; exact H304).
  assert (Hdec' : decodeText env res = Resolved t).
  { unfold decodeText. rewrite Hne. exact Hdec. }
  assert (Hst : statusOf res = BAD_STATUS_CODE).
  { unfold statusOf, ok. rewrite Hne.
    destruct (Z.leb_spec 200 (status res)); destruct (Z.ltb_spec (status res) 300);
      simpl; try reflexivity; lia. }
  pose proof (body_saved_run env url_ options w res t d
                Hfetch Hdec' Hdef Hfresh Hcache Hup) as H.
  apply wp_resolves in H
    as (result & r & E & p & H1 & H2 & H3 & H4 & H5 & H6 & H7 & H8 & H9 & H10 & H11 & H12 & _).
  exists result, (world r), p. unfold fetchAndSaveResponse. rewrite E.
  rewrite Hst in H1. repeat split; assumption.
Qed.

(** X11.  A failed upload.  When the caller asked for object storage and the
    upload throws, whatever it throws, the error is logged and the fetch
    goes on as if the upload had succeeded: the storage key stays on the
    response, the body is written to the cache, the status is the one the
    HTTP status decided, and response and request are persisted. *)
Theorem upload_failure_not_fatal env url_ options w res t d e :
  fetchFeedResponse env url_ (fetchOptionsFor env options) = Resolved res ->
  decodeText env res = Resolved t ->
  deflate env t = Resolved d ->
  sha1 w = createHash ->
  wantsObjectStorage options = true ->
  uploadFeedHtmlContent env (randomUUID env (uuids w)) (Text.base64 d) = Some e ->
  (forall e', setFeedHtmlContent env (Text.sha1Hex url_) (Text.base64 d) = Some e' ->
              isFeedTooLarge e' = false) ->
  storesUp env options ->
  exists result w' p,
    fetchAndSaveResponse env url_ options w = (Resolved result, w') /\
    req_status (result_request result) = Some (statusOf res) /\
    response (result_request result) = Some p /\
    responseText result = Some (Some t) /\
    s3ObjectKey p = Some (randomUUID env (uuids w)) /\
    redisCacheKey p = Some (Text.sha1Hex url_) /\
    uploadFeedHtmlContentCalls w'
      = uploadFeedHtmlContentCalls w ++ [(randomUUID env (uuids w), Text.base64 d)] /\
    setFeedHtmlContentCalls w'
      = setFeedHtmlContentCalls w ++ [(Text.sha1Hex url_, Text.base64 d)] /\
    persistedResponses w' = persistedResponses w ++ [p] /\
    persistedRequests w' = persistedRequests w ++ [result_request result] /\
    (exists earlier later, logs w' = logs w ++ earlier ++ uploadFailureLog :: later).
Proof.
  intros Hfetch Hdec Hdef Hfresh Hwants Hupload Hcache Hup.
  pose proof (body_saved_run env url_ options w res t d
                Hfetch Hdec Hdef Hfresh Hcache Hup) as H.
  apply wp_resolves in H
    as (result & r & E & p & H1 & H2 & H3 & H4 & H5 & H6 & H7 & H8 & H9 & H10 & H11 & H12 & _).
  rewrite Hwants in H8, H10.
  assert (Hlog : setFeedHtmlContentCalls (snd (fetchAndSaveResponse env url_ options w))
                   = setFeedHtmlContentCalls w \/
                 exists earlier later,
                   logs (snd (fetchAndSaveResponse env url_ options w))
                     = logs w ++ earlier ++ uploadFailureLog :: later).
  { apply (fetch_steady env url_ options w
      (fun w' => setFeedHtmlContentCalls w' = setFeedHtmlContentCalls w \/
                 exists earlier later,
                   logs w' = logs w ++ earlier ++ uploadFailureLog :: later)).
    - left. reflexivity.
    - intros l w' [Hc | (l1 & l2 & Hl)]; [left; exact Hc|].
      right. exists l1, (l2 ++ [l]). simpl. rewrite Hl, <- !app_assoc. reflexivity.
    - intros p' w' HJ. exact HJ.
    - intros q w' HJ. exact HJ.
    - intros res' t' r' Hfetch' Hdec' Hw.
      rewrite Hfetch in Hfetch'. injection Hfetch' as <-.
      rewrite Hdec in Hdec'. injection Hdec' as <-.
      unfold saveBody. rewrite Hwants.
      apply wp_tryCatch, wp_bind, wp_await. rewrite Hdef.
      repeat wp_step. simpl. rewrite Hw, Hupload. unfold uploadFailureLog.
      wp_go; simpl; rewrite ?Hw; right;
        repeat rewrite <- app_assoc; simpl; eexists [_], _; reflexivity.
    - intros w' HJ. exact HJ. }
  unfold fetchAndSaveResponse in *. rewrite E in *. simpl in Hlog.
  exists result, (world r), p.
  split; [reflexivity|]. split; [exact H1|]. split; [exact H3|]. split; [exact H4|].
  split; [exact H8|]. split; [exact H6|]. split; [exact H10|]. split; [exact H9|].
  split; [exact H11|]. split; [exact H12|].
  destruct Hlog as [Hc | Hl]; [|exact Hl].
  rewrite H9 in Hc. exfalso.
  apply (f_equal (@List.length (string * string))) in Hc.
  rewrite length_app in Hc. simpl in Hc. lia.
Qed.

(** The status of a request, read off the answers of the collaborators. *)
Definition statusTable (env : Env) (url_ : string) (options : option Options)
  : RequestStatus :=
  match fetchFeedResponse env url_ (fetchOptionsFor env options) with
  | Rejected e => if isRequestTimeout e then FETCH_TIMEOUT else FETCH_ERROR
  | Resolved res =>
      let unlessTooLarge (e : JsError) :=
        if isFeedTooLarge e then REFUSED_LARGE_FEED else statusOf res in
      match decodeText env res with
      | Rejected e => if isFeedTooLarge e then REFUSED_LARGE_FEED else PARSE_ERROR
      | Resolved t =>
          match deflate env t with
          | Rejected e => unlessTooLarge e
          | Resolved d =>
              match setFeedHtmlContent env (Text.sha1Hex url_) (Text.base64 d) with
              | Some e => unlessTooLarge e
              | None => statusOf res
              end
          end
      end
  end.

Definition isFetchFailure (st : RequestStatus) : bool :=
  match st with
  | FETCH_ERROR | FETCH_TIMEOUT => true
  | _ => false
  end.

Lemma statusOf_cases res : statusOf res = OK \/ statusOf res = BAD_STATUS_CODE.
Proof. unfold statusOf. destruct (ok res || (status res =? NOT_MODIFIED)); auto. Qed.

(** Every path of a fetch whose persistence works. *)
Lemma run_outcome env url_ options w :
  sha1 w = createHash ->
  storesUp env options ->
  exists result w',
    fetchAndSaveResponse env url_ options w = (Resolved result, w') /\
    persistedRequests w' = persistedRequests w ++ [result_request result] /\
    req_status (result_request result) = Some (statusTable env url_ options) /\
    ((exists e,
        fetchFeedResponse env url_ (fetchOptionsFor env options) = Rejected e /\
        response (result_request result) = None /\
        errorMessage (result_request result) = Some (message e) /\
        responseText result = None)
     \/
     (exists res p text,
        fetchFeedResponse env url_ (fetchOptionsFor env options) = Resolved res /\
        response (result_request result) = Some p /\
        errorMessage (result_request result) = None /\
        responseText result = Some text /\
        persistedResponses w' = persistedResponses w ++ [p])).
Proof.
  intros Hfresh Hup. pose proof Hup as (Hrp & Hqp & Hflush).
  unfold statusTable.
  destruct (fetchFeedResponse env url_ (fetchOptionsFor env options)) as [res|e] eqn:Hfetch.
  2:{ pose proof (run_persists_once env url_ options (startRun env url_ options w)
                    (persistedRequests w) Hqp Hflush eq_refl eq_refl) as H1.
      pose proof (transport_error_run env url_ options w e Hfetch Hqp Hflush) as H2.
      pose proof (wp_conj _ _ _ _ _ _ H1 H2) as H.
      eapply wp_mono in H; [|intros a s' HQ; exact HQ|intros e' s' [[] _]].
      apply wp_resolves in H as (result & r & E & [Hp _] & Hs & Hm & Hr & Ht).
      exists result, (world r). unfold fetchAndSaveResponse. rewrite E.
      split; [reflexivity|]. split; [exact Hp|]. split; [exact Hs|].
      left. exists e. auto. }
  destruct (decodeText env res) as [t|e] eqn:Hdec.
  2:{ pose proof (decode_failed_run env url_ options w res e Hfetch Hdec Hup) as H.
      apply wp_resolves in H
        as (result & r & E & p & H1 & H2 & H3 & H4 & _ & _ & _ & _ & _ & _ & _ & H5 & H6).
      exists result, (world r). unfold fetchAndSaveResponse. rewrite E.
      split; [reflexivity|]. split; [exact H6|]. split; [exact H1|].
      right. exists res, p, None. auto. }
  cbv zeta.
  destruct (deflate env t) as [d|e] eqn:Hdef.
  2:{ destruct (isFeedTooLarge e) eqn:Hbig.
      - destruct e; try discriminate Hbig.
        pose proof (compress_refused_run env url_ options w res t _ Hfetch Hdec Hdef Hup) as H.
        apply wp_resolves in H as (result & r & E & p & H1 & H2 & H3 & H4 & _ & _ & H5 & H6).
        exists result, (world r). unfold fetchAndSaveResponse. rewrite E.
        split; [reflexivity|]. split; [exact H6|]. split; [exact H1|].
        right. exists res, p, (Some t). auto.
      - pose proof (compress_failed_run env url_ options w res t e
                      Hfetch Hdec Hdef Hbig Hup) as H.
        apply wp_resolves in H
          as (result & r & E & p & H1 & H2 & H3 & H4 & _ & _ & _ & _ & H5 & H6 & _).
        exists result, (world r). unfold fetchAndSaveResponse. rewrite E.
        split; [reflexivity|]. split; [exact H6|]. split; [exact H1|].
        right. exists res, p, (Some t). auto. }
  assert (Hsaved :
    (forall e, setFeedHtmlContent env (Text.sha1Hex url_) (Text.base64 d) = Some e ->
               isFeedTooLarge e = false) ->
    exists result w',
      fetchAndSaveResponse env url_ options w = (Resolved result, w') /\
      persistedRequests w' = persistedRequests w ++ [result_request result] /\
      req_status (result_request result) = Some (statusOf res) /\
      exists p text,
        response (result_request result) = Some p /\
        errorMessage (result_request result) = None /\
        responseText result = Some text /\
        persistedResponses w' = persistedResponses w ++ [p]).
  { intros Hcache.
    pose proof (body_saved_run env url_ options w res t d
                  Hfetch Hdec Hdef Hfresh Hcache Hup) as H.
    apply wp_resolves in H
      as (result & r & E & p & H1 & H2 & H3 & H4 & _ & _ & _ & _ & _ & _ & H5 & H6 & _).
    exists result, (world r). unfold fetchAndSaveResponse. rewrite E.
    split; [reflexivity|]. split; [exact H6|]. split; [exact H1|].
    exists p, (Some t). auto. }
  destruct (setFeedHtmlContent env (Text.sha1Hex url_) (Text.base64 d)) as [e|] eqn:Hset.
  - destruct (isFeedTooLarge e) eqn:Hbig.
    + destruct e; try discriminate Hbig.
      pose proof (cache_refused_run env url_ options w res t d _
                    Hfetch Hdec Hdef Hfresh Hset Hup) as H.
      apply wp_resolves in H as (result & r & E & p & H1 & H2 & H3 & H4 & _ & _ & H5 & H6).
      exists result, (world r). unfold fetchAndSaveResponse. rewrite E.
      split; [reflexivity|]. split; [exact H6|]. split; [exact H1|].
      right. exists res, p, (Some t). auto.
    + destruct Hsaved as (result & w' & E & Hp & Hs & p & text & H).
      { intros e' [= <-]. exact Hbig. }
      exists result, w'. split; [exact E|]. split; [exact Hp|]. split; [exact Hs|].
      right. exists res, p, text. split; [reflexivity | exact H].
  - destruct Hsaved as (result & w' & E & Hp & Hs & p & text & H).
    { intros e' [=]. }
    exists result, w'. split; [exact E|]. split; [exact Hp|]. split; [exact Hs|].
    right. exists res, p, text. split; [reflexivity | exact H].
Qed.

(** X12.  The recorded status.  With persistence working, the status of the
    request a fetch records is a function of what the collaborators
    answered: [FETCH_TIMEOUT] or [FETCH_ERROR] when the transport threw;
    [REFUSED_LARGE_FEED] when decoding, compressing or the cache store
    threw a [FeedTooLargeException]; [PARSE_ERROR] when decoding threw
    anything else; and otherwise the status decided by the HTTP status,
    [OK] for 2xx and 304 and [BAD_STATUS_CODE] for the rest, also when
    compressing or caching failed. *)
Theorem recorded_status_follows_table env url_ options w :
  sha1 w = createHash ->
  storesUp env options ->
  exists result w',
    fetchAndSaveResponse env url_ options w = (Resolved result, w') /\
    req_status (result_request result) = Some (statusTable env url_ options).
Proof.
  intros Hfresh Hup.
  destruct (run_outcome env url_ options w Hfresh Hup) as (result & w' & E & _ & Hs & _).
  exists result, w'. auto.
Qed.

(** X13.  The shape of a recorded request.  With persistence working, the
    request a fetch persists is of one of two kinds.  Either the transport
    threw: the status is [FETCH_ERROR] or [FETCH_TIMEOUT], the error
    message is that of the error, there is no response, no [Response] is
    to be persisted with it and the call returns no [responseText].  Or
    the transport answered: the status is none of those two, there is no
    error message, and the request carries the response that was persisted
    just before it. *)
Theorem recorded_request_shape env url_ options w :
  sha1 w = createHash ->
  storesUp env options ->
  exists result w' st,
    fetchAndSaveResponse env url_ options w = (Resolved result, w') /\
    persistedRequests w' = persistedRequests w ++ [result_request result] /\
    req_status (result_request result) = Some st /\
    if isFetchFailure st
    then response (result_request result) = None /\
         errorMessage (result_request result) <> None /\
         responseText result = None /\
         exists e, fetchFeedResponse env url_ (fetchOptionsFor env options) = Rejected e /\
                   errorMessage (result_request result) = Some (message e)
    else errorMessage (result_request result) = None /\
         responseText result <> None /\
         exists p, response (result_request result) = Some p /\
                   persistedResponses w' = persistedResponses w ++ [p].
Proof.
  intros Hfresh Hup.
  destruct (run_outcome env url_ options w Hfresh Hup)
    as (result & w' & E & Hp & Hs & Hkind).
  exists result, w', (statusTable env url_ options).
  split; [exact E|]. split; [exact Hp|]. split; [exact Hs|].
  unfold statusTable.
  destruct Hkind as [(e & Hfetch & H1 & H2 & H3) | (res & p & text & Hfetch & H1 & H2 & H3 & H4)];
    rewrite Hfetch.
  - assert (Hf : isFetchFailure (if isRequestTimeout e then FETCH_TIMEOUT else FETCH_ERROR)
                 = true) by (destruct (isRequestTimeout e); reflexivity).
    rewrite Hf. split; [exact H1|]. split; [congruence|]. split; [exact H3|].
    exists e. auto.
  - assert (Hf : forall e, isFetchFailure
                   (if isFeedTooLarge e then REFUSED_LARGE_FEED else statusOf res) = false).
    { intros e. destruct (isFeedTooLarge e); [reflexivity|].
      destruct (statusOf_cases res) as [-> | ->]; reflexivity. }
    assert (Hf' : isFetchFailure (statusOf res) = false).
    { destruct (statusOf_cases res) as [-> | ->]; reflexivity. }
    assert (Hnot : isFetchFailure
      match decodeText env res with
      | Rejected e => if isFeedTooLarge e then REFUSED_LARGE_FEED else PARSE_ERROR
      | Resolved t =>
          match deflate env t with
          | Rejected e => if isFeedTooLarge e then REFUSED_LARGE_FEED else statusOf res
          | Resolved d =>
              match setFeedHtmlContent env (Text.sha1Hex url_) (Text.base64 d) with
              | Some e => if isFeedTooLarge e then REFUSED_LARGE_FEED else statusOf res
              | None => statusOf res
              end
          end
      end = false).
    { destruct (decodeText env res) as [t|e]; [|destruct (isFeedTooLarge e); reflexivity].
      destruct (deflate env t) as [d|e]; [|apply Hf].
      destruct (setFeedHtmlContent env _ _); [apply Hf | exact Hf']. }
    cbv zeta. rewrite Hnot. split; [exact H2|]. split; [congruence|].
    exists p. auto.
Qed.

(** *** Concrete fetches *)

(** A response whose content type names a charset without a value. *)
Definition brokenCharsetAnswer : HttpResponse :=
  {| status := 200;
     res_headers := [("content-type", "text/xml; charset")];
     text := Resolved "<rss/>";
     arrayBuffer := Resolved "<rss/>" |}.

Definition notFoundAnswer : HttpResponse :=
  {| status := 404;
     res_headers := [("content-type", "text/html")];
     text := Resolved "<html>Not Found</html>";
     arrayBuffer := Resolved "<html>Not Found</html>" |}.

Definition trimError : JsError :=
  Error "Cannot read properties of undefined (reading 'trim')".

Definition tooLarge : JsError := FeedTooLargeException "Response body is too large".

(** An environment whose object storage is down. *)
Definition uploadDown (answer : Outcome HttpResponse) : Env :=
  {| feedUserAgent := Some "MonitoRSS/1.0";
     defaultUserAgent := "Mozilla/5.0";
     fetch := fun _ _ => answer;
     iconvDecode := fun bytes _ => Resolved bytes;
     deflate := markedDeflate;
     randomUUID := fun n => ("uuid-" ++ String (ascii_of_nat (48 + n)) "")%string;
     uploadFeedHtmlContent := fun _ _ => Some (Error "bucket unreachable");
     setFeedHtmlContent := fun _ _ => None;
     responsePersist := fun _ => None;
     requestPersist := fun _ => None;
     requestFlush := None |}.

Example broken_charset_run :
  let run := fetchAndSaveResponse (exampleEnv (Resolved brokenCharsetAnswer) None None)
                                  feedUrl withStorage emptyWorld in
  statusIn run = Some PARSE_ERROR /\
  textIn run = Some None /\
  setFeedHtmlContentCalls (snd run) = [] /\
  uploadFeedHtmlContentCalls (snd run) = [] /\
  List.length (persistedResponses (snd run)) = 1%nat.
Proof. vm_compute. repeat split; reflexivity. Qed.

Example not_found_run :
  let run := fetchAndSaveResponse (exampleEnv (Resolved notFoundAnswer) None None)
                                  feedUrl None emptyWorld in
  statusIn run = Some BAD_STATUS_CODE /\
  map snd (setFeedHtmlContentCalls (snd run))
    = [Text.base64 "deflated:<html>Not Found</html>"].
Proof. vm_compute. repeat split; reflexivity. Qed.

Example upload_down_run :
  let run := fetchAndSaveResponse (uploadDown (Resolved (feedAnswer "<rss/>")))
                                  feedUrl withStorage emptyWorld in
  statusIn run = Some OK /\
  option_map s3ObjectKey (responseIn run) = Some (Some "uuid-0") /\
  List.length (setFeedHtmlContentCalls (snd run)) = 1%nat /\
  logs (snd run)
    = [LogDatadog "saving response" feedUrl 20; uploadFailureLog].
Proof. vm_compute. repeat split; reflexivity. Qed.

Lemma undecodable_body_is_recorded_witness :
  exists result w' p,
    let env := exampleEnv (Resolved brokenCharsetAnswer) None None in
    fetchAndSaveResponse env feedUrl withStorage emptyWorld = (Resolved result, w') /\
    req_status (result_request result)
      = Some (if isFeedTooLarge trimError then REFUSED_LARGE_FEED else PARSE_ERROR) /\
    errorMessage (result_request result) = None /\
    response (result_request result) = Some p /\
    responseText result = Some None /\
    statusCode p = Some (status brokenCharsetAnswer) /\
    redisCacheKey p = None /\ textHash p = None /\ s3ObjectKey p = None /\
    isCloudflare p = Some (hasCloudflareServer brokenCharsetAnswer) /\
    setFeedHtmlContentCalls w' = setFeedHtmlContentCalls emptyWorld /\
    uploadFeedHtmlContentCalls w' = uploadFeedHtmlContentCalls emptyWorld /\
    persistedResponses w' = persistedResponses emptyWorld ++ [p] /\
    persistedRequests w' = persistedRequests emptyWorld ++ [result_request result].
Proof.
  apply (undecodable_body_is_recorded
           (exampleEnv (Resolved brokenCharsetAnswer) None None)
           feedUrl withStorage emptyWorld brokenCharsetAnswer trimError).
  - reflexivity.
  - vm_compute. reflexivity.
  - repeat split; reflexivity.
Defined.

Lemma too_large_exception_is_refused_witness :
  exists result w' p,
    let env := exampleEnv (Resolved (feedAnswer "<rss/>")) (Some tooLarge) None in
    fetchAndSaveResponse env feedUrl None emptyWorld = (Resolved result, w') /\
    req_status (result_request result) = Some REFUSED_LARGE_FEED /\
    errorMessage (result_request result) = None /\
    response (result_request result) = Some p /\
    responseText result = Some (Some "<rss/>") /\
    (redisCacheKey p = None <->
     deflate env "<rss/>" = Rejected (FeedTooLargeException "Response body is too large")) /\
    persistedResponses w' = persistedResponses emptyWorld ++ [p] /\
    persistedRequests w' = persistedRequests emptyWorld ++ [result_request result].
Proof.
  apply (too_large_exception_is_refused
           (exampleEnv (Resolved (feedAnswer "<rss/>")) (Some tooLarge) None)
           feedUrl None emptyWorld (feedAnswer "<rss/>") "<rss/>"
           "Response body is too large").
  - reflexivity.
  - vm_compute. reflexivity.
  - reflexivity.
  - right. exists "deflated:<rss/>". split; reflexivity.
  - repeat split; reflexivity.
Defined.

Lemma error_page_is_cached_witness :
  exists result w' p,
    let env := exampleEnv (Resolved notFoundAnswer) None None in
    fetchAndSaveResponse env feedUrl None emptyWorld = (Resolved result, w') /\
    req_status (result_request result) = Some BAD_STATUS_CODE /\
    response (result_request result) = Some p /\
    statusCode p = Some (status notFoundAnswer) /\
    responseText result = Some (Some "<html>Not Found</html>") /\
    redisCacheKey p = Some (Text.sha1Hex feedUrl) /\
    setFeedHtmlContentCalls w'
      = setFeedHtmlContentCalls emptyWorld
        ++ [(Text.sha1Hex feedUrl, Text.base64 "deflated:<html>Not Found</html>")] /\
    persistedRequests w' = persistedRequests emptyWorld ++ [result_request result].
Proof.
  apply (error_page_is_cached (exampleEnv (Resolved notFoundAnswer) None None)
           feedUrl None emptyWorld notFoundAnswer "<html>Not Found</html>"
           "deflated:<html>Not Found</html>").
  - reflexivity.
  - right. simpl. lia.
  - discriminate.
  - vm_compute. reflexivity.
  - reflexivity.
  - reflexivity.
  - intros e [=].
  - repeat split; reflexivity.
Defined.

Lemma upload_failure_not_fatal_witness :
  exists result w' p,
    let env := uploadDown (Resolved (feedAnswer "<rss/>")) in
    fetchAndSaveResponse env feedUrl withStorage emptyWorld = (Resolved result, w') /\
    req_status (result_request result) = Some (statusOf (feedAnswer "<rss/>")) /\
    response (result_request result) = Some p /\
    responseText result = Some (Some "<rss/>") /\
    s3ObjectKey p = Some (randomUUID env (uuids emptyWorld)) /\
    redisCacheKey p = Some (Text.sha1Hex feedUrl) /\
    uploadFeedHtmlContentCalls w'
      = uploadFeedHtmlContentCalls emptyWorld
        ++ [(randomUUID env (uuids emptyWorld), Text.base64 "deflated:<rss/>")] /\
    setFeedHtmlContentCalls w'
      = setFeedHtmlContentCalls emptyWorld
        ++ [(Text.sha1Hex feedUrl, Text.base64 "deflated:<rss/>")] /\
    persistedResponses w' = persistedResponses emptyWorld ++ [p] /\
    persistedRequests w' = persistedRequests emptyWorld ++ [result_request result] /\
    (exists earlier later,
        logs w' = logs emptyWorld ++ earlier ++ uploadFailureLog :: later).
Proof.
  apply (upload_failure_not_fatal (uploadDown (Resolved (feedAnswer "<rss/>")))
           feedUrl withStorage emptyWorld (feedAnswer "<rss/>") "<rss/>"
           "deflated:<rss/>" (Error "bucket unreachable")).
  - reflexivity.
  - vm_compute. reflexivity.
  - reflexivity.
  - reflexivity.
  - reflexivity.
  - reflexivity.
  - intros e [=].
  - repeat split; reflexivity.
Defined.

Lemma recorded_status_follows_table_witness :
  exists result w',
    let env := exampleEnv (Resolved brokenCharsetAnswer) None None in
    fetchAndSaveResponse env feedUrl withFlush emptyWorld = (Resolved result, w') /\
    req_status (result_request result) = Some (statusTable env feedUrl withFlush).
Proof.
  apply (recorded_status_follows_table
           (exampleEnv (Resolved brokenCharsetAnswer) None None)
           feedUrl withFlush emptyWorld).
  - reflexivity.
  - repeat split; reflexivity.
Defined.

Lemma recorded_request_shape_witness :
  exists result w' st,
    let env := exampleEnv (Rejected (FetchError "system" "getaddrinfo ENOTFOUND")) None None in
    fetchAndSaveResponse env feedUrl withFlush emptyWorld = (Resolved result, w') /\
    persistedRequests w' = persistedRequests emptyWorld ++ [result_request result] /\
    req_status (result_request result) = Some st /\
    if isFetchFailure st
    then response (result_request result) = None /\
         errorMessage (result_request result) <> None /\
         responseText result = None /\
         exists e, fetchFeedResponse env feedUrl (fetchOptionsFor env withFlush) = Rejected e /\
                   errorMessage (result_request result) = Some (message e)
    else errorMessage (result_request result) = None /\
         responseText result <> None /\
         exists p, response (result_request result) = Some p /\
                   persistedResponses w' = persistedResponses emptyWorld ++ [p].
Proof.
  apply (recorded_request_shape
           (exampleEnv (Rejected (FetchError "system" "getaddrinfo ENOTFOUND")) None None)
           feedUrl withFlush emptyWorld).
  - reflexivity.
  - repeat split; reflexivity.
Defined.

End FeedFetcherRuns.


(* ================================================================= *)
(** ** Headers: what is sent, what is stored, what is read *)

Module FeedFetcherHeaders.

Import FeedFetcherService.

Lemma headersGet_objSet_same k v obj : headersGet k (objSet k v obj) = Some v.
Proof.
  induction obj as [|[k' v'] obj IH]; simpl.
  - rewrite String.eqb_refl. reflexivity.
  - destruct (String.eqb k k') eqn:E; simpl.
    + rewrite String.eqb_sym, E. reflexivity.
    + rewrite String.eqb_sym, E. exact IH.
Qed.

Lemma headersGet_objSet_other k v name obj :
  name <> k -> headersGet name (objSet k v obj) = headersGet name obj.
Proof.
  intros Hne. induction obj as [|[k' v'] obj IH]; simpl.
  - destruct (String.eqb_spec k name); [congruence | reflexivity].
  - destruct (String.eqb_spec k k') as [->|Hk]; simpl.
    + destruct (String.eqb_spec k' name); [congruence | reflexivity].
    + rewrite IH. reflexivity.
Qed.

Lemma objSet_keys k v obj :
  map fst (objSet k v obj)
  = if existsb (String.eqb k) (map fst obj) then map fst obj else map fst obj ++ [k].
Proof.
  induction obj as [|[k' v'] obj IH]; simpl; [reflexivity|].
  destruct (String.eqb k k'); simpl; [reflexivity|].
  rewrite IH. destruct (existsb _ _); reflexivity.
Qed.

(** X15.  The request sent.  [fetchFeedResponse] calls node-fetch with a
    timeout of 15 seconds, at most 5 redirects, and the caller's headers
    in which [user-agent] is set to the given user agent, or to the
    default one when none or an empty one is given: a [user-agent] among
    the caller's headers is overridden, every other header is passed as
    it is, and no header is added or dropped. *)
Theorem fetchFeedResponse_sends_user_agent env url options :
  let given := match headers options with Some h => h | None => [] end in
  let agent := if truthy (userAgent options)
               then match userAgent options with Some u => u | None => "" end
               else defaultUserAgent env in
  exists sent,
    fetchFeedResponse env url options
      = fetch env url {| timeout := 15000; follow := 5; init_headers := sent |} /\
    headersGet "user-agent" sent = Some agent /\
    (forall name, name <> "user-agent" -> headersGet name sent = headersGet name given) /\
    map fst sent
      = (if existsb (String.eqb "user-agent") (map fst given)
         then map fst given else map fst given ++ ["user-agent"]).
Proof.
  cbv zeta. eexists. split; [reflexivity|]. split; [|split].
  - rewrite headersGet_objSet_same.
    destruct (userAgent options) as [[|c u]|]; reflexivity.
  - intros name Hne. apply headersGet_objSet_other. exact Hne.
  - apply objSet_keys.
Qed.


(** *** The charset of a content type *)






End FeedFetcherHeaders.


(* ================================================================= *)
(** ** Delivery to Discord: every outcome *)

Module DiscordDelivery.

Import DiscordMediumService DiscordMediumFacts.

(** The job [deliverArticleToChannel] enqueues for one payload. *)
Definition channelJob (env : Env) (article : Article) (channelId : string)
           (details : DeliveryDetails) (body : DiscordMessageApiPayload) : Job :=
  {| job_url := getChannelApiUrl channelId;
     job_method := "POST";
     job_body := JSON_stringify env body;
     job_meta :=
       {| meta_id := deliveryId details;
          articleID := flattened_id article;
          feedURL := feed_url details;
          meta_channel := Some channelId;
          meta_webhookId := None;
          feedId := feed_id details;
          meta_guildId := guildId (deliverySettings details);
          emitDeliveryResult := true |} |}.

(** The one payload of a delivery: [deliverArticle] passes no split
    options on. *)
Definition payloadOf (env : Env) (article : Article) (details : DeliveryDetails)
  : DiscordMessageApiPayload :=
  {| p_content :=
       match replaceTemplateString env (flattened article)
               (content (deliverySettings details)) with
       | Some (String c r) => String c r
       | _ => EmptyString
       end;
     p_embeds := option_map (map (formatEmbed env article))
                            (embeds (deliverySettings details)) |}.

(** The job of a delivery, if it has a target: the webhook's when there is
    a webhook, the channel's otherwise. *)
Definition jobOf (env : Env) (article : Article) (details : DeliveryDetails)
  : option Job :=
  match webhook (deliverySettings details), channel (deliverySettings details) with
  | Some wh, _ => Some (webhookJob env article wh details (payloadOf env article details))
  | None, Some ch =>
      Some (channelJob env article (channel_id ch) details (payloadOf env article details))
  | None, None => None
  end.

Definition pendingState (details : DeliveryDetails) : ArticleDeliveryState :=
  {| state_id := deliveryId details;
     state_mediumId := mediumId details;
     state_status := PendingDelivery;
     errorCode := None;
     internalMessage := None |}.

Definition failedState (details : DeliveryDetails) (code : ArticleDeliveryErrorCode)
           (msg : string) : ArticleDeliveryState :=
  {| state_id := deliveryId details;
     state_mediumId := mediumId details;
     state_status := Failed;
     errorCode := Some code;
     internalMessage := Some msg |}.

Definition deliveryFailureLog (article : Article) : string :=
  "Failed to deliver article " ++ flattened_id article ++ " to Discord webook/channel.".

(** Every run of [deliverArticle]. *)
Lemma deliverArticle_run env article details s :
  deliverArticle env article details s =
  match jobOf env article details with
  | None => (Resolved (failedState details NoChannelOrWebhook
                         "No channel or webhook specified"), s)
  | Some job =>
      match enqueue env job with
      | None =>
          (Resolved (pendingState details),
           {| enqueueCalls := enqueueCalls s ++ [job]; errorLogs := errorLogs s |})
      | Some e =>
          (Resolved (failedState details Internal (message e)),
           {| enqueueCalls := enqueueCalls s ++ [job];
              errorLogs := errorLogs s ++ [deliveryFailureLog article] |})
      end
  end.
Proof.
  unfold deliverArticle, jobOf.
  destruct (webhook (deliverySettings details)) as [wh|];
    destruct (channel (deliverySettings details)) as [ch|]; try reflexivity.
  all: unfold tryCatch, deliverArticleToWebhook, deliverArticleToChannel, bind;
    cbn [generateApiPayloads map promiseAll];
    unfold producerEnqueue, bind, modify, throw, ret.
  all: try (destruct wh as [i t n u]; cbn [webhook_id token]).
  all: match goal with
       | |- _ = match enqueue _ ?J with _ => _ end =>
           match goal with
           | |- context [match enqueue _ ?j with _ => _ end] =>
               change j with J; destruct (enqueue env J)
           end
       end; reflexivity.
Qed.

(** X22.  [deliverArticle] never rejects.  Whatever the producer and the
    other collaborators do, it resolves with a state that carries the
    delivery id and the medium id; the state is [PendingDelivery] exactly
    when it has no error code, and then exactly one job was handed to the
    producer and accepted; a failed state has an error code and a message;
    at most one job is handed to the producer in any case. *)
Theorem deliverArticle_always_resolves env article details s :
  exists st s',
    deliverArticle env article details s = (Resolved st, s') /\
    state_id st = deliveryId details /\
    state_mediumId st = mediumId details /\
    (state_status st = PendingDelivery <-> errorCode st = None) /\
    (errorCode st = None <-> internalMessage st = None) /\
    (state_status st = PendingDelivery ->
     exists job, enqueueCalls s' = enqueueCalls s ++ [job] /\
                 enqueue env job = None /\ errorLogs s' = errorLogs s) /\
    (exists jobs, enqueueCalls s' = enqueueCalls s ++ jobs /\ (List.length jobs <= 1)%nat).
Proof.
  rewrite deliverArticle_run.
  destruct (jobOf env article details) as [job|];
    [destruct (enqueue env job) as [e|] eqn:He|];
    eexists; eexists; (split; [reflexivity|]); simpl;
    (split; [reflexivity|]); (split; [reflexivity|]);
    (split; [split; discriminate || reflexivity|]);
    (split; [split; discriminate || reflexivity|]);
    (split; [try discriminate|]).
  - exists [job]. auto.
  - intros _. exists job. auto.
  - exists [job]. auto.
  - exists []. rewrite app_nil_r. auto.
Qed.


(** X24.  Delivery to a channel.  With a channel and no webhook in the
    delivery settings, [deliverArticle] hands the producer exactly one
    job, a POST to the messages URL of the channel, which is no webhook
    URL, tagged with the channel id and with no webhook id; the delivery
    is pending when the producer accepts the job. *)
Theorem deliverArticle_to_channel env article details s ch :
  webhook (deliverySettings details) = None ->
  channel (deliverySettings details) = Some ch ->
  exists job,
    enqueueCalls (snd (deliverArticle env article details s)) = enqueueCalls s ++ [job] /\
    job_url job = getChannelApiUrl (channel_id ch) /\
    job_method job = "POST" /\
    job_body job = JSON_stringify env (payloadOf env article details) /\
    meta_channel (job_meta job) = Some (channel_id ch) /\
    meta_webhookId (job_meta job) = None /\
    meta_id (job_meta job) = deliveryId details /\
    articleID (job_meta job) = flattened_id article /\
    (forall webhookId webhookToken,
        job_url job <> getWebhookApiUrl webhookId webhookToken) /\
    (enqueue env job = None ->
     deliverArticle env article details s =
     (Resolved (pendingState details),
      {| enqueueCalls := enqueueCalls s ++ [job]; errorLogs := errorLogs s |})).
Proof.
  intros Hw Hc. rewrite deliverArticle_run. unfold jobOf. rewrite Hw, Hc.
  eexists. split; [destruct (enqueue env _); reflexivity|].
  simpl. repeat split.
  - intros i t E. symmetry in E. revert E. apply webhook_url_is_no_channel_url.
  - intros He. rewrite He. reflexivity.
Qed.

Definition withSplitOptions (so : option SplitOptions) (details : DeliveryDetails)
  : DeliveryDetails :=
  {| deliveryId := deliveryId details;
     mediumId := mediumId details;
     deliverySettings :=
       {| guildId := guildId (deliverySettings details);
          channel := channel (deliverySettings details);
          webhook := webhook (deliverySettings details);
          content := content (deliverySettings details);
          embeds := embeds (deliverySettings details);
          splitOptions := so |};
     feed_id := feed_id details;
     feed_url := feed_url details |}.

Definition withApplySplit (f : string -> SplitOptions -> list string) (env : Env) : Env :=
  {| replaceTemplateString := replaceTemplateString env;
     applySplit := f;
     JSON_stringify := JSON_stringify env;
     toISOString := toISOString env;
     dateNow := dateNow env;
     enqueue := enqueue env |}.

(** X25.  Split options play no part in [deliverArticle].  Neither
    [deliverArticleToChannel] nor [deliverArticleToWebhook] passes the
    [splitOptions] of the delivery settings to [generateApiPayloads]: the
    outcome of a delivery and what it hands to the producer are the same
    whatever the split options of the settings are and whatever the
    formatter's [applySplit] would return, and the content of the one
    payload is the whole content, unsplit. *)
Theorem deliverArticle_ignores_split_options env article details s so applySplit' :
  deliverArticle (withApplySplit applySplit' env) article (withSplitOptions so details) s
    = deliverArticle env article details s /\
  forall job, In job (skipn (List.length (enqueueCalls s))
                        (enqueueCalls (snd (deliverArticle env article details s)))) ->
              job_body job = JSON_stringify env (payloadOf env article details).
Proof.
  split.
  - rewrite !deliverArticle_run. unfold jobOf. simpl.
    destruct (webhook (deliverySettings details)) as [wh|];
      destruct (channel (deliverySettings details)) as [ch|]; reflexivity.
  - rewrite deliverArticle_run. unfold jobOf.
    destruct (webhook (deliverySettings details)) as [wh|];
      destruct (channel (deliverySettings details)) as [ch|].
    4:{ simpl. rewrite skipn_all. intros job []. }
    all: destruct (enqueue env _); simpl;
      rewrite skipn_app, skipn_all, Nat.sub_diag; simpl;
      intros job [<-|[]]; reflexivity.
Qed.

(** *** The API URLs *)

Lemma append_inv_head (p a b : string) : (p ++ a = p ++ b)%string -> a = b.
Proof. induction p as [|c p IH]; simpl; [auto|]. intros [= H]. auto. Qed.

Lemma append_length (a b : string) :
  String.length (a ++ b) = (String.length a + String.length b)%nat.
Proof. induction a as [|c a IH]; simpl; [reflexivity|]. rewrite IH. reflexivity. Qed.

Lemma append_inv_tail (a b t : string) : (a ++ t = b ++ t)%string -> a = b.
Proof.
  revert b. induction a as [|c a IH]; intros [|c' b] H; simpl in H.
  - reflexivity.
  - apply (f_equal String.length) in H. simpl in H. rewrite append_length in H. lia.
  - apply (f_equal String.length) in H. simpl in H. rewrite append_length in H. lia.
  - injection H as -> H. rewrite (IH b H). reflexivity.
Qed.

Fixpoint hasSlash (s : string) : bool :=
  match s with
  | EmptyString => false
  | String c s' => Ascii.eqb c "/" || hasSlash s'
  end.

Lemma slash_separates (a b t u : string) :
  hasSlash a = false -> hasSlash b = false ->
  (a ++ String "/" t = b ++ String "/" u)%string -> a = b /\ t = u.
Proof.
  revert b. induction a as [|c a IH]; intros [|c' b] Ha Hb H; simpl in *.
  - injection H as ->. auto.
  - injection H as <- _. rewrite Ascii.eqb_refl in Hb. discriminate.
  - injection H as -> _. rewrite Ascii.eqb_refl in Ha. discriminate.
  - injection H as -> H.
    apply orb_false_iff in Ha as [_ Ha]. apply orb_false_iff in Hb as [_ Hb].
    destruct (IH b Ha Hb H) as [-> ->]. auto.
Qed.

(** X26.  The API URLs identify the target.  Two channels have the same
    messages URL only if they are the same channel, and two webhooks
    whose ids contain no slash (Discord ids are numbers) have the same
    URL only if id and token agree; a channel URL is never a webhook
    URL.  So jobs for different targets never share a URL. *)
Theorem api_urls_identify_target channelId channelId' webhookId token_ webhookId' token' :
  hasSlash webhookId = false ->
  hasSlash webhookId' = false ->
  (getChannelApiUrl channelId = getChannelApiUrl channelId' -> channelId = channelId') /\
  (getWebhookApiUrl webhookId token_ = getWebhookApiUrl webhookId' token' ->
   webhookId = webhookId' /\ token_ = token') /\
  getChannelApiUrl channelId <> getWebhookApiUrl webhookId token_.
Proof.
  intros Hi Hi'. split; [|split].
  - intros H. unfold getChannelApiUrl in H.
    apply append_inv_head, append_inv_head in H.
    apply append_inv_tail in H. exact H.
  - intros H. unfold getWebhookApiUrl in H.
    apply append_inv_head, append_inv_head in H.
    apply (slash_separates _ _ _ _ Hi Hi' H).
  - intros E. symmetry in E. revert E. apply webhook_url_is_no_channel_url.
Qed.

Lemma api_urls_identify_target_witness :
  (getChannelApiUrl "2001" = getChannelApiUrl "2002" -> "2001" = "2002") /\
  (getWebhookApiUrl "1001" "secret" = getWebhookApiUrl "1002" "secret" ->
   "1001" = "1002" /\ "secret" = "secret") /\
  getChannelApiUrl "2001" <> getWebhookApiUrl "1001" "secret".
Proof.
  apply (api_urls_identify_target "2001" "2002" "1001" "secret" "1002" "secret");
    reflexivity.
Defined.


Lemma deliverArticle_to_channel_witness :
  exists job,
    let env := exampleEnv None in
    let details := exampleDetails (Some exampleChannel) None in
    enqueueCalls (snd (deliverArticle env exampleArticle details idle))
      = enqueueCalls idle ++ [job] /\
    job_url job = getChannelApiUrl (channel_id exampleChannel) /\
    job_method job = "POST" /\
    job_body job = JSON_stringify env (payloadOf env exampleArticle details) /\
    meta_channel (job_meta job) = Some (channel_id exampleChannel) /\
    meta_webhookId (job_meta job) = None /\
    meta_id (job_meta job) = deliveryId details /\
    articleID (job_meta job) = flattened_id exampleArticle /\
    (forall webhookId webhookToken,
        job_url job <> getWebhookApiUrl webhookId webhookToken) /\
    (enqueue env job = None ->
     deliverArticle env exampleArticle details idle =
     (Resolved (pendingState details),
      {| enqueueCalls := enqueueCalls idle ++ [job]; errorLogs := errorLogs idle |})).
Proof.
  apply (deliverArticle_to_channel (exampleEnv None) exampleArticle
           (exampleDetails (Some exampleChannel) None) idle exampleChannel);
    reflexivity.
Defined.

End DiscordDelivery.

(* ================================================================= *)
(** ** DiscordMediumService: test deliveries *)

Module DiscordTestDelivery.

Import DiscordMediumService.

(** [details.mediumDetails] of a [TestDiscordDeliveryDetails]. *)
Record MediumDetails : Type := {
  test_channel : option Channel;
  test_webhook : option Webhook;
  test_embeds : option (list Embed);
  test_content : option string
}.

(** A payload as [deliverTestArticle] sends and returns it: for a webhook,
    with [username] and [avatar_url] added. *)
Record TestPayload : Type := {
  payload : DiscordMessageApiPayload;
  username : option (option string);     (* [None]: the key is absent *)
  avatar_url : option (option string)
}.

(** [JobResponse<unknown> | JobResponseError] *)
Inductive JobResult : Type :=
| JobResponse (status : Z) (body : string)
| JobResponseError (message : string).

(** One call of [producer.fetch]. *)
Record FetchCall : Type := {
  call_url : string;
  call_method : string;
  call_body : string
}.

Record TestState : Type := {
  producer : State;                (* what [deliverArticle] works on *)
  fetchCalls : list FetchCall      (* calls of producer.fetch, oldest first *)
}.

Record TestEnv : Type := {
  service : Env;
  stringify : TestPayload -> string;                 (* JSON.stringify *)
  producerFetch : FetchCall -> Outcome JobResult
}.

Record TestResult : Type := {
  apiPayload : option TestPayload;       (* apiPayloads[0] *)
  result : option JobResult              (* results[0] *)
}.

Section Service.

Variable env : TestEnv.

Definition fetchOne (apiUrl : string) (p : TestPayload) : Async TestState JobResult :=
  let call := {| call_url := apiUrl; call_method := "POST";
                 call_body := stringify env p |} in
  _ <- modify (fun s => {| producer := producer s;
                           fetchCalls := fetchCalls s ++ [call] |}) ;;
  fun s => (producerFetch env call, s).

(** [apiPayloads.map(...)], [Promise.all] and the [return] of either
    branch. *)
Definition fetchAll (apiUrl : string) (apiPayloads : list TestPayload)
  : Async TestState TestResult :=
  results <- promiseAll (fetchOne apiUrl) apiPayloads ;;
  ret {| apiPayload := hd_error apiPayloads; result := hd_error results |}.

Definition deliverTestArticle (article : Article) (details : MediumDetails)
  : Async TestState TestResult :=
  let channelId := option_map channel_id (test_channel details) in
  let webhookId := option_map webhook_id (test_webhook details) in
  let apiPayloads :=
    generateApiPayloads (service env) article
      (test_embeds details) (test_content details) None in
  match (if truthy webhookId then test_webhook details else None) with
  | Some wh =>
      fetchAll (getWebhookApiUrl (webhook_id wh) (token wh))
        (map (fun p => {| payload := p; username := Some (name wh);
                          avatar_url := Some (iconUrl wh) |})
             apiPayloads)
  | None =>
      match channelId with
      | Some (String c i) =>
          fetchAll (getChannelApiUrl (String c i))
            (map (fun p => {| payload := p; username := None; avatar_url := None |})
                 apiPayloads)
      | _ => throw (Error "No channel or webhook specified for Discord medium")
      end
  end.

End Service.

End DiscordTestDelivery.


(* ================================================================= *)
(** ** Test deliveries: every outcome *)

Module DiscordTestFacts.

Import DiscordMediumService DiscordMediumFacts DiscordDelivery DiscordTestDelivery.

(** The target of a test delivery: its URL and what is added to the
    payload. *)
Definition testTarget (details : MediumDetails)
  : option (string * option (option string) * option (option string)) :=
  match (if truthy (option_map webhook_id (test_webhook details))
         then test_webhook details else None) with
  | Some wh =>
      Some (getWebhookApiUrl (webhook_id wh) (token wh), Some (name wh), Some (iconUrl wh))
  | None =>
      match option_map channel_id (test_channel details) with
      | Some (String c i) => Some (getChannelApiUrl (String c i), None, None)
      | _ => None
      end
  end.

(** The content and embeds of the one payload. *)
Definition testPayloadOf (env : Env) (article : Article) (details : MediumDetails)
  : DiscordMessageApiPayload :=
  {| p_content :=
       match replaceTemplateString env (flattened article) (test_content details) with
       | Some (String c r) => String c r
       | _ => EmptyString
       end;
     p_embeds := option_map (map (formatEmbed env article)) (test_embeds details) |}.

(** Every run of [deliverTestArticle]. *)
Lemma deliverTestArticle_run env article details s :
  deliverTestArticle env article details s =
  match testTarget details with
  | None =>
      (Rejected (Error "No channel or webhook specified for Discord medium"), s)
  | Some (apiUrl, username_, avatar_) =>
      let sent := {| payload := testPayloadOf (service env) article details;
                     username := username_; avatar_url := avatar_ |} in
      let call := {| call_url := apiUrl; call_method := "POST";
                     call_body := stringify env sent |} in
      let s' := {| producer := producer s; fetchCalls := fetchCalls s ++ [call] |} in
      match producerFetch env call with
      | Resolved r => (Resolved {| apiPayload := Some sent; result := Some r |}, s')
      | Rejected e => (Rejected e, s')
      end
  end.
Proof.
  unfold deliverTestArticle, testTarget.
  destruct (if truthy (option_map webhook_id (test_webhook details))
            then test_webhook details else None) as [wh|].
  - cbv zeta. unfold fetchAll, bind. cbn [generateApiPayloads map promiseAll].
    unfold fetchOne, bind, modify, ret. fold (testPayloadOf (service env) article details).
    destruct (producerFetch env _); reflexivity.
  - destruct (option_map channel_id (test_channel details)) as [[|c i]|]; try reflexivity.
    cbv zeta. unfold fetchAll, bind. cbn [generateApiPayloads map promiseAll].
    unfold fetchOne, bind, modify, ret. fold (testPayloadOf (service env) article details).
    destruct (producerFetch env _); reflexivity.
Qed.

(** X27.  A test delivery without target.  When the medium details have no
    webhook with a non-empty id and no channel with a non-empty id,
    [deliverTestArticle] rejects with the error "No channel or webhook
    specified for Discord medium" and calls the producer not at all;
    unlike [deliverArticle], it does not turn the error into a state. *)
Theorem deliverTestArticle_without_target_rejects env article details s :
  truthy (option_map webhook_id (test_webhook details)) = false ->
  truthy (option_map channel_id (test_channel details)) = false ->
  deliverTestArticle env article details s =
  (Rejected (Error "No channel or webhook specified for Discord medium"), s).
Proof.
  intros Hw Hc. rewrite deliverTestArticle_run. unfold testTarget. rewrite Hw.
  destruct (option_map channel_id (test_channel details)) as [[|c i]|];
    try reflexivity. discriminate Hc.
Qed.

(** X28.  A test delivery to a webhook.  With a webhook of non-empty id in
    the medium details, with or without a channel, [deliverTestArticle]
    calls [producer.fetch] once, never [producer.enqueue]: a POST to the
    URL of the webhook whose body is the JSON text of the payload with
    the webhook's name as [username] and its icon as [avatar_url].  It
    resolves with that payload and the producer's answer, and rejects
    with the producer's error when the producer rejects: nothing is
    caught. *)
Theorem deliverTestArticle_to_webhook env article details s wh :
  test_webhook details = Some wh ->
  webhook_id wh <> "" ->
  let sent := {| payload := testPayloadOf (service env) article details;
                 username := Some (name wh); avatar_url := Some (iconUrl wh) |} in
  let call := {| call_url := getWebhookApiUrl (webhook_id wh) (token wh);
                 call_method := "POST";
                 call_body := stringify env sent |} in
  fetchCalls (snd (deliverTestArticle env article details s)) = fetchCalls s ++ [call] /\
  producer (snd (deliverTestArticle env article details s)) = producer s /\
  fst (deliverTestArticle env article details s)
    = match producerFetch env call with
      | Resolved r => Resolved {| apiPayload := Some sent; result := Some r |}
      | Rejected e => Rejected e
      end.
Proof.
  intros Hw Hid. cbv zeta. rewrite deliverTestArticle_run. unfold testTarget.
  rewrite Hw. cbn [option_map].
  assert (Ht : truthy (Some (webhook_id wh)) = true).
  { destruct (webhook_id wh); [congruence | reflexivity]. }
  rewrite Ht. cbv zeta.
  destruct (producerFetch env _); auto.
Qed.

(** X29.  The test delivery and the delivery use the same endpoint.  For
    the same channel, webhook, content and embeds, ids being non-empty,
    [deliverTestArticle] posts to the URL that [deliverArticle] enqueues
    its job for, with the same content and embeds in the payload; and
    one has a target exactly when the other has. *)
Theorem test_delivery_uses_delivery_url env article details test s ts :
  test_channel test = channel (deliverySettings details) ->
  test_webhook test = webhook (deliverySettings details) ->
  test_content test = content (deliverySettings details) ->
  test_embeds test = embeds (deliverySettings details) ->
  (forall wh, webhook (deliverySettings details) = Some wh -> webhook_id wh <> "") ->
  (forall ch, channel (deliverySettings details) = Some ch -> channel_id ch <> "") ->
  exists jobs calls,
    enqueueCalls (snd (deliverArticle (service env) article details s))
      = enqueueCalls s ++ jobs /\
    fetchCalls (snd (deliverTestArticle env article test ts)) = fetchCalls ts ++ calls /\
    map job_url jobs = map call_url calls /\
    map job_method jobs = map call_method calls /\
    testPayloadOf (service env) article test = payloadOf (service env) article details.
Proof.
  intros Hc Hw Hcontent Hembeds Hwid Hcid.
  rewrite deliverArticle_run, deliverTestArticle_run. unfold jobOf, testTarget.
  rewrite Hc, Hw.
  assert (Hp : testPayloadOf (service env) article test
               = payloadOf (service env) article details).
  { unfold testPayloadOf, payloadOf. rewrite Hcontent, Hembeds. reflexivity. }
  destruct (webhook (deliverySettings details)) as [wh|].
  - cbn [option_map].
    assert (Ht : truthy (Some (webhook_id wh)) = true).
    { pose proof (Hwid wh eq_refl). destruct (webhook_id wh); [congruence | reflexivity]. }
    rewrite Ht. cbv zeta.
    eexists [_], [_].
    destruct (enqueue (service env) _); destruct (producerFetch env _); simpl; auto.
  - cbn [truthy option_map].
    destruct (channel (deliverySettings details)) as [ch|].
    + cbn [option_map]. pose proof (Hcid ch eq_refl) as Hne.
      destruct (channel_id ch) as [|c i] eqn:Eid; [congruence|]. cbv zeta.
      eexists [_], [_].
      destruct (enqueue (service env) _); destruct (producerFetch env _); simpl; auto.
    + exists [], []. simpl. rewrite !app_nil_r. auto.
Qed.

(** *** Concrete test deliveries *)

Definition exampleTestEnv (answer : Outcome JobResult) : TestEnv :=
  {| service := exampleEnv None;
     stringify := fun p => p_content (payload p);
     producerFetch := fun _ => answer |}.

Definition exampleTest (ch : option Channel) (wh : option Webhook) : MediumDetails :=
  {| test_channel := ch; test_webhook := wh;
     test_embeds := None; test_content := Some "{{title}}" |}.

Definition idleTest : TestState := {| producer := idle; fetchCalls := [] |}.

(** A webhook object without id: the test delivery goes to the channel,
    where [deliverArticle] would use the webhook. *)
Definition namelessWebhook : Webhook :=
  {| webhook_id := ""; token := "secret"; name := None; iconUrl := None |}.

Example empty_webhook_id_run :
  map call_url
      (fetchCalls (snd (deliverTestArticle (exampleTestEnv (Resolved (JobResponse 200 "{}")))
                          exampleArticle
                          (exampleTest (Some exampleChannel) (Some namelessWebhook))
                          idleTest)))
    = ["https://discord.com/api/v10/channels/ch-1/messages"] /\
  map job_url
      (enqueueCalls (snd (deliverArticle (exampleEnv None) exampleArticle
                            (exampleDetails (Some exampleChannel) (Some namelessWebhook))
                            idle)))
    = ["https://discord.com/api/v10/webhooks//secret"].
Proof. vm_compute. split; reflexivity. Qed.

Lemma deliverTestArticle_without_target_rejects_witness :
  deliverTestArticle (exampleTestEnv (Resolved (JobResponse 200 "{}"))) exampleArticle
                     (exampleTest None (Some namelessWebhook)) idleTest =
  (Rejected (Error "No channel or webhook specified for Discord medium"), idleTest).
Proof.
  apply (deliverTestArticle_without_target_rejects
           (exampleTestEnv (Resolved (JobResponse 200 "{}"))) exampleArticle
           (exampleTest None (Some namelessWebhook)) idleTest); reflexivity.
Defined.

Lemma deliverTestArticle_to_webhook_witness :
  fst (deliverTestArticle (exampleTestEnv (Rejected (Error "timeout"))) exampleArticle
         (exampleTest (Some exampleChannel) (Some exampleWebhook)) idleTest)
    = Rejected (Error "timeout") /\
  map call_url
      (fetchCalls (snd (deliverTestArticle (exampleTestEnv (Rejected (Error "timeout")))
                          exampleArticle
                          (exampleTest (Some exampleChannel) (Some exampleWebhook))
                          idleTest)))
    = ["https://discord.com/api/v10/webhooks/wh-1/secret"].
Proof.
  destruct (deliverTestArticle_to_webhook
              (exampleTestEnv (Rejected (Error "timeout"))) exampleArticle
              (exampleTest (Some exampleChannel) (Some exampleWebhook)) idleTest
              exampleWebhook eq_refl) as (Hcalls & _ & Hout).
  - discriminate.
  - split; [exact Hout|]. rewrite Hcalls. reflexivity.
Defined.

Lemma test_delivery_uses_delivery_url_witness :
  exists jobs calls,
    enqueueCalls (snd (deliverArticle (exampleEnv None) exampleArticle
                         (exampleDetails (Some exampleChannel) (Some exampleWebhook)) idle))
      = enqueueCalls idle ++ jobs /\
    fetchCalls (snd (deliverTestArticle (exampleTestEnv (Resolved (JobResponse 200 "{}")))
                       exampleArticle
                       (exampleTest (Some exampleChannel) (Some exampleWebhook)) idleTest))
      = fetchCalls idleTest ++ calls /\
    map job_url jobs = map call_url calls /\
    map job_method jobs = map call_method calls /\
    testPayloadOf (exampleEnv None) exampleArticle
                  (exampleTest (Some exampleChannel) (Some exampleWebhook))
      = payloadOf (exampleEnv None) exampleArticle
                  (exampleDetails (Some exampleChannel) (Some exampleWebhook)).
Proof.
  apply (test_delivery_uses_delivery_url
           (exampleTestEnv (Resolved (JobResponse 200 "{}"))) exampleArticle
           (exampleDetails (Some exampleChannel) (Some exampleWebhook))
           (exampleTest (Some exampleChannel) (Some exampleWebhook)) idle idleTest);
    try reflexivity.
  - intros wh [= <-]. discriminate.
  - intros ch [= <-]. discriminate.
Defined.

End DiscordTestFacts.


(* ================================================================= *)
(** ** A second refresh cycle *)

Module ScheduleHandlerRepeat.

Import ScheduleHandlerService ScheduleHandlerFacts ScheduleHandlerMore ScheduleHandlerCycle.

Lemma stepsDoc_settled qs d : settled qs d = true -> stepsDoc qs d = d.
Proof.
  revert d. induction qs as [|q qs IH]; intros d H; [reflexivity|].
  simpl in H. apply andb_true_iff in H as [Hq Hqs]. apply negb_true_iff in Hq.
  rewrite stepsDoc_cons. unfold stepDoc. rewrite Hq. apply IH. exact Hqs.
Qed.

Lemma forallb_agree {A} (f g : A -> bool) l :
  (forall x, In x l -> f x = g x) -> forallb f l = forallb g l.
Proof.
  induction l as [|x l IH]; intros H; [reflexivity|]. simpl.
  rewrite (H x (or_introl eq_refl)), IH; [reflexivity|].
  intros y Hy. apply H. right. exact Hy.
Qed.

(** Whether the queries of a sync of [f] match a document depends on its
    subscriber and its field [f] alone. *)
Lemma settled_ext f default groups d d' :
  user_discordUserId d = user_discordUserId d' ->
  getField f d = getField f d' ->
  settled (syncQueries f default groups) d = settled (syncQueries f default groups) d'.
Proof.
  intros Hu Hf. unfold settled. apply forallb_agree. intros q Hq. f_equal.
  assert (Hfield : q_field q = f).
  { unfold syncQueries in Hq. apply in_app_or in Hq as [Hq|[<-|[]]]; [|reflexivity].
    apply in_map_iff in Hq as (g & <- & _). reflexivity. }
  unfold queryMatches, fieldNe. rewrite Hfield, Hf. f_equal.
  unfold userMatches. rewrite Hu. reflexivity.
Qed.

(** The bulk updates of the two syncs of a cycle. *)
Definition rateQueries (env : Env) (benefits : list Benefits) : list UpdateQuery :=
  syncQueries RefreshRateSeconds (defaultRefreshRateSeconds env)
    (groupSupporters refreshRateSeconds (filter isSupporter benefits)).

Definition limitQueries (env : Env) (benefits : list Benefits) : list UpdateQuery :=
  syncQueries MaxDailyArticles (maxDailyArticlesDefault env)
    (groupSupporters maxDailyArticles (filter isSupporter benefits)).

Section Snapshot.

Variable env : Env.
Variable benefits : list Benefits.

Hypothesis databaseWorks : forall q, updateManyError env q = None.

(** No supporter is listed under two refresh rates, nor under two daily
    limits. *)
Hypothesis one_rate :
  forall a b, In a benefits -> In b benefits ->
              isSupporter a = true -> isSupporter b = true ->
              discordUserId a = discordUserId b ->
              refreshRateSeconds a = refreshRateSeconds b.
Hypothesis one_limit :
  forall a b, In a benefits -> In b benefits ->
              isSupporter a = true -> isSupporter b = true ->
              discordUserId a = discordUserId b ->
              maxDailyArticles a = maxDailyArticles b.

Lemma one_group (key : Benefits -> Z) :
  (forall a b, In a benefits -> In b benefits ->
               isSupporter a = true -> isSupporter b = true ->
               discordUserId a = discordUserId b -> key a = key b) ->
  forall k1 k2 id,
    inGroup (groupSupporters key (filter isSupporter benefits)) k1 id ->
    inGroup (groupSupporters key (filter isSupporter benefits)) k2 id -> k1 = k2.
Proof.
  intros Hcons k1 k2 id H1 H2.
  apply groupSupporters_inGroup in H1 as (a & Ha & <- & Hida).
  apply groupSupporters_inGroup in H2 as (b & Hb & <- & Hidb).
  apply filter_In in Ha as [Ha Hsa]. apply filter_In in Hb as [Hb Hsb].
  apply Hcons; congruence.
Qed.

(** The collection after the two syncs. *)
Lemma syncs_feeds s :
  exists s2,
    (_ <- syncRefreshRates env benefits ;; syncMaxDailyArticles env benefits) s
      = (Resolved tt, s2) /\
    feeds s2 = map (stepsDoc (limitQueries env benefits))
                   (map (stepsDoc (rateQueries env benefits)) (feeds s)).
Proof.
  pose proof (syncField_resolves env databaseWorks RefreshRateSeconds refreshRateSeconds
                (defaultRefreshRateSeconds env) benefits s) as H1.
  cbv zeta in H1. fold (syncRefreshRates env benefits) in H1.
  fold (rateQueries env benefits) in H1.
  set (s1 := {| feeds := fst (runQueries (rateQueries env benefits) (feeds s));
                trace := trace s ++ snd (runQueries (rateQueries env benefits) (feeds s)) |}) in *.
  pose proof (syncField_resolves env databaseWorks MaxDailyArticles maxDailyArticles
                (maxDailyArticlesDefault env) benefits s1) as H2.
  cbv zeta in H2. fold (syncMaxDailyArticles env benefits) in H2.
  fold (limitQueries env benefits) in H2.
  eexists. split.
  - unfold bind. rewrite H1, H2. reflexivity.
  - cbn [feeds]. rewrite runQueries_feeds. unfold s1. cbn [feeds].
    rewrite runQueries_feeds. reflexivity.
Qed.

(** A document that went through the two syncs is left alone by both. *)
Lemma synced_doc_fixed d :
  let d2 := stepsDoc (limitQueries env benefits) (stepsDoc (rateQueries env benefits) d) in
  stepsDoc (limitQueries env benefits) (stepsDoc (rateQueries env benefits) d2) = d2.
Proof.
  cbv zeta.
  set (d1 := stepsDoc (rateQueries env benefits) d).
  set (d2 := stepsDoc (limitQueries env benefits) d1).
  assert (Hr1 : settled (rateQueries env benefits) d1 = true).
  { apply sync_settles. apply one_group. exact one_rate. }
  assert (Hl2 : settled (limitQueries env benefits) d2 = true).
  { apply sync_settles. apply one_group. exact one_limit. }
  destruct (sync_steps MaxDailyArticles (maxDailyArticlesDefault env)
              (groupSupporters maxDailyArticles (filter isSupporter benefits))
              (one_group maxDailyArticles one_limit) d1) as (Hu & Hfr & _).
  cbv zeta in Hu, Hfr. fold (limitQueries env benefits) in Hu, Hfr. fold d2 in Hu, Hfr.
  assert (Hr2 : settled (rateQueries env benefits) d2 = true).
  { rewrite <- Hr1. apply settled_ext; [exact Hu|].
    unfold frame in Hfr. injection Hfr as _ _ _ Hf. exact Hf. }
  rewrite (stepsDoc_settled (rateQueries env benefits) d2 Hr2).
  apply (stepsDoc_settled (limitQueries env benefits) d2 Hl2).
Qed.

Lemma synced_feeds_fixed fs :
  let fs2 := map (stepsDoc (limitQueries env benefits))
                 (map (stepsDoc (rateQueries env benefits)) fs) in
  map (stepsDoc (limitQueries env benefits))
      (map (stepsDoc (rateQueries env benefits)) fs2) = fs2.
Proof.
  cbv zeta. rewrite !map_map. apply map_ext. intros d. apply synced_doc_fixed.
Qed.

End Snapshot.

(** X5.  A second cycle.  With the benefits lookup, the database and the
    handler working, and a snapshot that lists no supporter under two
    refresh rates or two daily limits: a refresh cycle run again on the
    collection that a first cycle left, with the same snapshot, leaves
    every document as it is and hands the handler the same batches. *)
Theorem second_cycle_changes_nothing env urlsHandler rate benefits s :
  getBenefitsOfAllDiscordUsers env = Resolved benefits ->
  databaseUp env ->
  (forall batch, urlsHandler batch = None) ->
  (forall a b, In a benefits -> In b benefits ->
               isSupporter a = true -> isSupporter b = true ->
               discordUserId a = discordUserId b ->
               refreshRateSeconds a = refreshRateSeconds b) ->
  (forall a b, In a benefits -> In b benefits ->
               isSupporter a = true -> isSupporter b = true ->
               discordUserId a = discordUserId b ->
               maxDailyArticles a = maxDailyArticles b) ->
  exists s1 s2 t1 t2,
    handleRefreshRate env urlsHandler rate s = (Resolved tt, s1) /\
    trace s1 = trace s ++ t1 /\
    handleRefreshRate env urlsHandler rate s1 = (Resolved tt, s2) /\
    trace s2 = trace s1 ++ t2 /\
    feeds s2 = feeds s1 /\
    dispatched t2 = dispatched t1.
Proof.
  intros Hben Hdb Hhandler Hrate Hlimit.
  pose proof Hdb as (Hupd & _ & _).
  assert (Hcalls : forall bs, callsUntilRejection urlsHandler bs = (bs, None)).
  { induction bs as [|b bs IH]; simpl; [reflexivity|]. rewrite Hhandler, IH. reflexivity. }
  assert (Hcycle : forall s0,
    exists s' t,
      handleRefreshRate env urlsHandler rate s0 = (Resolved tt, s') /\
      trace s' = trace s0 ++ t /\
      feeds s' = map (stepsDoc (limitQueries env benefits))
                     (map (stepsDoc (rateQueries env benefits)) (feeds s0)) /\
      dispatched t =
        let entries := entriesOf (map url (filter debug (feeds s')))
                         (getUrlsQueryMatchingRefreshRate env rate (feeds s')) in
        batchesOf (List.length entries) 25 entries).
  { intros s0.
    destruct (cycle_calls env urlsHandler rate benefits s0 Hben Hdb)
      as (sa & t & Hsync & Hs & Hd0 & Hd & Ho).
    destruct (syncs_feeds env benefits Hupd (logged EvGetBenefits s0)) as (sb & Hsync' & Hfeeds).
    rewrite Hsync in Hsync'. injection Hsync' as <-.
    cbv zeta in Hd, Ho. rewrite Hcalls in Hd, Ho. cbn [fst snd] in Hd, Ho.
    destruct (handleRefreshRate env urlsHandler rate s0) as [o s'].
    cbn [fst snd] in Hs, Ho. subst o s'.
    assert (Htrace : exists t0, trace sa = trace s0 ++ t0).
    { unfold bind in Hsync.
      destruct (syncField_trace env RefreshRateSeconds refreshRateSeconds
                  (defaultRefreshRateSeconds env) benefits (logged EvGetBenefits s0))
        as (ta & Hta & _).
      fold (syncRefreshRates env benefits) in Hta.
      destruct (syncRefreshRates env benefits (logged EvGetBenefits s0)) as [[[]|e] sr];
        [|discriminate].
      destruct (syncField_trace env MaxDailyArticles maxDailyArticles
                  (maxDailyArticlesDefault env) benefits sr) as (tb & Htb & _).
      fold (syncMaxDailyArticles env benefits) in Htb.
      rewrite Hsync in Htb. cbn [snd] in Hta, Htb.
      exists ([EvGetBenefits] ++ ta ++ tb). rewrite Htb, Hta. unfold logged. cbn [trace].
      rewrite <- !app_assoc. reflexivity. }
    destruct Htrace as (t0 & Ht0).
    exists {| feeds := feeds sa; trace := trace sa ++ t |}, (t0 ++ t).
    split; [reflexivity|]. cbn [trace feeds]. split; [rewrite Ht0, app_assoc; reflexivity|].
    split; [exact Hfeeds|].
    rewrite dispatched_app, Hd.
    assert (H0 : dispatched t0 = []).
    { apply (app_inv_head (dispatched (trace s0))).
      rewrite <- dispatched_app, <- Ht0, app_nil_r. exact Hd0. }
    rewrite H0. reflexivity. }
  destruct (Hcycle s) as (s1 & t1 & Hrun1 & Ht1 & Hf1 & Hd1).
  destruct (Hcycle s1) as (s2 & t2 & Hrun2 & Ht2 & Hf2 & Hd2).
  assert (Hsame : feeds s2 = feeds s1).
  { rewrite Hf2, Hf1. apply (synced_feeds_fixed env benefits Hrate Hlimit). }
  exists s1, s2, t1, t2.
  split; [exact Hrun1|]. split; [exact Ht1|]. split; [exact Hrun2|]. split; [exact Ht2|].
  split; [exact Hsame|]. rewrite Hd2, Hd1. cbv zeta. rewrite Hsame. reflexivity.
Qed.

Lemma second_cycle_changes_nothing_witness :
  exists s1 s2 t1 t2,
    let env := exampleEnv exampleBenefits in
    handleRefreshRate env (fun _ => None) 120 exampleState = (Resolved tt, s1) /\
    trace s1 = trace exampleState ++ t1 /\
    handleRefreshRate env (fun _ => None) 120 s1 = (Resolved tt, s2) /\
    trace s2 = trace s1 ++ t2 /\
    feeds s2 = feeds s1 /\
    dispatched t2 = dispatched t1.
Proof.
  apply (second_cycle_changes_nothing (exampleEnv exampleBenefits) (fun _ => None) 120
           exampleBenefits exampleState).
  - reflexivity.
  - repeat split; reflexivity.
  - reflexivity.
  - intros a b [<-|[<-|[]]] [<-|[<-|[]]]; simpl; intros; congruence.
  - intros a b [<-|[<-|[]]] [<-|[<-|[]]]; simpl; intros; congruence.
Defined.

End ScheduleHandlerRepeat.


(* ================================================================= *)
(** ** FeedFetcherService: the fields of what is recorded *)

Module FeedFetcherRecords.

Import FeedFetcherService AsyncLogic FeedFetcherFacts FeedFetcherRuns.

#[local] Arguments Text.sha1Hex : simpl never.
#[local] Arguments Text.base64 : simpl never.
#[local] Arguments Text.byteLength : simpl never.
#[local] Arguments String.append : simpl never.

(** What the steps after the creation of the entities leave alone: on the
    request, everything but status, error message and response; on the
    response, everything but the keys, the hash and the Cloudflare flag. *)
Definition requestAs (q0 q : Request) : Prop :=
  url q = url q0 /\ createdAt q = createdAt q0 /\ fetchOptions q = fetchOptions q0.

Definition responseAs (p0 p : Response) : Prop :=
  res_createdAt p = res_createdAt p0 /\ statusCode p = statusCode p0 /\
  stored_headers p = stored_headers p0.

Section Fields.

Variable env : Env.
Variable url_ : string.
Variable options : option Options.
Variable w : World.

(** The response a run carries is the one built from the HTTP response. *)
Definition built (p : Response) : Prop :=
  exists res,
    fetchFeedResponse env url_ (fetchOptionsFor env options) = Resolved res /\
    responseAs (responseOf res (now w)) p.

Definition fieldsKept (r : Run) : Prop :=
  requestAs (newRequest env url_ options (now w)) (request r) /\
  forall p, response (request r) = Some p -> built p.

Lemma fieldsKept_ext r r' :
  request r' = request r -> fieldsKept r -> fieldsKept r'.
Proof. unfold fieldsKept. intros ->. exact (fun H => H). Qed.

Lemma saveBody_fields p0 t r :
  fieldsKept r /\ responseAs p0 (cur_response r) ->
  wp (saveBody env url_ options t)
     (fun _ r' => fieldsKept r' /\ responseAs p0 (cur_response r'))
     (fun _ r' => fieldsKept r' /\ responseAs p0 (cur_response r')) r.
Proof.
  intros [HK HP]. unfold saveBody. wp_go; split; first [exact HK | exact HP].
Qed.

Lemma decodeAndSave_fields p0 res r :
  requestAs (newRequest env url_ options (now w)) (request r) ->
  response (request r) = None ->
  responseAs p0 (cur_response r) ->
  wp (decodeAndSave env url_ options res)
     (fun _ r' =>
        requestAs (newRequest env url_ options (now w)) (request r') /\
        response (request r') = None /\
        responseAs p0 (cur_response r'))
     (fun _ _ => False) r.
Proof.
  intros HQ HN HP. unfold decodeAndSave, saveBody. wp_go; auto.
Qed.

Lemma catch_fields e r :
  fieldsKept r ->
  wp (catchBlock env url_ e)
     (fun result r' => fieldsKept r' /\ result_request result = request r')
     (fun _ _ => True) r.
Proof.
  intros [HQ HP]. unfold catchBlock. wp_go; try exact I; split; try reflexivity;
    (split; [exact HQ | exact HP]).
Qed.

(** The fields of the request a run resolves with. *)
Lemma run_fields :
  wp (tryFinally (tryCatch (tryBlock env url_ options) (catchBlock env url_))
                 (finallyBlock env options))
     (fun result _ =>
        requestAs (newRequest env url_ options (now w)) (result_request result) /\
        forall p, response (result_request result) = Some p -> built p)
     (fun _ _ => True)
     (startRun env url_ options w).
Proof.
  assert (Hstart : fieldsKept (startRun env url_ options w)).
  { split; [repeat split | intros p [=]]. }
  assert (Hfin : forall result r,
             fieldsKept r /\ result_request result = request r ->
             wp (finallyBlock env options)
                (fun _ _ =>
                   requestAs (newRequest env url_ options (now w)) (result_request result) /\
                   forall p, response (result_request result) = Some p -> built p)
                (fun _ _ => True) r).
  { intros result r [[HQ HP] ->]. unfold finallyBlock. wp_go; auto. }
  assert (Hfin' : forall r, wp (finallyBlock env options)
                               (fun _ (_ : Run) => True) (fun _ _ => True) r).
  { intros r. unfold finallyBlock. wp_go; exact I. }
  apply wp_tryFinally, wp_tryCatch. unfold tryBlock.
  apply wp_bind, wp_await.
  case_eq (fetchFeedResponse env url_ (fetchOptionsFor env options));
    [intros res Hfetch | intros e Hfetch].
  2:{ eapply wp_mono; [apply catch_fields; exact Hstart | exact Hfin | intros; apply Hfin']. }
  repeat wp_step.
  eapply wp_mono.
  - apply (decodeAndSave_fields (responseOf res (now w)) res).
    + repeat split.
    + reflexivity.
    + repeat split.
  - cbv beta. intros _ r' (HQ & HN & HP).
    assert (Hb : built (setIsCloudflare (hasCloudflareServer res) (cur_response r'))).
    { exists res. split; [exact Hfetch | exact HP]. }
    repeat wp_step. destruct (responsePersist env _); repeat wp_step.
    + eapply wp_mono; [apply catch_fields | exact Hfin | intros; apply Hfin'].
      split; [exact HQ|]. simpl. rewrite HN. intros p [=].
    + destruct (requestPersist env _); repeat wp_step.
      * eapply wp_mono; [apply catch_fields | exact Hfin | intros; apply Hfin'].
        split; [exact HQ|]. simpl. intros p [= <-]. exact Hb.
      * apply Hfin. split; [|reflexivity].
        split; [exact HQ|]. simpl. intros p [= <-]. exact Hb.
  - intros e r' [].
Qed.

End Fields.

(** X14.  The fields of a recorded request.  With persisting and flushing
    working, the request that [fetchAndSaveResponse] persists and resolves
    with has the URL asked for, the creation time of the call, and as
    fetch options the configured user agent (not the default that is sent
    in its place when none is configured) and the caller's headers without
    those of empty value.  When it carries a response, the transport
    answered, and the response has the creation time of the request, the
    HTTP status, and as headers the [etag] and [last-modified] of the HTTP
    response, each only if it is there and not empty. *)
Theorem recorded_fields env url_ options w :
  (forall q, requestPersist env q = None) ->
  (wantsFlush options = true -> requestFlush env = None) ->
  exists result w',
    fetchAndSaveResponse env url_ options w = (Resolved result, w') /\
    persistedRequests w' = persistedRequests w ++ [result_request result] /\
    url (result_request result) = url_ /\
    createdAt (result_request result) = now w /\
    fetchOptions (result_request result)
      = {| userAgent := feedUserAgent env;
           headers := trimHeadersForStorage
                        (match options with Some o => opt_headers o | None => None end) |} /\
    forall p, response (result_request result) = Some p ->
      exists res,
        fetchFeedResponse env url_ (fetchOptionsFor env options) = Resolved res /\
        res_createdAt p = Some (now w) /\
        statusCode p = Some (status res) /\
        stored_headers p
          = Some {| etag := orNull (headersGet "etag" (res_headers res));
                    lastModified := orNull (headersGet "last-modified" (res_headers res)) |}.
Proof.
  intros Hpersist Hflush.
  pose proof (run_persists_once env url_ options (startRun env url_ options w)
                (persistedRequests w) Hpersist Hflush eq_refl eq_refl) as H1.
  pose proof (run_fields env url_ options w) as H2.
  pose proof (wp_conj _ _ _ _ _ _ H1 H2) as H.
  eapply wp_mono in H; [|intros a s' HQ; exact HQ|intros e s' [[] _]].
  apply wp_resolves in H as (result & r & E & [Hp _] & (Hu & Hc & Hf) & Hb).
  exists result, (world r). unfold fetchAndSaveResponse. rewrite E.
  split; [reflexivity|]. split; [exact Hp|]. split; [exact Hu|]. split; [exact Hc|].
  split; [exact Hf|].
  intros p Hresp. destruct (Hb p Hresp) as (res & Hfetch & H3 & H4 & H5).
  exists res. split; [exact Hfetch|]. split; [exact H3|]. split; [exact H4 | exact H5].
Qed.

Lemma recorded_fields_witness :
  exists result w',
    let env := exampleEnv (Resolved (feedAnswer "<rss/>")) None None in
    fetchAndSaveResponse env feedUrl withFlush emptyWorld = (Resolved result, w') /\
    persistedRequests w' = persistedRequests emptyWorld ++ [result_request result] /\
    url (result_request result) = feedUrl /\
    createdAt (result_request result) = now emptyWorld /\
    fetchOptions (result_request result)
      = {| userAgent := feedUserAgent env;
           headers := trimHeadersForStorage
                        (match withFlush with Some o => opt_headers o | None => None end) |} /\
    forall p, response (result_request result) = Some p ->
      exists res,
        fetchFeedResponse env feedUrl (fetchOptionsFor env withFlush) = Resolved res /\
        res_createdAt p = Some (now emptyWorld) /\
        statusCode p = Some (status res) /\
        stored_headers p
          = Some {| etag := orNull (headersGet "etag" (res_headers res));
                    lastModified := orNull (headersGet "last-modified" (res_headers res)) |}.
Proof.
  apply (recorded_fields (exampleEnv (Resolved (feedAnswer "<rss/>")) None None)
           feedUrl withFlush emptyWorld).
  - reflexivity.
  - reflexivity.
Defined.

End FeedFetcherRecords.

(* ================================================================= *)
(** ** FeedFetcherService: the read path *)

Module FeedFetcherReads.

Import FeedFetcherService.

(** The collaborators of the read path.  The tables are those of the
    world: a row is a request as it was persisted, with the response it
    refers to. *)
Record ReadEnv : Type := {
  (* whether a query on the tables is rejected *)
  queryError : option JsError;
  (* cacheStorageService.getFeedHtmlContent({ key }); [None] when the
     entry is not there (any more) *)
  getFeedHtmlContent : World -> string -> Outcome (option string);
  (* inflatePromise(Buffer.from(text, 'base64')) and [toString()] *)
  inflate : string -> Outcome string
}.

Definition requestStatusEqb (a b : RequestStatus) : bool :=
  match a, b with
  | OK, OK | BAD_STATUS_CODE, BAD_STATUS_CODE | FETCH_ERROR, FETCH_ERROR
  | FETCH_TIMEOUT, FETCH_TIMEOUT | PARSE_ERROR, PARSE_ERROR
  | REFUSED_LARGE_FEED, REFUSED_LARGE_FEED => true
  | _, _ => false
  end.

(** [findOne(where, { orderBy: { createdAt: 'DESC' } })]: a matching row of
    greatest [createdAt]; among rows of the same [createdAt], which the
    database is free to choose from, the one persisted last. *)
Fixpoint findLatest (matches : Request -> bool) (rows : list Request) : option Request :=
  match rows with
  | [] => None
  | q :: rows' =>
      match findLatest matches rows' with
      | Some q' => if matches q && (createdAt q' <? createdAt q) then Some q else Some q'
      | None => if matches q then Some q else None
      end
  end.

(** [{ url, status: RequestStatus.OK }] *)
Definition isOkRequestOf (url_ : string) (q : Request) : bool :=
  String.eqb (url q) url_ &&
  match req_status q with
  | Some st => requestStatusEqb st OK
  | None => false
  end.

(** [{ url, response: { statusCode: { $ne: HttpStatus.NOT_MODIFIED } } }]:
    a condition on the joined response, which a request without response
    does not meet. *)
Definition isModifiedRequestOf (url_ : string) (q : Request) : bool :=
  String.eqb (url q) url_ &&
  match response q with
  | Some p =>
      match statusCode p with
      | Some c => negb (c =? NOT_MODIFIED)
      | None => false
      end
  | None => false
  end.

(** [{}] *)
Definition noHeaders : ResponseHeaders := {| etag := None; lastModified := None |}.

(** What [getLatestRequest] resolves with, when not with [null]. *)
Record LatestRequest : Type := {
  latest_request : Request;
  decodedResponseText : string
}.

Section Service.

Variable env : ReadEnv.

Definition query {A} (answer : World -> A) : Async World A :=
  match queryError env with
  | Some e => throw e
  | None => w <- get ;; ret (answer w)
  end.

Definition countRequests (url_ : string) : Async World nat :=
  query (fun w =>
           List.length (filter (fun q => String.eqb (url q) url_) (persistedRequests w))).

Definition getLatestRequestHeaders (url_ : string) : Async World ResponseHeaders :=
  request <- query (fun w => findLatest (isOkRequestOf url_) (persistedRequests w)) ;;
  match request with
  | None => ret noHeaders
  | Some request =>
      ret (match response request with
           | Some p =>
               match stored_headers p with
               | Some h => h
               | None => noHeaders
               end
           | None => noHeaders
           end)
  end.

Definition getLatestRequest (url_ : string) : Async World (option LatestRequest) :=
  request <- query (fun w => findLatest (isModifiedRequestOf url_) (persistedRequests w)) ;;
  match request with
  | None => ret None
  | Some request =>
      response_ <- (match response request with
                    | Some p => query (fun _ => Some p)
                    | None => ret None
                    end) ;;
      match response_ with
      | Some p =>
          match redisCacheKey p with
          | Some (String c k) =>
              compressedText <- (fun w => (getFeedHtmlContent env w (String c k), w)) ;;
              text <- (match compressedText with
                       | Some (String c' t) => fun w => (inflate env (String c' t), w)
                       | _ => ret EmptyString
                       end) ;;
              ret (Some {| latest_request := request; decodedResponseText := text |})
          | _ => ret (Some {| latest_request := request;
                              decodedResponseText := EmptyString |})
          end
      | None => ret (Some {| latest_request := request;
                             decodedResponseText := EmptyString |})
      end
  end.

End Service.

(** A cache that keeps what it was sent: the content under a key is the
    body of the last call of [setFeedHtmlContent] with that key. *)
Fixpoint lastWritten (calls : list (string * string)) (key : string) : option string :=
  match calls with
  | [] => None
  | (k, body) :: calls' =>
      match lastWritten calls' key with
      | Some later => Some later
      | None => if String.eqb k key then Some body else None
      end
  end.

End FeedFetcherReads.

(* ================================================================= *)
(** ** Reading back what a fetch recorded *)

Module FeedFetcherReadFacts.

Import FeedFetcherService AsyncLogic FeedFetcherFacts FeedFetcherRuns.
Import FeedFetcherRecords FeedFetcherReads.

#[local] Arguments Text.sha1Hex : simpl never.
#[local] Arguments Text.base64 : simpl never.
#[local] Arguments Text.byteLength : simpl never.
#[local] Arguments String.append : simpl never.

(** *** The latest row *)

Lemma findLatest_none matches rows :
  findLatest matches rows = None <-> forall q, In q rows -> matches q = false.
Proof.
  induction rows as [|q rows IH]; simpl.
  - split; [intros _ q [] | reflexivity].
  - destruct (findLatest matches rows) as [q'|].
    + split.
      * destruct (matches q && (createdAt q' <? createdAt q)); discriminate.
      * intros H. assert (Hn : Some q' = None) by (apply IH; auto). discriminate.
    + destruct (matches q) eqn:Hq.
      * split; [discriminate|]. intros H. rewrite (H q) in Hq by auto. discriminate.
      * split; [|reflexivity]. intros _ x [<-|Hx]; [exact Hq|]. apply IH; auto.
Qed.

Lemma findLatest_some matches rows q :
  findLatest matches rows = Some q ->
  In q rows /\ matches q = true /\
  forall q', In q' rows -> matches q' = true -> createdAt q' <= createdAt q.
Proof.
  revert q. induction rows as [|q0 rows IH]; simpl; [discriminate|].
  intros q. destruct (findLatest matches rows) as [q1|] eqn:Hrest.
  - destruct (IH q1 eq_refl) as (Hin & Hm & Hmax).
    destruct (matches q0) eqn:Hq0; simpl.
    + destruct (Z.ltb_spec (createdAt q1) (createdAt q0)); intros [= <-].
      * split; [auto|]. split; [exact Hq0|].
        intros q' [<-|Hq'] Hm'; [lia|]. specialize (Hmax q' Hq' Hm'). lia.
      * split; [auto|]. split; [exact Hm|].
        intros q' [<-|Hq'] Hm'; [lia | auto].
    + intros [= <-]. split; [auto|]. split; [exact Hm|].
      intros q' [<-|Hq'] Hm'; [congruence | auto].
  - destruct (matches q0) eqn:Hq0; [|discriminate]. intros [= <-].
    split; [auto|]. split; [exact Hq0|].
    intros q' [<-|Hq'] Hm'; [lia|].
    rewrite (proj1 (findLatest_none matches rows) Hrest q' Hq') in Hm'. discriminate.
Qed.

(** A row persisted after all others, at a later time. *)
Lemma findLatest_new matches rows q :
  (forall q', In q' rows -> createdAt q' < createdAt q) ->
  findLatest matches (rows ++ [q])
    = if matches q then Some q else findLatest matches rows.
Proof.
  intros Hclock. induction rows as [|q0 rows IH]; simpl.
  - destruct (matches q); reflexivity.
  - rewrite IH by (intros q' Hq'; apply Hclock; right; exact Hq').
    destruct (matches q) eqn:Hq; [|reflexivity].
    assert (Hlt : (createdAt q <? createdAt q0) = false).
    { apply Z.ltb_ge. specialize (Hclock q0 (or_introl eq_refl)). lia. }
    rewrite Hlt, andb_false_r. reflexivity.
Qed.

Lemma lastWritten_new calls key body :
  lastWritten (calls ++ [(key, body)]) key = Some body.
Proof.
  induction calls as [|[k b] calls IH]; simpl.
  - rewrite String.eqb_refl. reflexivity.
  - rewrite IH. reflexivity.
Qed.

Lemma sha1Hex_not_empty data : exists c k, Text.sha1Hex data = String c k.
Proof.
  unfold Text.sha1Hex.
  destruct (Text.blocks _ _ _) as [[[[h0 h1] h2] h3] h4].
  cbn [Text.beBytes app Text.hex]. eexists. eexists. reflexivity.
Qed.

Lemma base64_not_empty s : s <> "" -> exists c k, Text.base64 s = String c k.
Proof.
  destruct s as [|a s]; [congruence|]. intros _.
  unfold Text.base64, Text.bytesOf. cbn [list_ascii_of_string map List.length].
  destruct (map Text.asciiZ (list_ascii_of_string s)) as [|b1 [|b2 bs]];
    cbn [Text.base64Bytes]; eexists; eexists; reflexivity.
Qed.

(** *** A fetch and its record, together *)


(** The clock of the world is ahead of every row of the table. *)
Definition clockAhead (w : World) : Prop :=
  forall q, In q (persistedRequests w) -> createdAt q < now w.

(** The cache keeps what it was sent, and answers. *)
Definition cacheKeeps (renv : ReadEnv) : Prop :=
  forall w key,
    getFeedHtmlContent renv w key
      = Resolved (lastWritten (setFeedHtmlContentCalls w) key).



(** The run of the read path on a row of the table that has a cache
    key. *)
Lemma getLatestRequest_cached renv url_ w q p :
  queryError renv = None ->
  findLatest (isModifiedRequestOf url_) (persistedRequests w) = Some q ->
  response q = Some p ->
  redisCacheKey p = Some (Text.sha1Hex url_) ->
  getLatestRequest renv url_ w =
  match getFeedHtmlContent renv w (Text.sha1Hex url_) with
  | Rejected e => (Rejected e, w)
  | Resolved (Some (String c t)) =>
      match inflate renv (String c t) with
      | Resolved text =>
          (Resolved (Some {| latest_request := q; decodedResponseText := text |}), w)
      | Rejected e => (Rejected e, w)
      end
  | Resolved _ =>
      (Resolved (Some {| latest_request := q; decodedResponseText := "" |}), w)
  end.
Proof.
  intros Hquery Hlatest Hresp Hkey.
  unfold getLatestRequest, query. rewrite Hquery. unfold bind, get, ret.
  rewrite Hlatest, Hresp, Hkey.
  destruct (sha1Hex_not_empty url_) as (c & k & ->).
  destruct (getFeedHtmlContent renv w (String c k)) as [[[|c' t]|]|e]; reflexivity.
Qed.


(** X21.  A 304 blanks the body that is read back.  Let the latest request
    of a URL that [getLatestRequest] selects be one with a response that
    carries the cache key of the URL, as every cached fetch of the URL
    records it.  After a fetch of the URL answered with 304 Not Modified,
    whose empty body was compressed and accepted by the cache, with
    persistence working and the clock ahead of the table:
    [getLatestRequest] still selects that earlier request, the 304 being
    left out by its query, but the text it returns with it is the empty
    string, read from the cache entry that the 304 fetch overwrote. *)
Theorem not_modified_blanks_latest_body env renv url_ options w res d q p :
  fetchFeedResponse env url_ (fetchOptionsFor env options) = Resolved res ->
  status res = NOT_MODIFIED ->
  deflate env "" = Resolved d ->
  d <> "" ->
  sha1 w = createHash ->
  setFeedHtmlContent env (Text.sha1Hex url_) (Text.base64 d) = None ->
  storesUp env options ->
  clockAhead w ->
  queryError renv = None ->
  cacheKeeps renv ->
  inflate renv (Text.base64 d) = Resolved "" ->
  findLatest (isModifiedRequestOf url_) (persistedRequests w) = Some q ->
  response q = Some p ->
  redisCacheKey p = Some (Text.sha1Hex url_) ->
  exists result w',
    fetchAndSaveResponse env url_ options w = (Resolved result, w') /\
    req_status (result_request result) = Some OK /\
    getLatestRequest renv url_ w'
      = (Resolved (Some {| latest_request := q; decodedResponseText := "" |}), w').
Proof.
  intros Hfetch H304 Hdef Hd Hfresh Hset Hup Hclock Hquery Hcache Hinflate
         Hbefore Hresp0 Hkey0.
  assert (Hdec : decodeText env res = Resolved "").
  { unfold decodeText. rewrite H304. reflexivity. }
  assert (Hst : statusOf res = OK).
  { unfold statusOf. rewrite H304. rewrite orb_true_r. reflexivity. }
  assert (Hnot : forall e, setFeedHtmlContent env (Text.sha1Hex url_) (Text.base64 d) = Some e ->
                           isFeedTooLarge e = false).
  { intros e He. rewrite Hset in He. discriminate. }
  pose proof (body_saved_run env url_ options w res "" d
                Hfetch Hdec Hdef Hfresh Hnot Hup) as H1.
  pose proof (run_fields env url_ options w) as H2.
  pose proof (wp_conj _ _ _ _ _ _ H1 H2) as H.
  eapply wp_mono in H; [|intros a s' HQ; exact HQ|intros e s' [[] _]].
  apply wp_resolves in H
    as (result & r & E &
        (p' & Hstatus & _ & Hresp & _ & Hcode & _ & _ & _ & Hcalls & _ & _ & Hrows & _) &
        (Hu & Hc & _) & _).
  exists result, (world r). unfold fetchAndSaveResponse. rewrite E.
  split; [reflexivity|]. split; [rewrite Hstatus, Hst; reflexivity|].
  assert (Hlatest : findLatest (isModifiedRequestOf url_) (persistedRequests (world r))
                    = Some q).
  { rewrite Hrows, findLatest_new.
    - unfold isModifiedRequestOf. rewrite Hresp, Hcode, H304.
      rewrite andb_false_r. exact Hbefore.
    - intros q' Hq'. rewrite Hc. apply Hclock. exact Hq'. }
  rewrite (getLatestRequest_cached renv url_ (world r) q p Hquery Hlatest Hresp0 Hkey0).
  rewrite Hcache, Hcalls, lastWritten_new.
  destruct (base64_not_empty d Hd) as (c & k & Hb). rewrite Hb in *.
  rewrite Hinflate. reflexivity.
Qed.

(** *** Concrete reads *)

(** A cache that keeps what it was sent, and a stand-in for zlib's inflate
    that undoes [markedDeflate] on the two bodies of the examples. *)
Definition exampleReadEnv : ReadEnv :=
  {| queryError := None;
     getFeedHtmlContent :=
       fun w key => Resolved (lastWritten (setFeedHtmlContentCalls w) key);
     inflate :=
       fun s =>
         if String.eqb s (Text.base64 "deflated:") then Resolved ""
         else if String.eqb s (Text.base64 "deflated:<rss/>") then Resolved "<rss/>"
              else Rejected (Error "incorrect header check") |}.

(** Ten minutes later. *)
Definition later (w : World) : World :=
  {| setFeedHtmlContentCalls := setFeedHtmlContentCalls w;
     uploadFeedHtmlContentCalls := uploadFeedHtmlContentCalls w;
     persistedResponses := persistedResponses w;
     persistedRequests := persistedRequests w;
     flushes := flushes w; logs := logs w; sha1 := sha1 w;
     uuids := uuids w; now := now w + 600000 |}.

(** The world after the first fetch of the examples, which was answered
    with 200 and the body ["<rss/>"], and the request it recorded. *)
Definition afterFirstFetch : World := later (snd firstFetch).

Definition firstRequest : Request :=
  match fst firstFetch with
  | Resolved result => result_request result
  | Rejected _ => newRequest (exampleEnv (Rejected (Error "")) None None) "" None 0
  end.

Definition firstResponse : Response :=
  match response firstRequest with
  | Some p => p
  | None => newResponse
  end.

Definition textOf (run : Outcome (option LatestRequest) * World) : option string :=
  match fst run with
  | Resolved (Some l) => Some (decodedResponseText l)
  | _ => None
  end.

Definition requestOf (run : Outcome (option LatestRequest) * World) : option Request :=
  match fst run with
  | Resolved (Some l) => Some (latest_request l)
  | _ => None
  end.

(** The body of the first fetch is read back; after a second fetch,
    answered with 304, the same request is read back with an empty body,
    and the headers for the next conditional request are those of the
    304. *)
Example read_back_runs :
  let afterSecondFetch :=
    snd (fetchAndSaveResponse (exampleEnv (Resolved notModifiedAnswer) None None)
                              feedUrl None afterFirstFetch) in
  textOf (getLatestRequest exampleReadEnv feedUrl afterFirstFetch) = Some "<rss/>" /\
  requestOf (getLatestRequest exampleReadEnv feedUrl afterFirstFetch) = Some firstRequest /\
  textOf (getLatestRequest exampleReadEnv feedUrl afterSecondFetch) = Some "" /\
  requestOf (getLatestRequest exampleReadEnv feedUrl afterSecondFetch) = Some firstRequest /\
  fst (countRequests exampleReadEnv feedUrl afterSecondFetch) = Resolved 2%nat /\
  fst (getLatestRequestHeaders exampleReadEnv feedUrl afterSecondFetch)
    = Resolved {| etag := Some "W/abc"; lastModified := None |}.
Proof. vm_compute. repeat split; reflexivity. Qed.


Lemma rows_afterFirstFetch : persistedRequests afterFirstFetch = [firstRequest].
Proof. vm_compute. reflexivity. Qed.

Lemma clockAhead_afterFirstFetch : clockAhead afterFirstFetch.
Proof.
  intros q Hq. rewrite rows_afterFirstFetch in Hq. destruct Hq as [<-|[]].
  vm_compute. reflexivity.
Qed.



Lemma not_modified_blanks_latest_body_witness :
  exists result w',
    fetchAndSaveResponse (exampleEnv (Resolved notModifiedAnswer) None None)
                         feedUrl None afterFirstFetch = (Resolved result, w') /\
    req_status (result_request result) = Some OK /\
    getLatestRequest exampleReadEnv feedUrl w'
      = (Resolved (Some {| latest_request := firstRequest;
                           decodedResponseText := "" |}), w').
Proof.
  apply (not_modified_blanks_latest_body
           (exampleEnv (Resolved notModifiedAnswer) None None) exampleReadEnv
           feedUrl None afterFirstFetch notModifiedAnswer "deflated:"
           firstRequest firstResponse).
  - reflexivity.
  - reflexivity.
  - reflexivity.
  - discriminate.
  - vm_compute. reflexivity.
  - reflexivity.
  - repeat split; reflexivity.
  - exact clockAhead_afterFirstFetch.
  - reflexivity.
  - intros w key. reflexivity.
  - vm_compute. reflexivity.
  - vm_compute. reflexivity.
  - vm_compute. reflexivity.
  - vm_compute. reflexivity.
Defined.

End FeedFetcherReadFacts.


(* ================================================================= *)
(** ** A fetch whose response cannot be persisted *)

Module FeedFetcherPersistence.

Import FeedFetcherService AsyncLogic FeedFetcherFacts.

#[local] Arguments Text.sha1Hex : simpl never.
#[local] Arguments Text.base64 : simpl never.
#[local] Arguments Text.byteLength : simpl never.
#[local] Arguments String.append : simpl never.

(** The run in which the transport answers and persisting the response
    throws: the outer [catch] takes over. *)
Lemma response_unpersisted_run env url_ options w res e :
  fetchFeedResponse env url_ (fetchOptionsFor env options) = Resolved res ->
  (forall p, responsePersist env p = Some e) ->
  (forall q, requestPersist env q = None) ->
  (wantsFlush options = true -> requestFlush env = None) ->
  wp (tryFinally (tryCatch (tryBlock env url_ options) (catchBlock env url_))
                 (finallyBlock env options))
     (fun result r =>
        req_status (result_request result)
          = Some (if isRequestTimeout e then FETCH_TIMEOUT else FETCH_ERROR) /\
        errorMessage (result_request result) = Some (message e) /\
        response (result_request result) = None /\
        responseText result = None /\
        persistedResponses (world r) = persistedResponses w /\
        persistedRequests (world r) = persistedRequests w ++ [result_request result])
     (fun _ _ => False)
     (startRun env url_ options w).
Proof.
  intros Hfetch Hrp Hqp Hflush.
  set (I := fun r : Run =>
              persistedResponses (world r) = persistedResponses w /\
              persistedRequests (world r) = persistedRequests w /\
              response (request r) = None).
  assert (HQ : quiet I).
  { unfold I. split; intros; simpl; tauto. }
  apply wp_tryFinally, wp_tryCatch. unfold tryBlock.
  apply wp_bind, wp_await. rewrite Hfetch. repeat wp_step.
  eapply wp_mono.
  - apply (decodeAndSave_quiet env I); [exact HQ|]. unfold I. simpl. auto.
  - cbv beta. intros _ r' (H1 & H2 & H3).
    repeat wp_step. rewrite Hrp. unfold catchBlock, finallyBlock.
    destruct (isRequestTimeout e); repeat wp_step; rewrite Hqp; repeat wp_step;
      (destruct (wantsFlush options);
       [unfold flush; rewrite (Hflush eq_refl); repeat wp_step | repeat wp_step]);
      simpl; rewrite H2; auto 10.
  - intros e' r' [].
Qed.

(** X30.  A response that cannot be persisted.  When the transport
    answered and [responseRepo.persist] throws, whatever was done with the
    body before, the error reaches the outer [catch], which records the
    fetch as failed: the request is persisted with status [FETCH_ERROR]
    ([FETCH_TIMEOUT] if the error is a [FetchError] of type
    [request-timeout]), with the message of the persistence error and
    without response, and the call resolves without [responseText]. *)
Theorem unpersisted_response_is_a_fetch_error env url_ options w res e :
  fetchFeedResponse env url_ (fetchOptionsFor env options) = Resolved res ->
  (forall p, responsePersist env p = Some e) ->
  (forall q, requestPersist env q = None) ->
  (wantsFlush options = true -> requestFlush env = None) ->
  exists result w',
    fetchAndSaveResponse env url_ options w = (Resolved result, w') /\
    req_status (result_request result)
      = Some (if isRequestTimeout e then FETCH_TIMEOUT else FETCH_ERROR) /\
    errorMessage (result_request result) = Some (message e) /\
    response (result_request result) = None /\
    responseText result = None /\
    persistedResponses w' = persistedResponses w /\
    persistedRequests w' = persistedRequests w ++ [result_request result].
Proof.
  intros Hfetch Hrp Hqp Hflush.
  pose proof (response_unpersisted_run env url_ options w res e Hfetch Hrp Hqp Hflush) as H.
  apply wp_resolves in H as (result & r & E & H).
  exists result, (world r). unfold fetchAndSaveResponse. rewrite E.
  split; [reflexivity | exact H].
Qed.

(** An environment whose [Response] table cannot be written. *)
Definition responsesDown (answer : Outcome HttpResponse) : Env :=
  {| feedUserAgent := Some "MonitoRSS/1.0";
     defaultUserAgent := "Mozilla/5.0";
     fetch := fun _ _ => answer;
     iconvDecode := fun bytes _ => Resolved bytes;
     deflate := markedDeflate;
     randomUUID := fun n => ("uuid-" ++ String (ascii_of_nat (48 + n)) "")%string;
     uploadFeedHtmlContent := fun _ _ => None;
     setFeedHtmlContent := fun _ _ => None;
     responsePersist := fun _ => Some (Error "relation does not exist");
     requestPersist := fun _ => None;
     requestFlush := None |}.

(** The body was written to the cache before the failure. *)
Example responses_down_run :
  let run := fetchAndSaveResponse (responsesDown (Resolved (feedAnswer "<rss/>")))
                                  feedUrl None emptyWorld in
  statusIn run = Some FETCH_ERROR /\
  responseIn run = None /\
  textIn run = None /\
  List.length (setFeedHtmlContentCalls (snd run)) = 1%nat.
Proof. vm_compute. repeat split; reflexivity. Qed.

Lemma unpersisted_response_is_a_fetch_error_witness :
  exists result w',
    fetchAndSaveResponse (responsesDown (Resolved (feedAnswer "<rss/>")))
                         feedUrl withFlush emptyWorld = (Resolved result, w') /\
    req_status (result_request result)
      = Some (if isRequestTimeout (Error "relation does not exist")
              then FETCH_TIMEOUT else FETCH_ERROR) /\
    errorMessage (result_request result) = Some (message (Error "relation does not exist")) /\
    response (result_request result) = None /\
    responseText result = None /\
    persistedResponses w' = persistedResponses emptyWorld /\
    persistedRequests w' = persistedRequests emptyWorld ++ [result_request result].
Proof.
  apply (unpersisted_response_is_a_fetch_error
           (responsesDown (Resolved (feedAnswer "<rss/>")))
           feedUrl withFlush emptyWorld (feedAnswer "<rss/>")
           (Error "relation does not exist")); reflexivity.
Defined.

End FeedFetcherPersistence.
